(** * Smart Public Complaint Box: classification, priority and lifecycle

    A shallow embedding of the complaint pipeline
    ([complaint_classifier.py], [complaint_service.py], [database.py])
    together with the properties its specification states about it.

    Conventions of the embedding.
    - A Python [str] is a Rocq [string]; its characters are read as the
      code points U+0000..U+00FF, on which [str.lower], [str.isspace] and
      the regular-expression class [\s] are tabulated exactly.
    - SQL columns that may hold NULL are [option]s; row identifiers and
      timestamps are [Z].
    - Python exceptions are values of [exn], carried by [Result].
    - Floating-point scores of the scikit-learn pipeline are stood for by
      rationals [Q]: the code only compares them and takes their maximum. *)

From Stdlib Require Import String Ascii List Bool ZArith NArith QArith Lia Sorted.
Import ListNotations.

Local Open Scope list_scope.
Local Open Scope string_scope.

(** ** Python string primitives *)

Module PyStr.

(** Code point of a character. *)
Definition ord (c : ascii) : N := N_of_ascii c.

Definition in_range (lo hi : N) (c : ascii) : bool :=
  ((lo <=? ord c) && (ord c <=? hi))%N.

(** [str.isspace] on one character: U+0009..U+000D, U+001C..U+0020,
    U+0085 and U+00A0.  The class [\s] of [re] on [str] patterns is the
    same set. *)
Definition isspace (c : ascii) : bool :=
  in_range 9 13 c || in_range 28 32 c || (ord c =? 133)%N || (ord c =? 160)%N.

(** The character class [a-zA-Z]. *)
Definition is_ascii_letter (c : ascii) : bool :=
  in_range 97 122 c || in_range 65 90 c.

(** [str.lower] on one character: A..Z and the upper-case letters of
    U+00C0..U+00DE (all but the multiplication sign U+00D7) move up by 32. *)
Definition lower_char (c : ascii) : ascii :=
  if in_range 65 90 c || (in_range 192 222 c && negb (ord c =? 215)%N)
  then ascii_of_N (ord c + 32)
  else c.

Fixpoint map_str (f : ascii -> ascii) (s : string) : string :=
  match s with
  | EmptyString => EmptyString
  | String c s' => String (f c) (map_str f s')
  end.

Fixpoint filter_str (p : ascii -> bool) (s : string) : string :=
  match s with
  | EmptyString => EmptyString
  | String c s' => if p c then String c (filter_str p s') else filter_str p s'
  end.

Fixpoint forallb_str (p : ascii -> bool) (s : string) : bool :=
  match s with
  | EmptyString => true
  | String c s' => p c && forallb_str p s'
  end.

Definition is_empty (s : string) : bool :=
  match s with EmptyString => true | String _ _ => false end.

(** [s.lower()] *)
Definition lower (s : string) : string := map_str lower_char s.

(** [s.startswith(p)] *)
Fixpoint startswith (p s : string) : bool :=
  match p, s with
  | EmptyString, _ => true
  | String _ _, EmptyString => false
  | String a p', String b s' => Ascii.eqb a b && startswith p' s'
  end.

(** [k in s]: [k] occurs in [s] at some offset. *)
Fixpoint contains (k s : string) : bool :=
  startswith k s ||
  match s with
  | EmptyString => false
  | String _ s' => contains k s'
  end.

(** [s.split()]: the maximal runs of non-whitespace characters, in order.
    [cur] is the word being read. *)
Fixpoint split_from (cur s : string) : list string :=
  match s with
  | EmptyString => if is_empty cur then [] else [cur]
  | String c s' =>
      if isspace c
      then (if is_empty cur then split_from EmptyString s'
            else cur :: split_from EmptyString s')
      else split_from (cur ++ String c EmptyString) s'
  end.

Definition split (s : string) : list string := split_from EmptyString s.

(** [sep.join(xs)] *)
Fixpoint join (sep : string) (xs : list string) : string :=
  match xs with
  | [] => EmptyString
  | [x] => x
  | x :: xs' => x ++ sep ++ join sep xs'
  end.

(** [s.lstrip()], [s.rstrip()], [s.strip()] *)
Fixpoint lstrip (s : string) : string :=
  match s with
  | EmptyString => EmptyString
  | String c s' => if isspace c then lstrip s' else s
  end.

Fixpoint rstrip (s : string) : string :=
  match s with
  | EmptyString => EmptyString
  | String c s' =>
      let r := rstrip s' in
      if isspace c && is_empty r then EmptyString else String c r
  end.

Definition strip (s : string) : string := rstrip (lstrip s).

(** [k] occurs in [s] as a substring. *)
Definition Substring (k s : string) : Prop :=
  exists pre post, s = pre ++ k ++ post.

End PyStr.

(** ** Exceptions and results *)

(** Exceptions raised by the code or passed through from its collaborators. *)
Inductive exn : Type :=
| ValueError (msg : string)
| FileNotFoundError (msg : string)
| IntegrityError (msg : string)
| OperationalError (msg : string)
| IsADirectoryError (msg : string)
| UnpicklingError (msg : string)
| EOFError (msg : string)
| OSError (msg : string).

Inductive Result (A : Type) : Type :=
| Ok (a : A)
| Raise (e : exn).
Arguments Ok {A} a.
Arguments Raise {A} e.

(** ** The scikit-learn pipeline held by the classifier

  [Pipeline([('tfidf', TfidfVectorizer(...)), ('classifier', MultinomialNB(...))])]
  is a library object; what the repository's code observes of it is kept:
  - [classes_]: the class labels in the estimator's own order
    ([np.unique] of the training labels, hence sorted);
  - [joint_log_likelihood x]: the per-class scores of input [x];
  - [proba x]: the per-class posterior probabilities of input [x]. *)

Module Sklearn.

Record Pipeline : Type := {
  classes_ : list string;
  joint_log_likelihood : string -> list Q;
  proba : string -> list Q
}.

Definition Qlt_bool (x y : Q) : bool := negb (Qle_bool y x).

(** [np.argmax]: index of the first occurrence of the maximum. *)
Fixpoint argmax_from (best_i : nat) (best : Q) (i : nat) (xs : list Q) : nat :=
  match xs with
  | [] => best_i
  | x :: xs' =>
      if Qlt_bool best x then argmax_from i x (S i) xs'
      else argmax_from best_i best (S i) xs'
  end.

Definition argmax (xs : list Q) : nat :=
  match xs with
  | [] => O
  | x :: xs' => argmax_from O x 1 xs'
  end.

(** [pipeline.predict([x])[0]], that is
    [self.classes_[np.argmax(jll, axis=1)]] for the one row [x]. *)
Definition predict (p : Pipeline) (x : string) : string :=
  nth (argmax (joint_log_likelihood p x)) (classes_ p) EmptyString.

(** [pipeline.predict_proba([x])[0]] *)
Definition predict_proba (p : Pipeline) (x : string) : list Q := proba p x.

(** Insertion of a label into a sorted list without duplicates, and
    [np.unique]: the sorted distinct labels. *)
Fixpoint insert_unique (x : string) (xs : list string) : list string :=
  match xs with
  | [] => [x]
  | y :: ys =>
      match String.compare x y with
      | Lt => x :: xs
      | Eq => xs
      | Gt => y :: insert_unique x ys
      end
  end.

Definition np_unique (xs : list string) : list string :=
  fold_right insert_unique [] xs.

(** What a fitted pipeline guarantees at input [x]: one score and one
    probability per class, at least one class, probabilities in [0,1]
    and ordered as the scores are. *)
Record fitted_at (p : Pipeline) (x : string) : Prop := {
  fit_classes : classes_ p <> [];
  fit_scores : length (joint_log_likelihood p x) = length (classes_ p);
  fit_proba : length (proba p x) = length (classes_ p);
  fit_range : Forall (fun q => 0 <= q /\ q <= 1)%Q (proba p x);
  fit_order : forall i j,
      (i < length (classes_ p))%nat -> (j < length (classes_ p))%nat ->
      (nth i (joint_log_likelihood p x) 0 <= nth j (joint_log_likelihood p x) 0)%Q <->
      (nth i (proba p x) 0 <= nth j (proba p x) 0)%Q
}.

End Sklearn.

(** ** complaint_classifier.py *)

Module Classifier.
Import PyStr.

(** The attributes of a [ComplaintClassifier] instance. *)
Record ComplaintClassifier : Type := {
  model_path : option string;
  pipeline : option Sklearn.Pipeline;
  categories : list string
}.

(** [__init__(model_path)] *)
Definition init (model_path : option string) : ComplaintClassifier :=
  {| model_path := model_path;
     pipeline := None;
     categories :=
       ["Water Supply"; "Road Maintenance"; "Electricity"; "Sanitation"; "Other"] |}.

(** The state after [train] or [load_model] has stored a pipeline. *)
Definition with_pipeline (self : ComplaintClassifier) (p : Sklearn.Pipeline)
  : ComplaintClassifier :=
  {| model_path := model_path self;
     pipeline := Some p;
     categories := categories self |}.

(** [re.sub(r'[^a-zA-Z\s]', '', text)]: every character outside the class
    is replaced by the empty string. *)
Definition keep_char (c : ascii) : bool := is_ascii_letter c || isspace c.

Definition remove_special (text : string) : string := filter_str keep_char text.

(** [preprocess_text]:
<<
    text = text.lower()
    text = re.sub(r'[^a-zA-Z\s]', '', text)
    text = ' '.join(text.split())
>> *)
Definition preprocess_text (text : string) : string :=
  let text := lower text in
  let text := remove_special text in
  join " " (split text).

Definition high_priority_keywords : list string :=
  ["urgent"; "emergency"; "dangerous"; "accident"; "health";
   "death"; "fire"; "flood"; "burst"; "leaking"; "exposed";
   "fallen"; "broken"; "damaged"; "contaminated"; "overflow"].

Definition medium_priority_keywords : list string :=
  ["irregular"; "frequent"; "poor"; "need"; "required";
   "not working"; "problem"; "issue"].

(** [for keyword in keywords: if keyword in text: return level], the
    loop falling through to [rest] when no keyword is found. *)
Fixpoint scan_keywords (keywords : list string) (text level rest : string) : string :=
  match keywords with
  | [] => rest
  | keyword :: keywords' =>
      if contains keyword text then level
      else scan_keywords keywords' text level rest
  end.

(** [predict_priority(complaint_text, category)] *)
Definition predict_priority (complaint_text category : string) : string :=
  let text_lower := lower complaint_text in
  scan_keywords high_priority_keywords text_lower "High"
    (scan_keywords medium_priority_keywords text_lower "Medium"
       "Low").

(** The builtin [max] on a sequence: the first greatest element;
    [ValueError] on an empty one. *)
Fixpoint max_from (best : Q) (xs : list Q) : Q :=
  match xs with
  | [] => best
  | x :: xs' => if Sklearn.Qlt_bool best x then max_from x xs' else max_from best xs'
  end.

Definition py_max (xs : list Q) : Result Q :=
  match xs with
  | [] => Raise (ValueError "max() arg is an empty sequence")
  | x :: xs' => Ok (max_from x xs')
  end.

(** [predict(complaint_text)] *)
Definition predict (self : ComplaintClassifier) (complaint_text : string)
  : Result (string * Q) :=
  match pipeline self with
  | None => Raise (ValueError "Model not trained or loaded")
  | Some pl =>
      let processed_text := preprocess_text complaint_text in
      let category := Sklearn.predict pl processed_text in
      let probabilities := Sklearn.predict_proba pl processed_text in
      match py_max probabilities with
      | Ok confidence => Ok (category, confidence)
      | Raise e => Raise e
      end
  end.

(** The labels built by [create_training_data]: fifteen per category. *)
Definition training_labels : list string :=
  (repeat "Water Supply" 15 ++ repeat "Road Maintenance" 15 ++
   repeat "Electricity" 15 ++ repeat "Sanitation" 15 ++ repeat "Other" 15)%list.

End Classifier.

(** ** database.py *)

Module Storage.

(** Rows of the tables created by [initialize_schema]. *)
Record CategoryRow : Type := {
  cat_category_id : Z;
  cat_name : string;
  cat_description : option string
}.

Record DepartmentRow : Type := {
  dept_department_id : Z;
  dept_name : string;
  dept_category_id : option Z;
  dept_email : option string
}.

Record ComplaintRow : Type := {
  complaint_id : Z;
  user_id : Z;
  title : string;
  description : string;
  location : option string;
  category_id : option Z;
  priority : option string;
  status : option string;
  created_at : Z;
  updated_at : Z
}.

Record AssignmentRow : Type := {
  asg_assignment_id : Z;
  asg_complaint_id : Z;
  asg_department_id : Z;
  asg_assigned_at : Z
}.

(** The database file: its tables, and the AUTOINCREMENT counters
    ([sqlite_sequence]) of the two tables the service inserts into. *)
Record Database : Type := {
  tbl_categories : list CategoryRow;
  tbl_departments : list DepartmentRow;
  tbl_complaints : list ComplaintRow;
  tbl_assignments : list AssignmentRow;
  seq_complaints : Z;
  seq_assignments : Z
}.

(** What a call finds outside the database file: the value of
    [CURRENT_TIMESTAMP], and whether [sqlite3] fails (and with what). *)
Record Env : Type := {
  now : Z;
  fault : option exn
}.

(** The statements the service passes to [execute_query]. *)
Inductive Query : Type :=
| SelectCategoryId (name : string)
    (* SELECT category_id FROM categories WHERE name = ? *)
| SelectDepartmentId (category_id : Z)
    (* SELECT department_id FROM departments WHERE category_id = ? *).

(** The statements the service passes to [execute_update]. *)
Inductive Update : Type :=
| InsertComplaint (user_id : Z) (title description : string)
    (location : option string) (category_id : option Z) (priority : string)
    (* INSERT INTO complaints (user_id, title, description, location,
       category_id, priority, status) VALUES (?, ?, ?, ?, ?, ?, 'Submitted') *)
| InsertAssignment (complaint_id : option Z) (department_id : Z)
    (* INSERT INTO assignments (complaint_id, department_id) VALUES (?, ?) *)
| UpdateComplaintStatus (new_status : string) (complaint_id : Z)
    (* UPDATE complaints SET status = ?, updated_at = CURRENT_TIMESTAMP
       WHERE complaint_id = ? *).

(** After [initialize_schema] on a new file: every table empty. *)
Definition empty_db : Database :=
  {| tbl_categories := []; tbl_departments := []; tbl_complaints := [];
     tbl_assignments := []; seq_complaints := 0; seq_assignments := 0 |}.

(** After [seed_data] on the empty schema. *)
Definition seeded_db : Database :=
  {| tbl_categories :=
       [ {| cat_category_id := 1; cat_name := "Water Supply";
            cat_description := Some "Issues related to water supply, quality, and availability" |};
         {| cat_category_id := 2; cat_name := "Road Maintenance";
            cat_description := Some "Potholes, damaged roads, and street lighting" |};
         {| cat_category_id := 3; cat_name := "Electricity";
            cat_description := Some "Power cuts, voltage fluctuations, and electrical hazards" |};
         {| cat_category_id := 4; cat_name := "Sanitation";
            cat_description := Some "Garbage collection, drainage, and cleanliness" |};
         {| cat_category_id := 5; cat_name := "Other";
            cat_description := Some "Miscellaneous issues not covered in other categories" |} ];
     tbl_departments :=
       [ {| dept_department_id := 1; dept_name := "Water Department";
            dept_category_id := Some 1%Z; dept_email := Some "water@example.com" |};
         {| dept_department_id := 2; dept_name := "Public Works Department";
            dept_category_id := Some 2%Z; dept_email := Some "pwd@example.com" |};
         {| dept_department_id := 3; dept_name := "Electricity Board";
            dept_category_id := Some 3%Z; dept_email := Some "electricity@example.com" |};
         {| dept_department_id := 4; dept_name := "Sanitation Department";
            dept_category_id := Some 4%Z; dept_email := Some "sanitation@example.com" |};
         {| dept_department_id := 5; dept_name := "General Administration";
            dept_category_id := Some 5%Z; dept_email := Some "admin@example.com" |} ];
     tbl_complaints := [];
     tbl_assignments := [];
     seq_complaints := 0;
     seq_assignments := 0 |}.

Definition option_Z_eqb (a : option Z) (b : Z) : bool :=
  match a with
  | Some x => (x =? b)%Z
  | None => false
  end.

(** [execute_query(query, params)]: the selected column of the matching
    rows, in table order. *)
Definition execute_query (env : Env) (db : Database) (q : Query) : Result (list Z) :=
  match fault env with
  | Some e => Raise e
  | None =>
      match q with
      | SelectCategoryId name =>
          Ok (map cat_category_id
                (filter (fun r => String.eqb (cat_name r) name) (tbl_categories db)))
      | SelectDepartmentId cid =>
          Ok (map dept_department_id
                (filter (fun r => option_Z_eqb (dept_category_id r) cid)
                   (tbl_departments db)))
      end
  end.

(** The greatest row identifier of a table column (0 for an empty table). *)
Definition max_id {R : Type} (key : R -> Z) (rows : list R) : Z :=
  fold_right (fun r m => Z.max (key r) m) 0%Z rows.

(** The [SET] clause of the status update applied to one row. *)
Definition set_status (env : Env) (new_status : string) (r : ComplaintRow) : ComplaintRow :=
  {| complaint_id := complaint_id r;
     user_id := user_id r;
     title := title r;
     description := description r;
     location := location r;
     category_id := category_id r;
     priority := priority r;
     status := Some new_status;
     created_at := created_at r;
     updated_at := now env |}.

(** [execute_update(query, params)]: the database after the committed
    statement, and [cursor.lastrowid] ([None] unless a row was inserted). *)
Definition execute_update (env : Env) (db : Database) (u : Update)
  : Result (Database * option Z) :=
  match fault env with
  | Some e => Raise e
  | None =>
      match u with
      | InsertComplaint uid ttl descr loc cid prio =>
          let rowid := (Z.max (seq_complaints db) (max_id complaint_id (tbl_complaints db)) + 1)%Z in
          let row :=
            {| complaint_id := rowid; user_id := uid; title := ttl;
               description := descr; location := loc; category_id := cid;
               priority := Some prio; status := Some "Submitted";
               created_at := now env; updated_at := now env |} in
          Ok ({| tbl_categories := tbl_categories db;
                 tbl_departments := tbl_departments db;
                 tbl_complaints := (tbl_complaints db ++ [row])%list;
                 tbl_assignments := tbl_assignments db;
                 seq_complaints := rowid;
                 seq_assignments := seq_assignments db |}, Some rowid)
      | InsertAssignment None _ =>
          Raise (IntegrityError "NOT NULL constraint failed: assignments.complaint_id")
      | InsertAssignment (Some cid) did =>
          let rowid := (Z.max (seq_assignments db) (max_id asg_assignment_id (tbl_assignments db)) + 1)%Z in
          let row :=
            {| asg_assignment_id := rowid; asg_complaint_id := cid;
               asg_department_id := did; asg_assigned_at := now env |} in
          Ok ({| tbl_categories := tbl_categories db;
                 tbl_departments := tbl_departments db;
                 tbl_complaints := tbl_complaints db;
                 tbl_assignments := (tbl_assignments db ++ [row])%list;
                 seq_complaints := seq_complaints db;
                 seq_assignments := rowid |}, Some rowid)
      | UpdateComplaintStatus new_status cid =>
          Ok ({| tbl_categories := tbl_categories db;
                 tbl_departments := tbl_departments db;
                 tbl_complaints :=
                   map (fun r => if (complaint_id r =? cid)%Z
                                 then set_status env new_status r else r)
                     (tbl_complaints db);
                 tbl_assignments := tbl_assignments db;
                 seq_complaints := seq_complaints db;
                 seq_assignments := seq_assignments db |}, None)
      end
  end.

End Storage.

(** ** complaint_service.py *)

Module Service.
Import Classifier Storage.

(** A service call reads the environment, updates the database file and
    returns a value or raises.  Statements already committed stay
    committed when a later one raises. *)
Definition Svc (A : Type) : Type := Env -> Database -> Result A * Database.

Definition ret {A} (a : A) : Svc A := fun _ db => (Ok a, db).

Definition bind {A B} (m : Svc A) (k : A -> Svc B) : Svc B :=
  fun env db =>
    match m env db with
    | (Ok a, db') => k a env db'
    | (Raise e, db') => (Raise e, db')
    end.

Notation "x <- m ;; k" := (bind m (fun x => k))
  (at level 61, m at next level, right associativity).
Notation "m ;;; k" := (bind m (fun _ => k))
  (at level 61, right associativity).

(** A computation that touches no storage. *)
Definition lift {A} (r : Result A) : Svc A := fun _ db => (r, db).

(** [self.db.execute_query(...)] *)
Definition query (q : Query) : Svc (list Z) :=
  fun env db => (execute_query env db q, db).

(** [self.db.execute_update(...)] *)
Definition update (u : Update) : Svc (option Z) :=
  fun env db =>
    match execute_update env db u with
    | Ok (db', lastrowid) => (Ok lastrowid, db')
    | Raise e => (Raise e, db)
    end.

(** [try: body except Exception: handler] *)
Definition try_except {A} (body : Svc A) (handler : exn -> Svc A) : Svc A :=
  fun env db =>
    match body env db with
    | (Ok a, db') => (Ok a, db')
    | (Raise e, db') => handler e env db'
    end.

(** The attributes of a [ComplaintService] instance; the database it
    names is the [Database] threaded through [Svc]. *)
Record ComplaintService : Type := {
  classifier : ComplaintClassifier
}.

(** The dictionary returned by [submit_complaint]. *)
Record Submission : Type := {
  sub_complaint_id : option Z;
  sub_category : string;
  sub_priority : string;
  sub_confidence : Q;
  sub_status : string
}.

(** Truthiness of [category_id] in [if category_id:]. *)
Definition truthy (category_id : option Z) : bool :=
  match category_id with
  | None => false
  | Some z => negb (z =? 0)%Z
  end.

(** [submit_complaint(user_id, title, description, location)] *)
Definition submit_complaint (self : ComplaintService)
  (user_id : Z) (title description : string) (location : option string)
  : Svc Submission :=
  r <- lift (predict (classifier self) description) ;;
  let category_name := fst r in
  let confidence := snd r in
  let priority := predict_priority description category_name in
  categories <- query (SelectCategoryId category_name) ;;
  let category_id :=
    match categories with
    | [] => None
    | c :: _ => Some c
    end in
  complaint_id <-
    update (InsertComplaint user_id title description location category_id priority) ;;
  (if truthy category_id then
     departments <-
       query (SelectDepartmentId (match category_id with Some c => c | None => 0%Z end)) ;;
     match departments with
     | [] => ret tt
     | dept_id :: _ => update (InsertAssignment complaint_id dept_id) ;;; ret tt
     end
   else ret tt) ;;;
  ret {| sub_complaint_id := complaint_id;
         sub_category := category_name;
         sub_priority := priority;
         sub_confidence := confidence;
         sub_status := "Submitted" |}.

(** [update_complaint_status(complaint_id, new_status)] *)
Definition update_complaint_status (self : ComplaintService)
  (complaint_id : Z) (new_status : string) : Svc bool :=
  try_except
    (update (UpdateComplaintStatus new_status complaint_id) ;;; ret true)
    (fun _ => ret false).

(** The calls an outside caller can make on a service, and the database
    they leave behind. *)
Inductive Call : Type :=
| Submit (user_id : Z) (title description : string) (location : option string)
| SetStatus (complaint_id : Z) (new_status : string).

Definition run_call (self : ComplaintService) (env : Env) (c : Call) (db : Database)
  : Database :=
  match c with
  | Submit u t d l => snd (submit_complaint self u t d l env db)
  | SetStatus i s => snd (update_complaint_status self i s env db)
  end.

Fixpoint run_calls (self : ComplaintService) (cs : list (Env * Call)) (db : Database)
  : Database :=
  match cs with
  | [] => db
  | (env, c) :: cs' => run_calls self cs' (run_call self env c db)
  end.

(** The row of the complaint with a given identifier, if any. *)
Definition find_complaint (db : Database) (id : Z) : option ComplaintRow :=
  find (fun r => (complaint_id r =? id)%Z) (tbl_complaints db).

End Service.

(** ** The specification's vocabulary *)

Module Spec.
Import PyStr.

(** Lifecycle states, as the code spells them. *)
Definition lifecycle_states : list string :=
  ["Submitted"; "In Progress"; "Resolved"; "Rejected"].

(** Priority levels. *)
Definition priority_levels : list string := ["High"; "Medium"; "Low"].

(** Collapse every maximal run of whitespace to one space. *)
Fixpoint collapse_whitespace (s : string) : string :=
  match s with
  | EmptyString => EmptyString
  | String c s' =>
      if isspace c then
        match s' with
        | EmptyString => " "
        | String d _ =>
            if isspace d then collapse_whitespace s'
            else String " " (collapse_whitespace s')
        end
      else String c (collapse_whitespace s')
  end.

(** Normalisation as the specification words it: lowercase, delete what is
    neither an ASCII letter nor whitespace, collapse whitespace runs, trim. *)
Definition normalize (text : string) : string :=
  strip
    (collapse_whitespace
       (filter_str (fun c => is_ascii_letter c || isspace c) (lower text))).

(** Characters that normalisation leaves alone. *)
Definition settled (c : ascii) : bool :=
  Ascii.eqb (lower_char c) c && Classifier.keep_char c.

(** A symbol-only text: lowercasing leaves no ASCII letter in it.  Digits,
    punctuation, symbols and whitespace have no case, so every text made
    of them, the empty text included, is symbol-only; a cased character
    whose lowercase form holds an ASCII letter is not. *)
Definition symbol_only (text : string) : bool :=
  forallb_str (fun c => negb (is_ascii_letter c)) (lower text).

(** Some keyword of the list occurs in the text. *)
Definition mentions (keywords : list string) (text : string) : Prop :=
  exists k, In k keywords /\ Substring k text.

(** Position-wise maximum of a list of scores. *)
Definition is_max (xs : list Q) (m : Q) : Prop :=
  (exists i, (i < length xs)%nat /\ nth i xs 0%Q == m)%Q /\
  Forall (fun x => x <= m)%Q xs.

(** The probability a pipeline gives to a label at an input (0 when the
    label is not one of its classes). *)
Fixpoint lookup_proba (classes : list string) (ps : list Q) (label : string) : Q :=
  match classes, ps with
  | c :: classes', p :: ps' =>
      if String.eqb c label then p else lookup_proba classes' ps' label
  | _, _ => 0
  end.

(** The tie-break the specification describes: the first category, in the
    order of the fixed category list, whose posterior equals the maximum. *)
Definition earliest_maximal (categories classes : list string) (ps : list Q) (m : Q)
  : option string :=
  find (fun c => Qeq_bool (lookup_proba classes ps c) m) categories.

End Spec.

(** ** Stated properties and sample objects *)

Module Claims.
Import PyStr Classifier Storage Service Spec.

(** A pipeline that scores all five classes alike at every input, as the
    model fitted by [train] does on a text with no known term: the
    stratified split leaves twelve examples per class, so the class priors
    are equal.  Its classes are those of the training labels. *)
Definition balanced_pipeline : Sklearn.Pipeline :=
  {| Sklearn.classes_ := Sklearn.np_unique training_labels;
     Sklearn.joint_log_likelihood := fun _ => repeat (- (8 # 5))%Q 5;
     Sklearn.proba := fun _ => repeat (1 # 5)%Q 5 |}.

(** A pipeline loaded from a model file fitted on another label set. *)
Definition foreign_pipeline : Sklearn.Pipeline :=
  {| Sklearn.classes_ := ["Noise"];
     Sklearn.joint_log_likelihood := fun _ => [0%Q];
     Sklearn.proba := fun _ => [1%Q] |}.

Definition service_with (p : Sklearn.Pipeline) : ComplaintService :=
  {| classifier := with_pipeline (init None) p |}.

Definition at_time (t : Z) : Env := {| now := t; fault := None |}.

(** Tie-break by category order: whenever two distinct categories both
    attain the posterior that [predict] reports, the category returned is
    the first one of [self.categories] attaining it. *)
Definition ties_resolve_by_category_order : Prop :=
  forall (self : ComplaintClassifier) (pl : Sklearn.Pipeline)
         (text category : string) (confidence : Q),
    pipeline self = Some pl ->
    Sklearn.fitted_at pl (preprocess_text text) ->
    predict self text = Ok (category, confidence) ->
    (exists c1 c2, In c1 (categories self) /\ In c2 (categories self) /\ c1 <> c2 /\
       (lookup_proba (Sklearn.classes_ pl) (Sklearn.proba pl (preprocess_text text)) c1
          == confidence)%Q /\
       (lookup_proba (Sklearn.classes_ pl) (Sklearn.proba pl (preprocess_text text)) c2
          == confidence)%Q) ->
    earliest_maximal (categories self) (Sklearn.classes_ pl)
      (Sklearn.proba pl (preprocess_text text)) confidence = Some category.

(** The identifier under which a category name is configured, if any. *)
Definition resolved_category (db : Database) (name : string) : option Z :=
  hd_error (map cat_category_id
              (filter (fun r => String.eqb (cat_name r) name) (tbl_categories db))).

(** The identifier of the category named ['Other'], if configured. *)
Definition other_category_id (db : Database) : option Z :=
  hd_error (map cat_category_id
              (filter (fun r => String.eqb (cat_name r) "Other") (tbl_categories db))).

(** Every completed submission stores a row with a category and a
    priority, the category being ['Other'] when the predicted one is not
    configured. *)
Definition stored_category_never_null : Prop :=
  forall (self : ComplaintService) (env : Env) (db db' : Database)
         (user_id : Z) (title description : string) (location : option string)
         (sub : Submission),
    submit_complaint self user_id title description location env db = (Ok sub, db') ->
    exists id row,
      sub_complaint_id sub = Some id /\
      find_complaint db' id = Some row /\
      category_id row <> None /\
      priority row <> None /\
      (execute_query env db (SelectCategoryId (sub_category sub)) = Ok [] ->
       category_id row = other_category_id db).

(** Every complaint of the database has one of the lifecycle states. *)
Definition statuses_closed (db : Database) : Prop :=
  Forall (fun r => exists s, status r = Some s /\ In s lifecycle_states)
    (tbl_complaints db).

(** The lifecycle states are closed under every sequence of calls made on
    the seeded database. *)
Definition status_always_in_lifecycle : Prop :=
  forall (self : ComplaintService) (calls : list (Env * Call)),
    statuses_closed (run_calls self calls seeded_db).

(** The calls of a sequence that set a status set a lifecycle state. *)
Definition sets_lifecycle_states (calls : list (Env * Call)) : Prop :=
  Forall (fun ec =>
            match snd ec with
            | SetStatus _ s => In s lifecycle_states
            | Submit _ _ _ _ => True
            end) calls.

(** Two rows that differ at most in status and last-update time. *)
Definition same_but_status (r r' : ComplaintRow) : Prop :=
  complaint_id r' = complaint_id r /\
  user_id r' = user_id r /\
  title r' = title r /\
  description r' = description r /\
  location r' = location r /\
  category_id r' = category_id r /\
  priority r' = priority r /\
  created_at r' = created_at r.

End Claims.

(** ** Model files: [load_model], [train] and the service constructor *)

Module Persistence.
Import PyStr Classifier Service.

(** What is found at a path: a pickle (of a pipeline, or of [None]), a
    directory, an empty file, or a file whose bytes do not unpickle, with
    the message [pickle.load] gives.  Pickles of other objects are not
    represented. *)
Inductive Content : Type :=
| Pickled (obj : option Sklearn.Pipeline)
| Directory
| Empty
| Junk (msg : string).

(** How a save that cannot complete fails: [open(path, 'wb')] raises and
    nothing is touched, or [open] has emptied the file and [pickle.dump]
    raises, leaving it empty or partly written. *)
Inductive SaveFailure : Type :=
| OpenRaises (e : exn)
| DumpRaises (e : exn) (partly_written : bool).

(** The part of the file system the classifier touches: what is at each
    path, whether a file can be created there and written in full (its
    directory exists, it may be written, there is room), and how the save
    fails when it cannot. *)
Record FileSystem : Type := {
  file : string -> option Content;
  dir_exists : string -> bool;
  save_failure : string -> SaveFailure
}.

(** [os.path.exists(path)]; the empty path never exists. *)
Definition path_exists (fs : FileSystem) (path : string) : bool :=
  negb (is_empty path) &&
  match file fs path with
  | Some _ => true
  | None => false
  end.

(** The file system with other content at one path. *)
Definition write_file (fs : FileSystem) (path : string) (c : Content) : FileSystem :=
  {| file := fun q => if String.eqb q path then Some c else file fs q;
     dir_exists := dir_exists fs;
     save_failure := save_failure fs |}.

(** Truthiness of [self.model_path]: neither [None] nor the empty string. *)
Definition usable_path (model_path : option string) : option string :=
  match model_path with
  | Some path => if is_empty path then None else Some path
  | None => None
  end.

(** [self.pipeline = obj] *)
Definition set_pipeline (self : ComplaintClassifier) (obj : option Sklearn.Pipeline)
  : ComplaintClassifier :=
  {| model_path := model_path self;
     pipeline := obj;
     categories := categories self |}.

(** [load_model()]: the classifier after the call, or the exception of
    the guard, of [open(path, 'rb')] or of [pickle.load]. *)
Definition load_model (self : ComplaintClassifier) (fs : FileSystem)
  : Result ComplaintClassifier :=
  match usable_path (model_path self) with
  | Some path =>
      match file fs path with
      | Some (Pickled obj) => Ok (set_pipeline self obj)
      | Some Directory => Raise (IsADirectoryError "Is a directory")
      | Some Empty => Raise (EOFError "Ran out of input")
      | Some (Junk msg) => Raise (UnpicklingError msg)
      | None =>
          Raise (FileNotFoundError "Model file not found. Please train the model first.")
      end
  | None => Raise (FileNotFoundError "Model file not found. Please train the model first.")
  end.

(** What a save that [pickle.dump] did not finish leaves at the path. *)
Definition unfinished (partly_written : bool) : Content :=
  if partly_written then Junk "pickle data was truncated" else Empty.

(** [train(save_model)].  The split, the fit and the metrics are
    scikit-learn's; [fitted] is the pipeline that [self.pipeline.fit]
    leaves in [self.pipeline].  The classifier keeps it even when saving
    raises; the file is opened only when [save_model] holds and
    [self.model_path] is truthy. *)
Definition train (self : ComplaintClassifier) (fitted : Sklearn.Pipeline)
  (save_model : bool) (fs : FileSystem)
  : Result unit * ComplaintClassifier * FileSystem :=
  let self' := with_pipeline self fitted in
  match (if save_model then usable_path (model_path self) else None) with
  | Some path =>
      if dir_exists fs path
      then (Ok tt, self', write_file fs path (Pickled (Some fitted)))
      else
        match save_failure fs path with
        | OpenRaises e => (Raise e, self', fs)
        | DumpRaises e partly_written =>
            (Raise e, self', write_file fs path (unfinished partly_written))
        end
  | None => (Ok tt, self', fs)
  end.

(** [ComplaintService.__init__(db_path, model_path)]: load the model when
    its file exists, train and save one otherwise. *)
Definition service_init (model_path : string) (fitted : Sklearn.Pipeline)
  (fs : FileSystem) : Result ComplaintService * FileSystem :=
  let classifier0 := init (Some model_path) in
  if path_exists fs model_path then
    match load_model classifier0 fs with
    | Ok c => (Ok {| classifier := c |}, fs)
    | Raise e => (Raise e, fs)
    end
  else
    match train classifier0 fitted true fs with
    | (Ok _, c, fs') => (Ok {| classifier := c |}, fs')
    | (Raise e, _, fs') => (Raise e, fs')
    end.

(** A file system with nothing in it, on which every save succeeds. *)
Definition blank_fs : FileSystem :=
  {| file := fun _ => None;
     dir_exists := fun _ => true;
     save_failure := fun _ => OpenRaises (FileNotFoundError "No such file or directory") |}.

(** A file system holding one thing at one path, on which every save is
    cut short by a full disk after the file was emptied. *)
Definition full_disk_fs (path : string) (c : Content) : FileSystem :=
  {| file := fun q => if String.eqb q path then Some c else None;
     dir_exists := fun _ => false;
     save_failure := fun _ => DumpRaises (OSError "No space left on device") false |}.

End Persistence.

(** ** The [users] table and [register_user] *)

Module Accounts.
Import Storage Service.

Record UserRow : Type := {
  usr_user_id : Z;
  usr_name : string;
  usr_email : string;
  usr_password_hash : string;
  usr_role : option string;
  usr_created_at : Z
}.

(** The database file with its [users] table. *)
Record Store : Type := {
  core : Database;
  tbl_users : list UserRow;
  seq_users : Z
}.

(** [execute_update] on
    [INSERT INTO users (name, email, password_hash, role) VALUES (?, ?, ?, ?)]:
    [email] is UNIQUE. *)
Definition insert_user (env : Env) (st : Store)
  (name email password_hash role : string) : Result (Store * Z) :=
  match fault env with
  | Some e => Raise e
  | None =>
      if existsb (fun r => String.eqb (usr_email r) email) (tbl_users st)
      then Raise (IntegrityError "UNIQUE constraint failed: users.email")
      else
        let rowid := (Z.max (seq_users st) (max_id usr_user_id (tbl_users st)) + 1)%Z in
        Ok ({| core := core st;
               tbl_users :=
                 (tbl_users st ++
                  [ {| usr_user_id := rowid; usr_name := name; usr_email := email;
                       usr_password_hash := password_hash; usr_role := Some role;
                       usr_created_at := now env |} ])%list;
               seq_users := rowid |}, rowid)
  end.

(** [register_user(name, email, password, role)]; [sha256] stands for
    [hashlib.sha256(password.encode()).hexdigest()].  The result is the new
    user's identifier, or -1 when the insertion raised. *)
Definition register_user (sha256 : string -> string) (env : Env) (st : Store)
  (name email password role : string) : Z * Store :=
  let password_hash := sha256 password in
  match insert_user env st name email password_hash role with
  | Ok (st', user_id) => (user_id, st')
  | Raise _ => ((-1)%Z, st)
  end.

(** Some user has the e-mail address. *)
Definition registered (st : Store) (email : string) : bool :=
  existsb (fun r => String.eqb (usr_email r) email) (tbl_users st).

(** The default of the [role] parameter. *)
Definition default_role : string := "citizen".

(** The seeded database with two registered users. *)
Definition two_users : Store :=
  {| core := seeded_db;
     tbl_users :=
       [ {| usr_user_id := 1; usr_name := "John Doe"; usr_email := "john@example.com";
            usr_password_hash := "x"; usr_role := Some "citizen"; usr_created_at := 1 |};
         {| usr_user_id := 2; usr_name := "Jane Smith"; usr_email := "jane@example.com";
            usr_password_hash := "y"; usr_role := Some "citizen"; usr_created_at := 2 |} ];
     seq_users := 2 |}.

End Accounts.

(** ** The reading queries of complaint_service.py *)

Module Reports.
Import Storage Service Accounts.

(** [left LEFT JOIN right ON on]: every left row with each right row it
    matches, or with NULL when it matches none; rows in table order. *)
Definition left_join {A B : Type} (on : A -> B -> bool)
  (left : list A) (right : list B) : list (A * option B) :=
  flat_map
    (fun a =>
       match filter (on a) right with
       | [] => [(a, None)]
       | b :: bs => map (fun b' => (a, Some b')) (b :: bs)
       end)
    left.

(** [c.category_id = cat.category_id] *)
Definition on_category (c : ComplaintRow) (cat : CategoryRow) : bool :=
  option_Z_eqb (category_id c) (cat_category_id cat).

(** [c.user_id = u.user_id] *)
Definition on_user (j : ComplaintRow * option CategoryRow) (u : UserRow) : bool :=
  (user_id (fst j) =? usr_user_id u)%Z.

(** [c.complaint_id = a.complaint_id] *)
Definition on_assignment
  (j : ComplaintRow * option CategoryRow * option UserRow) (a : AssignmentRow) : bool :=
  (complaint_id (fst (fst j)) =? asg_complaint_id a)%Z.

(** [complaints c LEFT JOIN categories cat ON ... LEFT JOIN users u ON ...] *)
Definition complaints_joined (st : Store)
  : list (ComplaintRow * option CategoryRow * option UserRow) :=
  left_join on_user
    (left_join on_category (tbl_complaints (core st)) (tbl_categories (core st)))
    (tbl_users st).

(** A result row of [get_complaint_details]. *)
Record Details : Type := {
  det_complaint_id : Z;
  det_title : string;
  det_description : string;
  det_location : option string;
  det_category : option string;
  det_priority : option string;
  det_status : option string;
  det_created_at : Z;
  det_updated_at : Z;
  det_user_name : option string;
  det_user_email : option string
}.

Definition details_of (j : ComplaintRow * option CategoryRow * option UserRow) : Details :=
  let c := fst (fst j) in
  {| det_complaint_id := complaint_id c;
     det_title := title c;
     det_description := description c;
     det_location := location c;
     det_category := option_map cat_name (snd (fst j));
     det_priority := priority c;
     det_status := status c;
     det_created_at := created_at c;
     det_updated_at := updated_at c;
     det_user_name := option_map usr_name (snd j);
     det_user_email := option_map usr_email (snd j) |}.

(** [get_complaint_details(complaint_id)]: [results[0] if results else None]. *)
Definition get_complaint_details (env : Env) (st : Store) (id : Z)
  : Result (option Details) :=
  match fault env with
  | Some e => Raise e
  | None =>
      Ok (hd_error
            (map details_of
               (filter (fun j => (complaint_id (fst (fst j)) =? id)%Z)
                  (complaints_joined st))))
  end.

(** [ORDER BY]: a stable insertion sort by the comparison [leb]. *)
Fixpoint insert_by {A : Type} (leb : A -> A -> bool) (x : A) (xs : list A) : list A :=
  match xs with
  | [] => [x]
  | y :: ys => if leb x y then x :: xs else y :: insert_by leb x ys
  end.

Definition order_by {A : Type} (leb : A -> A -> bool) (xs : list A) : list A :=
  fold_right (insert_by leb) [] xs.

(** [CASE c.priority WHEN 'High' THEN 1 WHEN 'Medium' THEN 2 WHEN 'Low' THEN 3 END];
    NULL for any other priority. *)
Definition priority_rank (p : option string) : option Z :=
  match p with
  | Some s =>
      if String.eqb s "High" then Some 1%Z
      else if String.eqb s "Medium" then Some 2%Z
      else if String.eqb s "Low" then Some 3%Z
      else None
  | None => None
  end.

(** Ascending order of the rank, NULL before every number. *)
Definition rank_ltb (a b : option Z) : bool :=
  match a, b with
  | None, None => false
  | None, Some _ => true
  | Some _, None => false
  | Some x, Some y => (x <? y)%Z
  end.

Definition rank_eqb (a b : option Z) : bool :=
  match a, b with
  | None, None => true
  | Some x, Some y => (x =? y)%Z
  | _, _ => false
  end.

(** [ORDER BY CASE c.priority ... END, c.created_at DESC] *)
Definition queue_leb (c1 c2 : ComplaintRow) : bool :=
  rank_ltb (priority_rank (priority c1)) (priority_rank (priority c2)) ||
  (rank_eqb (priority_rank (priority c1)) (priority_rank (priority c2)) &&
   (created_at c2 <=? created_at c1)%Z).

(** A result row of [get_complaints_by_department]. *)
Record QueueRow : Type := {
  q_complaint_id : Z;
  q_title : string;
  q_description : string;
  q_location : option string;
  q_category : option string;
  q_priority : option string;
  q_status : option string;
  q_created_at : Z;
  q_user_name : option string;
  q_user_email : option string
}.

Definition queue_row_of (j : ComplaintRow * option CategoryRow * option UserRow) : QueueRow :=
  let c := fst (fst j) in
  {| q_complaint_id := complaint_id c;
     q_title := title c;
     q_description := description c;
     q_location := location c;
     q_category := option_map cat_name (snd (fst j));
     q_priority := priority c;
     q_status := status c;
     q_created_at := created_at c;
     q_user_name := option_map usr_name (snd j);
     q_user_email := option_map usr_email (snd j) |}.

(** [get_complaints_by_department(department_id)]: the joined rows whose
    assignment is to the department, ordered by priority and then by
    creation time, latest first. *)
Definition get_complaints_by_department (env : Env) (st : Store) (department_id : Z)
  : Result (list QueueRow) :=
  match fault env with
  | Some e => Raise e
  | None =>
      Ok (map (fun ja => queue_row_of (fst ja))
            (order_by (fun ja1 ja2 => queue_leb (fst (fst (fst ja1))) (fst (fst (fst ja2))))
               (filter
                  (fun ja =>
                     match snd ja with
                     | Some a => (asg_department_id a =? department_id)%Z
                     | None => false
                     end)
                  (left_join on_assignment (complaints_joined st)
                     (tbl_assignments (core st))))))
  end.

(** [GROUP BY key] with [COUNT]: one row per distinct key with the number
    of rows holding it.  The statement does not fix the order of the
    groups; they are listed by first occurrence. *)
Fixpoint tally {K : Type} (eqb : K -> K -> bool) (k : K) (groups : list (K * Z))
  : list (K * Z) :=
  match groups with
  | [] => [(k, 1%Z)]
  | (k', n) :: groups' =>
      if eqb k' k then (k', (n + 1)%Z) :: groups'
      else (k', n) :: tally eqb k groups'
  end.

Definition group_count {K : Type} (eqb : K -> K -> bool) (keys : list K) : list (K * Z) :=
  fold_left (fun groups k => tally eqb k groups) keys [].

Definition option_string_eqb (a b : option string) : bool :=
  match a, b with
  | None, None => true
  | Some x, Some y => String.eqb x y
  | _, _ => false
  end.

(** The dictionary returned by [get_statistics]. *)
Record Statistics : Type := {
  total_complaints : Z;
  by_status : list (option string * Z);
  by_category : list (option string * Z);
  by_priority : list (option string * Z)
}.

(** [get_statistics()] *)
Definition get_statistics (env : Env) (st : Store) : Result Statistics :=
  match fault env with
  | Some e => Raise e
  | None =>
      Ok {| total_complaints := Z.of_nat (length (tbl_complaints (core st)));
            by_status :=
              group_count option_string_eqb (map status (tbl_complaints (core st)));
            by_category :=
              group_count option_string_eqb
                (map (fun j => option_map cat_name (snd j))
                   (left_join on_category (tbl_complaints (core st))
                      (tbl_categories (core st))));
            by_priority :=
              group_count option_string_eqb (map priority (tbl_complaints (core st))) |}
  end.

(** Sum of the counts of a grouped result. *)
Definition sum_counts {K : Type} (groups : list (K * Z)) : Z :=
  fold_right (fun g acc => (snd g + acc)%Z) 0%Z groups.

End Reports.

(** ** [seed_data] *)

Module Seeding.
Import Storage.

(** The database with the AUTOINCREMENT counters of the two tables that
    [seed_data] fills. *)
Record Schema : Type := {
  sch_db : Database;
  seq_categories : Z;
  seq_departments : Z
}.

(** After [initialize_schema] on a new file. *)
Definition initial_schema : Schema :=
  {| sch_db := empty_db; seq_categories := 0; seq_departments := 0 |}.

Definition seed_categories : list (string * string) :=
  [ ("Water Supply", "Issues related to water supply, quality, and availability");
    ("Road Maintenance", "Potholes, damaged roads, and street lighting");
    ("Electricity", "Power cuts, voltage fluctuations, and electrical hazards");
    ("Sanitation", "Garbage collection, drainage, and cleanliness");
    ("Other", "Miscellaneous issues not covered in other categories") ].

Definition seed_departments : list (string * Z * string) :=
  [ ("Water Department", 1%Z, "water@example.com");
    ("Public Works Department", 2%Z, "pwd@example.com");
    ("Electricity Board", 3%Z, "electricity@example.com");
    ("Sanitation Department", 4%Z, "sanitation@example.com");
    ("General Administration", 5%Z, "admin@example.com") ].

(** [INSERT INTO categories (name, description) VALUES (?, ?)]; [name] is
    UNIQUE. *)
Definition insert_category (s : Schema) (cat : string * string) : Result Schema :=
  let db := sch_db s in
  if existsb (fun r => String.eqb (cat_name r) (fst cat)) (tbl_categories db)
  then Raise (IntegrityError "UNIQUE constraint failed: categories.name")
  else
    let rowid := (Z.max (seq_categories s) (max_id cat_category_id (tbl_categories db)) + 1)%Z in
    Ok {| sch_db :=
            {| tbl_categories :=
                 (tbl_categories db ++
                  [ {| cat_category_id := rowid; cat_name := fst cat;
                       cat_description := Some (snd cat) |} ])%list;
               tbl_departments := tbl_departments db;
               tbl_complaints := tbl_complaints db;
               tbl_assignments := tbl_assignments db;
               seq_complaints := seq_complaints db;
               seq_assignments := seq_assignments db |};
          seq_categories := rowid;
          seq_departments := seq_departments s |}.

(** [INSERT INTO departments (name, category_id, email) VALUES (?, ?, ?)];
    no column of [departments] is UNIQUE and foreign keys are not enforced,
    so the insertion does not raise. *)
Definition insert_department (s : Schema) (dept : string * Z * string) : Schema :=
  let db := sch_db s in
  let rowid := (Z.max (seq_departments s) (max_id dept_department_id (tbl_departments db)) + 1)%Z in
  {| sch_db :=
       {| tbl_categories := tbl_categories db;
          tbl_departments :=
            (tbl_departments db ++
             [ {| dept_department_id := rowid; dept_name := fst (fst dept);
                  dept_category_id := Some (snd (fst dept));
                  dept_email := Some (snd dept) |} ])%list;
          tbl_complaints := tbl_complaints db;
          tbl_assignments := tbl_assignments db;
          seq_complaints := seq_complaints db;
          seq_assignments := seq_assignments db |};
     seq_categories := seq_categories s;
     seq_departments := rowid |}.

(** A category of the name is configured. *)
Definition has_category (db : Database) (name : string) : bool :=
  existsb (fun r => String.eqb (cat_name r) name) (tbl_categories db).

(** The columns [seed_data] gives to a department. *)
Definition department_columns (r : DepartmentRow) : string * option Z * option string :=
  (dept_name r, dept_category_id r, dept_email r).

(** [try: insert except sqlite3.IntegrityError: pass] for one category. *)
Definition try_insert_category (s : Schema) (cat : string * string) : Schema :=
  match insert_category s cat with
  | Ok s' => s'
  | Raise _ => s
  end.

(** [seed_data()] *)
Definition seed_data (env : Env) (s : Schema) : Result Schema :=
  match fault env with
  | Some e => Raise e
  | None =>
      let s1 := fold_left try_insert_category seed_categories s in
      Ok (fold_left insert_department seed_departments s1)
  end.

End Seeding.

(** ** Vocabulary for the properties of submission, routing and reading *)

Module Routing.
Import Storage Service Accounts Reports.

(** The identifier AUTOINCREMENT gives to the next complaint. *)
Definition next_complaint_id (db : Database) : Z :=
  (Z.max (seq_complaints db) (max_id complaint_id (tbl_complaints db)) + 1)%Z.

(** The identifier AUTOINCREMENT gives to the next assignment. *)
Definition next_assignment_id (db : Database) : Z :=
  (Z.max (seq_assignments db) (max_id asg_assignment_id (tbl_assignments db)) + 1)%Z.

(** The department a category name is routed to: the first department of
    the category the name is configured under, when that category has a
    non-zero identifier. *)
Definition routed_department (db : Database) (name : string) : option Z :=
  match Claims.resolved_category db name with
  | Some cid =>
      if (cid =? 0)%Z then None
      else hd_error (map dept_department_id
                       (filter (fun r => option_Z_eqb (dept_category_id r) cid)
                          (tbl_departments db)))
  | None => None
  end.

(** The identifiers of the complaints, in table order. *)
Definition complaint_ids (db : Database) : list Z :=
  map complaint_id (tbl_complaints db).

(** A store with another state of the complaint database. *)
Definition with_core (st : Store) (db : Database) : Store :=
  {| core := db; tbl_users := tbl_users st; seq_users := seq_users st |}.

(** A result row with another status and last-update time. *)
Definition restatus (env : Env) (new_status : string) (d : Details) : Details :=
  {| det_complaint_id := det_complaint_id d;
     det_title := det_title d;
     det_description := det_description d;
     det_location := det_location d;
     det_category := det_category d;
     det_priority := det_priority d;
     det_status := Some new_status;
     det_created_at := det_created_at d;
     det_updated_at := now env;
     det_user_name := det_user_name d;
     det_user_email := det_user_email d |}.

(** The first user with an identifier. *)
Definition find_user (st : Store) (user_id : Z) : option UserRow :=
  find (fun u => (user_id =? usr_user_id u)%Z) (tbl_users st).

(** Ascending order of ranks, NULL first. *)
Definition rank_leb (a b : option Z) : bool := negb (rank_ltb b a).

(** The seeded database after two submissions, by users 1 and 2. *)
Definition two_complaints : Database :=
  run_calls (Claims.service_with Claims.balanced_pipeline)
    [ (Claims.at_time 1, Submit 1 "Pothole" "Large pothole on main road" None);
      (Claims.at_time 2, Submit 2 "Wire" "Exposed wire, urgent" (Some "Block A")) ]
    seeded_db.

End Routing.

(** * Properties *)

(** ** Facts about the string primitives *)

Module PyStrFacts.
Import PyStr.

Lemma append_empty_r (s : string) : s ++ "" = s.
Proof. induction s as [|c s IH]; simpl; [reflexivity | now rewrite IH]. Qed.

Lemma append_assoc (a b c : string) : (a ++ b) ++ c = a ++ (b ++ c).
Proof. induction a as [|x a IH]; simpl; [reflexivity | now rewrite IH]. Qed.

Lemma startswith_spec (p s : string) :
  startswith p s = true <-> exists post, s = p ++ post.
Proof.
  revert s; induction p as [|a p IH]; intros s; simpl.
  - split; [intros _; now exists s | reflexivity].
  - destruct s as [|b s].
    + split; [discriminate | intros [post H]; discriminate].
    + rewrite andb_true_iff, IH. split.
      * intros [Hab [post ->]]. apply Ascii.eqb_eq in Hab. subst. now exists post.
      * intros [post H]. injection H as -> ->. split; [apply Ascii.eqb_refl | now exists post].
Qed.

Lemma contains_spec (k s : string) : contains k s = true <-> Substring k s.
Proof.
  unfold Substring. induction s as [|c s IH].
  - simpl. rewrite orb_false_r, startswith_spec. split.
    + intros [post H]. now exists "", post.
    + intros [pre [post H]]. destruct pre as [|x pre]; [now exists post | discriminate].
  - cbn [contains]. rewrite orb_true_iff, startswith_spec, IH. split.
    + intros [[post H] | [pre [post H]]].
      * now exists "", post.
      * exists (String c pre), post. simpl. now rewrite H.
    + intros [pre [post H]]. destruct pre as [|x pre].
      * left. now exists post.
      * right. simpl in H. injection H as _ H. now exists pre, post.
Qed.

Lemma contains_false (k s : string) : contains k s = false <-> ~ Substring k s.
Proof.
  rewrite <- contains_spec. destruct (contains k s); split; intros; congruence.
Qed.

End PyStrFacts.

(** ** The priority estimator *)

Module PriorityFacts.
Import PyStr PyStrFacts Classifier Spec.

Lemma mentions_existsb (keywords : list string) (text : string) :
  mentions keywords text <-> existsb (fun k => contains k text) keywords = true.
Proof.
  unfold mentions. rewrite existsb_exists. split.
  - intros [k [Hin Hs]]. exists k. split; [assumption | now apply contains_spec].
  - intros [k [Hin Hs]]. exists k. split; [assumption | now apply contains_spec].
Qed.

Lemma scan_keywords_hit (keywords : list string) (text level rest : string) :
  mentions keywords text -> scan_keywords keywords text level rest = level.
Proof.
  rewrite mentions_existsb.
  induction keywords as [|k ks IH]; simpl; [discriminate |].
  destruct (contains k text); simpl; auto.
Qed.

Lemma scan_keywords_miss (keywords : list string) (text level rest : string) :
  ~ mentions keywords text -> scan_keywords keywords text level rest = rest.
Proof.
  rewrite mentions_existsb.
  induction keywords as [|k ks IH]; simpl; [reflexivity |].
  destruct (contains k text); simpl; [intros H; now elim H | auto].
Qed.

(** C1.  [predict_priority] lowercases the text; the result is ['High']
    when a keyword of the high-urgency list occurs in it as a substring,
    otherwise ['Medium'] when a keyword of the medium-urgency list does,
    otherwise ['Low'].  A text with a high-list and a medium-list keyword
    therefore yields ['High']. *)
Theorem predict_priority_first_match (complaint_text category : string) :
  (mentions high_priority_keywords (lower complaint_text) ->
   predict_priority complaint_text category = "High") /\
  (~ mentions high_priority_keywords (lower complaint_text) ->
   mentions medium_priority_keywords (lower complaint_text) ->
   predict_priority complaint_text category = "Medium") /\
  (~ mentions high_priority_keywords (lower complaint_text) ->
   ~ mentions medium_priority_keywords (lower complaint_text) ->
   predict_priority complaint_text category = "Low").
Proof.
  unfold predict_priority. repeat split.
  - intros Hh. now apply scan_keywords_hit.
  - intros Hh Hm. rewrite (scan_keywords_miss _ _ _ _ Hh). now apply scan_keywords_hit.
  - intros Hh Hm. rewrite (scan_keywords_miss _ _ _ _ Hh). now apply scan_keywords_miss.
Qed.

Lemma predict_priority_first_match_witness :
  predict_priority "URGENT: poor road, broken lights" "Other" = "High" /\
  predict_priority "Street lights not working for 2 weeks" "Electricity" = "Medium" /\
  predict_priority "No water supply in our area for the past 3 days" "Water Supply" = "Low".
Proof.
  split; [| split].
  - apply (proj1 (predict_priority_first_match _ _)).
    exists "urgent". split; [simpl; tauto |].
    exists "", ": poor road, broken lights". reflexivity.
  - apply (proj1 (proj2 (predict_priority_first_match _ _))).
    + intros H. apply mentions_existsb in H. vm_compute in H. discriminate.
    + exists "not working". split; [simpl; tauto |].
      exists "street lights ", " for 2 weeks". reflexivity.
  - apply (proj2 (proj2 (predict_priority_first_match _ _))).
    + intros H. apply mentions_existsb in H. vm_compute in H. discriminate.
    + intros H. apply mentions_existsb in H. vm_compute in H. discriminate.
Defined.

(** The scenarios of the specification. *)
Example priority_no_keyword :
  predict_priority "No water supply in our area for the past 3 days" "Water Supply" = "Low".
Proof. reflexivity. Qed.

Example priority_burst :
  predict_priority "Water pipe burst on main street causing flooding" "Water Supply" = "High".
Proof. reflexivity. Qed.

Example priority_accident :
  predict_priority "Large pothole on main road causing accidents" "Road Maintenance" = "High".
Proof. reflexivity. Qed.

Example priority_not_working :
  predict_priority "Street lights not working for 2 weeks" "Electricity" = "Medium".
Proof. reflexivity. Qed.

(** C7.  The priority depends on the text alone: the category argument
    never changes the result. *)
Theorem predict_priority_ignores_category (t c1 c2 : string) :
  predict_priority t c1 = predict_priority t c2.
Proof. reflexivity. Qed.

End PriorityFacts.

(** ** The text normaliser *)

Module NormalizerFacts.
Import PyStr PyStrFacts Classifier Spec.

Ltac by_cases_on_char c :=
  destruct c as [[] [] [] [] [] [] [] []]; vm_compute; try reflexivity; try discriminate; auto.

Lemma lower_char_idem (c : ascii) : lower_char (lower_char c) = lower_char c.
Proof. by_cases_on_char c. Qed.

Lemma isspace_not_letter (c : ascii) : isspace c = true -> is_ascii_letter c = false.
Proof. by_cases_on_char c. Qed.

Lemma is_empty_true (s : string) : is_empty s = true <-> s = "".
Proof. destruct s; simpl; split; congruence. Qed.

Lemma is_empty_app (a b : string) : is_empty (a ++ b) = is_empty a && is_empty b.
Proof. destruct a; reflexivity. Qed.

Lemma forallb_str_app (p : ascii -> bool) (a b : string) :
  forallb_str p (a ++ b) = forallb_str p a && forallb_str p b.
Proof.
  induction a as [|c a IH]; simpl; [reflexivity |].
  now rewrite IH, andb_assoc.
Qed.

Lemma lstrip_idem (s : string) : lstrip (lstrip s) = lstrip s.
Proof.
  induction s as [|c s IH]; simpl; [reflexivity |].
  destruct (isspace c) eqn:E; [assumption | simpl; now rewrite E].
Qed.

Lemma collapse_whitespace_cons (c : ascii) (s : string) :
  collapse_whitespace (String c s) =
  if isspace c then
    match s with
    | EmptyString => " "
    | String d _ =>
        if isspace d then collapse_whitespace s else String " " (collapse_whitespace s)
    end
  else String c (collapse_whitespace s).
Proof. reflexivity. Qed.

(** A whitespace character in front of [s] contributes one space, and the
    whitespace that followed it is absorbed. *)
Lemma collapse_whitespace_space (c : ascii) (s : string) :
  isspace c = true ->
  collapse_whitespace (String c s) = String " " (lstrip (collapse_whitespace s)).
Proof.
  revert c. induction s as [|d s IH]; intros c Hc.
  - simpl. now rewrite Hc.
  - rewrite collapse_whitespace_cons, Hc.
    destruct (isspace d) eqn:Hd.
    + rewrite (IH d Hd). cbn [lstrip].
      replace (isspace " ") with true by reflexivity.
      now rewrite lstrip_idem.
    + rewrite (collapse_whitespace_cons d s), Hd. cbn [lstrip]. now rewrite Hd.
Qed.

Lemma collapse_whitespace_char (c : ascii) (s : string) :
  isspace c = false ->
  collapse_whitespace (String c s) = String c (collapse_whitespace s).
Proof. intros Hc. now rewrite collapse_whitespace_cons, Hc. Qed.

Lemma split_from_nonempty (s cur : string) :
  Forall (fun w => is_empty w = false) (split_from cur s).
Proof.
  revert cur. induction s as [|c s IH]; intros cur; simpl.
  - destruct (is_empty cur) eqn:E; [constructor | now repeat constructor].
  - destruct (isspace c).
    + destruct (is_empty cur) eqn:E; [apply IH | constructor; [assumption | apply IH]].
    + apply IH.
Qed.

Lemma join_cons (sep x : string) (xs : list string) :
  join sep (x :: xs) =
  match xs with
  | [] => x
  | _ :: _ => x ++ sep ++ join sep xs
  end.
Proof. reflexivity. Qed.

Lemma join_is_empty (sep : string) (xs : list string) :
  Forall (fun w => is_empty w = false) xs ->
  is_empty (join sep xs) = match xs with [] => true | _ :: _ => false end.
Proof.
  intros H. destruct H as [|x xs Hx Hxs]; [reflexivity |].
  rewrite join_cons. destruct xs; [assumption |].
  now rewrite is_empty_app, Hx.
Qed.

(** [' '.join(s.split())] is [s] with its whitespace runs collapsed and
    its ends trimmed; with a word under way, the word comes first. *)
Lemma join_split_from (s : string) :
  join " " (split_from "" s) = strip (collapse_whitespace s) /\
  forall cur, is_empty cur = false ->
    join " " (split_from cur s) = cur ++ rstrip (collapse_whitespace s).
Proof.
  unfold strip. induction s as [|c s [IH1 IH2]].
  - split; [reflexivity |].
    intros cur Hcur. simpl. rewrite Hcur. simpl. now rewrite append_empty_r.
  - destruct (isspace c) eqn:Hc.
    + rewrite (collapse_whitespace_space c s Hc). split.
      * simpl. rewrite Hc. simpl.
        replace (isspace " ") with true by reflexivity.
        now rewrite lstrip_idem.
      * intros cur Hcur. cbn [split_from]. rewrite Hc, Hcur.
        rewrite join_cons. cbn [rstrip].
        replace (isspace " ") with true by reflexivity.
        rewrite <- IH1. cbn [andb].
        rewrite (join_is_empty " " _ (split_from_nonempty s "")).
        destruct (split_from "" s); [now rewrite append_empty_r | reflexivity].
    + rewrite (collapse_whitespace_char c s Hc). split.
      * cbn [split_from lstrip rstrip is_empty append]. rewrite Hc. cbn [andb].
        cbn [rstrip]. rewrite Hc. cbn [andb].
        now rewrite (IH2 (String c "") eq_refl).
      * intros cur Hcur. cbn [split_from rstrip]. rewrite Hc. cbn [andb].
        rewrite IH2, append_assoc; [reflexivity |].
        rewrite is_empty_app, Hcur. reflexivity.
Qed.

Lemma split_from_whitespace (s : string) :
  forallb_str isspace s = true -> split_from "" s = [].
Proof.
  induction s as [|c s IH]; simpl; [reflexivity |].
  intros H. apply andb_true_iff in H as [Hc Hs]. rewrite Hc. auto.
Qed.

(** Deleting leaves whitespace only exactly when there was no ASCII
    letter. *)
Lemma remove_special_whitespace (s : string) :
  forallb_str isspace (remove_special s) = true <->
  forallb_str (fun c => negb (is_ascii_letter c)) s = true.
Proof.
  unfold remove_special, keep_char.
  induction s as [|c s IH]; simpl; [tauto |].
  destruct (is_ascii_letter c) eqn:El; simpl.
  - destruct (isspace c) eqn:Es.
    + pose proof (isspace_not_letter c Es). congruence.
    + simpl. split; discriminate.
  - destruct (isspace c) eqn:Es; simpl; [rewrite Es |]; exact IH.
Qed.

Lemma split_from_word_nonempty (s cur : string) :
  is_empty cur = false -> split_from cur s <> [].
Proof.
  revert cur. induction s as [|c s IH]; intros cur Hcur; simpl.
  - rewrite Hcur. discriminate.
  - destruct (isspace c).
    + rewrite Hcur. discriminate.
    + apply IH. now rewrite is_empty_app, Hcur.
Qed.

Lemma split_from_empty (s : string) :
  split_from "" s = [] -> forallb_str isspace s = true.
Proof.
  induction s as [|c s IH]; simpl; [reflexivity |].
  destruct (isspace c); simpl; [exact IH |].
  intros H. now elim (split_from_word_nonempty s (String c "") eq_refl).
Qed.

Example preprocess_text_merges_tokens :
  preprocess_text "  Power-cut:   6hrs/day,  BLOCK A1b " = "powercut hrsday block ab".
Proof. reflexivity. Qed.

(** C4.  [preprocess_text] returns the lowercased text with every
    character that is neither an ASCII letter nor whitespace deleted,
    whitespace runs collapsed to one space and both ends trimmed.  The
    result is the empty string exactly for the symbol-only texts, those in
    which lowercasing leaves no ASCII letter: the empty text and every
    text of digits, punctuation, symbols and whitespace among them.  The
    function is total. *)
Theorem preprocess_text_normalizes (text : string) :
  preprocess_text text = normalize text /\
  (symbol_only text = true <-> preprocess_text text = "").
Proof.
  split.
  - unfold preprocess_text, normalize, split, remove_special, keep_char.
    apply (proj1 (join_split_from _)).
  - unfold symbol_only, preprocess_text, split.
    rewrite <- remove_special_whitespace. split.
    + intros H. now rewrite (split_from_whitespace _ H).
    + intros H. apply split_from_empty.
      pose proof (join_is_empty " " _
                    (split_from_nonempty (remove_special (lower text)) "")) as Hj.
      rewrite H in Hj. simpl in Hj.
      destruct (split_from "" (remove_special (lower text))); [reflexivity | discriminate].
Qed.

Lemma preprocess_text_normalizes_witness :
  preprocess_text "" = "" /\ preprocess_text "#42 -- !?" = "" /\
  symbol_only " 3 + 4 = 7 " = true.
Proof.
  split; [| split].
  - apply (proj1 (proj2 (preprocess_text_normalizes ""))). reflexivity.
  - apply (proj1 (proj2 (preprocess_text_normalizes "#42 -- !?"))). reflexivity.
  - apply (proj2 (proj2 (preprocess_text_normalizes " 3 + 4 = 7 "))). reflexivity.
Defined.

Lemma remove_special_settled (text : string) :
  forallb_str settled (remove_special (lower text)) = true.
Proof.
  unfold remove_special, lower, settled.
  induction text as [|c s IH]; simpl; [reflexivity |].
  destruct (keep_char (lower_char c)) eqn:E; [| assumption].
  simpl. now rewrite lower_char_idem, Ascii.eqb_refl, E, IH.
Qed.

Lemma split_from_forallb (p : ascii -> bool) (s cur : string) :
  forallb_str p s = true -> forallb_str p cur = true ->
  Forall (fun w => forallb_str p w = true) (split_from cur s).
Proof.
  revert cur. induction s as [|c s IH]; intros cur Hs Hcur; simpl in *.
  - destruct (is_empty cur); repeat constructor; assumption.
  - apply andb_true_iff in Hs as [Hc Hs].
    destruct (isspace c).
    + destruct (is_empty cur); [| constructor; [assumption |]]; now apply IH.
    + apply IH; [assumption |]. rewrite forallb_str_app, Hcur. simpl. now rewrite Hc.
Qed.

Lemma split_from_no_space (s cur : string) :
  forallb_str (fun c => negb (isspace c)) cur = true ->
  Forall (fun w => forallb_str (fun c => negb (isspace c)) w = true) (split_from cur s).
Proof.
  revert cur. induction s as [|c s IH]; intros cur Hcur; simpl.
  - destruct (is_empty cur); repeat constructor; assumption.
  - destruct (isspace c) eqn:Hc.
    + destruct (is_empty cur); [| constructor; [assumption |]]; now apply IH.
    + apply IH. rewrite forallb_str_app, Hcur. simpl. now rewrite Hc.
Qed.

Lemma join_forallb (p : ascii -> bool) (xs : list string) :
  p " "%char = true ->
  Forall (fun w => forallb_str p w = true) xs ->
  forallb_str p (join " " xs) = true.
Proof.
  intros Hsp H. induction H as [|x xs Hx Hxs IH]; [reflexivity |].
  rewrite join_cons. destruct xs; [assumption |].
  rewrite forallb_str_app, Hx. cbn [append forallb_str andb]. now rewrite Hsp, IH.
Qed.

Lemma split_from_word (w cur rest : string) :
  forallb_str (fun c => negb (isspace c)) w = true ->
  split_from cur (w ++ rest) = split_from (cur ++ w) rest.
Proof.
  revert cur. induction w as [|c w IH]; intros cur H; simpl in *.
  - now rewrite append_empty_r.
  - apply andb_true_iff in H as [Hc Hw]. apply negb_true_iff in Hc.
    rewrite Hc, (IH _ Hw), append_assoc. reflexivity.
Qed.

(** Splitting what [join] built gives the words back. *)
Lemma split_join (xs : list string) :
  Forall (fun w => is_empty w = false) xs ->
  Forall (fun w => forallb_str (fun c => negb (isspace c)) w = true) xs ->
  split (join " " xs) = xs.
Proof.
  unfold split. intros Hne Hns. induction xs as [|x xs IH]; [reflexivity |].
  inversion Hne as [|? ? Hx Hxs]; subst. inversion Hns as [|? ? Hx' Hxs']; subst.
  rewrite join_cons. destruct xs as [|y ys].
  - rewrite <- (append_empty_r x) at 1. rewrite (split_from_word x "" "" Hx'). cbn [append split_from]. now rewrite Hx.
  - rewrite (split_from_word x "" _ Hx'). cbn [append split_from].
    replace (isspace " ") with true by reflexivity.
    rewrite Hx. f_equal. now apply IH.
Qed.

Lemma lower_settled (s : string) : forallb_str settled s = true -> lower s = s.
Proof.
  unfold lower, settled. induction s as [|c s IH]; simpl; [reflexivity |].
  intros H. apply andb_true_iff in H as [Hc Hs]. apply andb_true_iff in Hc as [Hc _].
  apply Ascii.eqb_eq in Hc. now rewrite Hc, IH.
Qed.

Lemma remove_special_settled_id (s : string) :
  forallb_str settled s = true -> remove_special s = s.
Proof.
  unfold remove_special, settled. induction s as [|c s IH]; simpl; [reflexivity |].
  intros H. apply andb_true_iff in H as [Hc Hs]. apply andb_true_iff in Hc as [_ Hc].
  now rewrite Hc, IH.
Qed.

(** C5.  Normalisation is idempotent. *)
Theorem preprocess_text_idempotent (x : string) :
  preprocess_text (preprocess_text x) = preprocess_text x.
Proof.
  unfold preprocess_text at 2.
  set (u := remove_special (lower x)).
  assert (Hu : forallb_str settled u = true) by apply remove_special_settled.
  assert (Hy : forallb_str settled (join " " (split u)) = true).
  { apply join_forallb; [reflexivity |].
    now apply split_from_forallb. }
  unfold preprocess_text.
  rewrite (lower_settled _ Hy), (remove_special_settled_id _ Hy).
  rewrite split_join; [reflexivity | apply split_from_nonempty |].
  now apply split_from_no_space.
Qed.

End NormalizerFacts.

(** ** The category classifier *)

Module PredictFacts.
Import PyStr Classifier Spec.
Import Sklearn.

Local Open Scope Q_scope.

Lemma Qlt_bool_true (x y : Q) : Qlt_bool x y = true <-> x < y.
Proof.
  unfold Qlt_bool. rewrite negb_true_iff. split.
  - intros H. apply Qnot_le_lt. intros Hle. apply Qle_bool_iff in Hle. congruence.
  - intros H. destruct (Qle_bool y x) eqn:E; [| reflexivity].
    apply Qle_bool_iff in E. exfalso. now apply (Qlt_not_le _ _ H).
Qed.

Lemma Qlt_bool_false (x y : Q) : Qlt_bool x y = false <-> y <= x.
Proof.
  unfold Qlt_bool. rewrite negb_false_iff. apply Qle_bool_iff.
Qed.

(** One left-to-right scan computes both [np.argmax] and [max]: the index
    returned is in range, holds the value [max] returns, no value exceeds
    it, and every value before it is strictly smaller. *)
Lemma argmax_from_spec (xs : list Q) :
  forall (pre : list Q) (b : Q) (bi : nat),
    (bi < length pre)%nat ->
    nth bi pre 0 = b ->
    (forall j, (j < length pre)%nat -> nth j pre 0 <= b) ->
    (forall j, (j < bi)%nat -> nth j pre 0 < b) ->
    let r := argmax_from bi b (length pre) xs in
    (r < length (pre ++ xs))%nat /\
    max_from b xs = nth r (pre ++ xs) 0 /\
    (forall j, (j < length (pre ++ xs))%nat -> nth j (pre ++ xs) 0 <= nth r (pre ++ xs) 0) /\
    (forall j, (j < r)%nat -> nth j (pre ++ xs) 0 < nth r (pre ++ xs) 0).
Proof.
  induction xs as [|x xs IH]; intros pre b bi Hbi Hb Hle Hlt; cbn [argmax_from max_from].
  - rewrite app_nil_r. rewrite Hb. auto.
  - assert (Hshift : (pre ++ x :: xs = (pre ++ [x]) ++ xs)%list)
      by now rewrite <- app_assoc.
    assert (Hlen : length (pre ++ [x]) = S (length pre))
      by (rewrite length_app; simpl; lia).
    rewrite Hshift, <- Hlen.
    destruct (Qlt_bool b x) eqn:E.
    + apply Qlt_bool_true in E.
      apply (IH (pre ++ [x])%list x (length pre)).
      * lia.
      * now rewrite nth_middle.
      * intros j Hj. rewrite Hlen in Hj.
        destruct (Nat.eq_dec j (length pre)) as [-> | Hne].
        -- rewrite nth_middle. apply Qle_refl.
        -- rewrite app_nth1 by lia. apply Qlt_le_weak.
           apply Qle_lt_trans with b; [apply Hle; lia | assumption].
      * intros j Hj. rewrite app_nth1 by lia.
        apply Qle_lt_trans with b; [apply Hle; lia | assumption].
    + apply Qlt_bool_false in E.
      apply (IH (pre ++ [x])%list b bi).
      * lia.
      * now rewrite app_nth1 by lia.
      * intros j Hj. rewrite Hlen in Hj.
        destruct (Nat.eq_dec j (length pre)) as [-> | Hne].
        -- now rewrite nth_middle.
        -- rewrite app_nth1 by lia. apply Hle. lia.
      * intros j Hj. rewrite app_nth1 by lia. now apply Hlt.
Qed.

Lemma argmax_spec (x : Q) (xs : list Q) :
  let r := argmax (x :: xs) in
  (r < length (x :: xs))%nat /\
  py_max (x :: xs) = Ok (nth r (x :: xs) 0) /\
  (forall j, (j < length (x :: xs))%nat -> nth j (x :: xs) 0 <= nth r (x :: xs) 0) /\
  (forall j, (j < r)%nat -> nth j (x :: xs) 0 < nth r (x :: xs) 0).
Proof.
  destruct (argmax_from_spec xs [x] x 0%nat) as (H1 & H2 & H3 & H4).
  - simpl; lia.
  - reflexivity.
  - intros j Hj. simpl in Hj. assert (j = 0%nat) as -> by lia. apply Qle_refl.
  - intros j Hj. lia.
  - cbn [app length] in *. unfold argmax, py_max. cbn zeta. rewrite H2. auto.
Qed.

End PredictFacts.

Module ClassifierFacts.
Import Sklearn.
Import PyStr Classifier Spec Claims PredictFacts.

Local Open Scope Q_scope.

(** What [predict] returns on a fitted pipeline: the class at the first
    index whose posterior is the greatest, and that posterior. *)
Lemma predict_fitted (self : ComplaintClassifier) (pl : Pipeline) (text : string) :
  pipeline self = Some pl ->
  fitted_at pl (preprocess_text text) ->
  exists (i : nat) (confidence : Q),
    predict self text = Ok (nth i (classes_ pl) ""%string, confidence) /\
    (i < length (classes_ pl))%nat /\
    In confidence (proba pl (preprocess_text text)) /\
    confidence == nth i (proba pl (preprocess_text text)) 0 /\
    (forall j, (j < length (classes_ pl))%nat ->
               nth j (proba pl (preprocess_text text)) 0 <= confidence) /\
    (forall j, (j < i)%nat -> nth j (proba pl (preprocess_text text)) 0 < confidence).
Proof.
  intros Hpl [Hne Hsc Hpr Hrg Hord].
  unfold predict, Sklearn.predict, predict_proba. rewrite Hpl.
  set (x := preprocess_text text) in *.
  destruct (joint_log_likelihood pl x) as [|s0 ss] eqn:Ejll.
  { simpl in Hsc. destruct (classes_ pl); [now elim Hne | discriminate]. }
  destruct (proba pl x) as [|p0 ps] eqn:Eps.
  { simpl in Hpr. destruct (classes_ pl); [now elim Hne | discriminate]. }
  destruct (argmax_spec s0 ss) as (Hi & _ & Hile & Hilt).
  destruct (argmax_spec p0 ps) as (Hk & Hmax & Hkle & _).
  set (i := argmax (s0 :: ss)) in *. set (k := argmax (p0 :: ps)) in *.
  rewrite Hmax. rewrite Hsc in Hi, Hile. rewrite Hpr in Hk, Hkle.
  assert (Hple : forall j, (j < length (classes_ pl))%nat ->
                           nth j (p0 :: ps) 0 <= nth i (p0 :: ps) 0).
  { intros j Hj. apply Hord; auto. }
  assert (Heq : nth k (p0 :: ps) 0 == nth i (p0 :: ps) 0).
  { apply Qle_antisym; [apply Hple | apply Hkle]; assumption. }
  exists i, (nth k (p0 :: ps) 0). repeat split.
  - assumption.
  - apply nth_In. now rewrite Hpr.
  - assumption.
  - assumption.
  - intros j Hj. apply Qlt_le_trans with (nth i (p0 :: ps) 0).
    + apply Qnot_le_lt. intros Hc. apply Hord in Hc; [| lia | lia].
      apply (Qlt_not_le _ _ (Hilt j Hj)). assumption.
    + apply Hkle. assumption.
Qed.

Lemma balanced_pipeline_fitted (x : string) : fitted_at balanced_pipeline x.
Proof.
  constructor.
  - vm_compute. discriminate.
  - reflexivity.
  - reflexivity.
  - vm_compute. repeat constructor; discriminate.
  - intros i j Hi Hj. vm_compute in Hi, Hj.
    assert (Hi' : (i < 5)%nat) by (unfold lt; exact Hi).
    assert (Hj' : (j < 5)%nat) by (unfold lt; exact Hj).
    clear Hi Hj.
    destruct i as [|[|[|[|[|i]]]]]; try lia;
      destruct j as [|[|[|[|[|j]]]]]; try lia;
      split; intros _; vm_compute; discriminate.
Qed.

(** The classes of a model fitted on the embedded corpus are the sorted
    labels. *)
Lemma trained_class_order :
  np_unique training_labels =
  ["Electricity"; "Other"; "Road Maintenance"; "Sanitation"; "Water Supply"]%string.
Proof. reflexivity. Qed.

(** C6.  [predict] raises exactly when no pipeline has been trained or
    loaded (a [ValueError]); with a fitted pipeline whose classes are
    among the categories of the classifier it returns one of these
    categories and a confidence between 0 and 1, for every text. *)
Theorem predict_raises_iff_no_model (self : ComplaintClassifier) (text : string) :
  (forall pl, pipeline self = Some pl -> fitted_at pl (preprocess_text text)) ->
  (forall pl, pipeline self = Some pl -> incl (classes_ pl) (categories self)) ->
  (pipeline self = None <-> exists e, predict self text = Raise e) /\
  (pipeline self = None ->
   predict self text = Raise (ValueError "Model not trained or loaded")) /\
  (forall pl, pipeline self = Some pl ->
     exists category confidence,
       predict self text = Ok (category, confidence) /\
       In category (classes_ pl) /\
       In category (categories self) /\
       0 <= confidence /\ confidence <= 1).
Proof.
  intros Hfit Hcls.
  assert (Hsome : forall pl, pipeline self = Some pl ->
     exists category confidence,
       predict self text = Ok (category, confidence) /\
       In category (classes_ pl) /\
       In category (categories self) /\
       0 <= confidence /\ confidence <= 1).
  { intros pl Hpl.
    destruct (predict_fitted self pl text Hpl (Hfit pl Hpl))
      as (i & c & Hp & Hi & Hin & _).
    exists (nth i (classes_ pl) ""%string), c.
    assert (Hc : In (nth i (classes_ pl) ""%string) (classes_ pl)) by now apply nth_In.
    split; [assumption |]. split; [assumption |].
    split; [now apply (Hcls pl Hpl) |].
    destruct (Hfit pl Hpl) as [_ _ _ Hrg _].
    rewrite Forall_forall in Hrg. now apply Hrg. }
  assert (Hnone : pipeline self = None ->
                  predict self text = Raise (ValueError "Model not trained or loaded")).
  { intros Hn. unfold predict. now rewrite Hn. }
  split; [| split; assumption].
  split.
  - intros Hn. eexists. now apply Hnone.
  - intros [e He]. destruct (pipeline self) as [pl|] eqn:E; [| reflexivity].
    destruct (Hsome pl eq_refl) as (c & q & Hp & _). congruence.
Qed.

Lemma balanced_pipeline_classes :
  incl (classes_ balanced_pipeline) (categories (with_pipeline (init None) balanced_pipeline)).
Proof.
  intros c Hc. vm_compute in Hc.
  destruct Hc as [<- | [<- | [<- | [<- | [<- | []]]]]]; simpl; tauto.
Qed.

Lemma predict_raises_iff_no_model_witness :
  predict (init None) "" = Raise (ValueError "Model not trained or loaded") /\
  exists category confidence,
    predict (with_pipeline (init None) balanced_pipeline) "" = Ok (category, confidence) /\
    In category (classes_ balanced_pipeline) /\
    In category (categories (with_pipeline (init None) balanced_pipeline)) /\
    0 <= confidence /\ confidence <= 1.
Proof.
  split.
  - destruct (predict_raises_iff_no_model (init None) "") as (_ & H & _).
    + intros pl Hpl. discriminate Hpl.
    + intros pl Hpl. discriminate Hpl.
    + apply H. reflexivity.
  - destruct (predict_raises_iff_no_model
                (with_pipeline (init None) balanced_pipeline) "") as (_ & _ & H).
    + intros pl Hpl. injection Hpl as <-. apply balanced_pipeline_fitted.
    + intros pl Hpl. injection Hpl as <-. apply balanced_pipeline_classes.
    + apply H. reflexivity.
Defined.

(** C8, as stated, fails: with all five classes tied, [predict] returns
    ['Electricity'], the first class of the pipeline, while the first
    category of [self.categories] attaining the maximum is ['Water Supply']. *)
Lemma ties_resolve_by_category_order_fails :
  predict (with_pipeline (init None) balanced_pipeline) "" = Ok ("Electricity"%string, 1 # 5) /\
  earliest_maximal (categories (with_pipeline (init None) balanced_pipeline))
    (classes_ balanced_pipeline) (proba balanced_pipeline (preprocess_text ""))
    (1 # 5) = Some "Water Supply"%string /\
  ~ ties_resolve_by_category_order.
Proof.
  split; [reflexivity |]. split; [reflexivity |].
  intros H.
  specialize (H (with_pipeline (init None) balanced_pipeline) balanced_pipeline
                ""%string "Electricity"%string (1 # 5)
                eq_refl (balanced_pipeline_fitted _) eq_refl).
  assert (Htie : earliest_maximal
                   (categories (with_pipeline (init None) balanced_pipeline))
                   (classes_ balanced_pipeline)
                   (proba balanced_pipeline (preprocess_text "")) (1 # 5)
                 = Some "Electricity"%string).
  { apply H. exists "Water Supply"%string, "Electricity"%string.
    repeat split; try (simpl; tauto); try discriminate. }
  vm_compute in Htie. discriminate.
Qed.

(** C8, amended.  On a fitted pipeline [predict] returns the class at the
    first index, in the pipeline's own class order, whose posterior is the
    greatest: every class before it has a strictly smaller posterior, so
    ties resolve to the earliest class of [classes_].  [self.categories]
    has no part in the choice. *)
Theorem predict_ties_follow_class_order
  (self : ComplaintClassifier) (pl : Pipeline) (text : string) :
  pipeline self = Some pl ->
  fitted_at pl (preprocess_text text) ->
  (exists (i : nat) (confidence : Q),
     predict self text = Ok (nth i (classes_ pl) ""%string, confidence) /\
     (i < length (classes_ pl))%nat /\
     confidence == nth i (proba pl (preprocess_text text)) 0 /\
     (forall j, (j < length (classes_ pl))%nat ->
                nth j (proba pl (preprocess_text text)) 0 <= confidence) /\
     (forall j, (j < i)%nat -> nth j (proba pl (preprocess_text text)) 0 < confidence)) /\
  (forall cs,
     predict {| model_path := model_path self; pipeline := pipeline self;
                categories := cs |} text = predict self text).
Proof.
  intros Hpl Hfit. split.
  - destruct (predict_fitted self pl text Hpl Hfit) as (i & c & H1 & H2 & _ & H3 & H4 & H5).
    exists i, c. auto.
  - intros cs. reflexivity.
Qed.

Lemma predict_ties_follow_class_order_witness :
  (exists (i : nat) (confidence : Q),
     predict (with_pipeline (init None) balanced_pipeline) "" =
       Ok (nth i (classes_ balanced_pipeline) ""%string, confidence) /\
     (i < length (classes_ balanced_pipeline))%nat /\
     confidence == nth i (proba balanced_pipeline (preprocess_text "")) 0 /\
     (forall j, (j < length (classes_ balanced_pipeline))%nat ->
                nth j (proba balanced_pipeline (preprocess_text "")) 0 <= confidence) /\
     (forall j, (j < i)%nat ->
                nth j (proba balanced_pipeline (preprocess_text "")) 0 < confidence)).
Proof.
  apply (proj1 (predict_ties_follow_class_order
                  (with_pipeline (init None) balanced_pipeline) balanced_pipeline ""
                  eq_refl (balanced_pipeline_fitted _))).
Defined.

End ClassifierFacts.

(** ** Submission and the status lifecycle *)

Module ServiceFacts.
Import Sklearn.
Import PyStr Classifier Storage Service Spec Claims.

Lemma scan_keywords_result (keywords : list string) (text level rest : string) :
  scan_keywords keywords text level rest = level \/
  scan_keywords keywords text level rest = rest.
Proof.
  induction keywords as [|k ks IH]; simpl; [now right |].
  destruct (contains k text); [now left | assumption].
Qed.

Lemma predict_priority_level (text category : string) :
  In (predict_priority text category) priority_levels.
Proof.
  unfold predict_priority, priority_levels.
  destruct (scan_keywords_result high_priority_keywords (lower text) "High"
              (scan_keywords medium_priority_keywords (lower text) "Medium" "Low"))
    as [-> | ->]; [simpl; tauto |].
  destruct (scan_keywords_result medium_priority_keywords (lower text) "Medium" "Low")
    as [-> | ->]; simpl; tauto.
Qed.

(** With the storage failing, a submission raises and stores nothing. *)
Lemma submit_complaint_fault (self : ComplaintService) (env : Env) (db : Database)
  (u : Z) (t d : string) (l : option string) (e : exn) :
  fault env = Some e ->
  exists e', submit_complaint self u t d l env db = (Raise e', db).
Proof.
  intros Hf. unfold submit_complaint, bind, lift, query, execute_query.
  destruct (predict (classifier self) d) as [[c q]|e0]; [| now exists e0].
  rewrite Hf. now exists e.
Qed.

(** Without a prediction, a submission raises and stores nothing. *)
Lemma submit_complaint_no_prediction (self : ComplaintService) (env : Env) (db : Database)
  (u : Z) (t d : string) (l : option string) (e : exn) :
  predict (classifier self) d = Raise e ->
  submit_complaint self u t d l env db = (Raise e, db).
Proof.
  intros Hp. unfold submit_complaint, bind, lift. now rewrite Hp.
Qed.

(** With a prediction and a working storage, a submission completes and
    appends one row to [complaints]. *)
Lemma submit_complaint_stores (self : ComplaintService) (env : Env) (db : Database)
  (u : Z) (t d : string) (l : option string) (c : string) (q : Q) :
  fault env = None ->
  predict (classifier self) d = Ok (c, q) ->
  exists db' id,
    submit_complaint self u t d l env db =
      (Ok {| sub_complaint_id := Some id; sub_category := c;
             sub_priority := predict_priority d c; sub_confidence := q;
             sub_status := "Submitted" |}, db') /\
    tbl_categories db' = tbl_categories db /\
    tbl_departments db' = tbl_departments db /\
    tbl_complaints db' =
      (tbl_complaints db ++
       [ {| complaint_id := id; user_id := u; title := t; description := d;
            location := l; category_id := resolved_category db c;
            priority := Some (predict_priority d c); status := Some "Submitted";
            created_at := now env; updated_at := now env |} ])%list /\
    (resolved_category db c = None -> tbl_assignments db' = tbl_assignments db).
Proof.
  intros Hf Hp.
  unfold submit_complaint, bind, lift, query, update, ret, execute_query, execute_update.
  rewrite Hp, Hf. cbn [fst snd].
  unfold resolved_category.
  destruct (map cat_category_id
              (filter (fun r => String.eqb (cat_name r) c) (tbl_categories db)))
    as [|cid cids]; cbn [hd_error truthy].
  - eexists; eexists. split; [reflexivity |]. repeat split.
  - destruct (negb (cid =? 0)%Z).
    + cbn [tbl_departments].
      destruct (map dept_department_id
                  (filter (fun r => option_Z_eqb (dept_category_id r) cid)
                     (tbl_departments db))) as [|did dids];
        repeat (cbn beta iota; rewrite ?Hf);
        (eexists; eexists; split; [reflexivity |]; repeat split; try discriminate).
    + eexists; eexists. split; [reflexivity |]. repeat split; try discriminate.
Qed.

(** Whatever its outcome, a submission leaves the earlier complaints as
    they were and adds at most one, in state ['Submitted']. *)
Lemma submit_complaint_complaints (self : ComplaintService) (env : Env) (db : Database)
  (u : Z) (t d : string) (l : option string) :
  tbl_complaints (snd (submit_complaint self u t d l env db)) = tbl_complaints db \/
  exists row,
    tbl_complaints (snd (submit_complaint self u t d l env db)) =
      (tbl_complaints db ++ [row])%list /\
    status row = Some "Submitted".
Proof.
  destruct (predict (classifier self) d) as [[c q]|e] eqn:Hp.
  - destruct (fault env) as [e|] eqn:Hf.
    + destruct (submit_complaint_fault self env db u t d l e Hf) as [e' ->]. now left.
    + destruct (submit_complaint_stores self env db u t d l c q Hf Hp)
        as (db' & id & -> & _ & _ & Hc & _).
      right. eexists. split; [exact Hc | reflexivity].
  - rewrite (submit_complaint_no_prediction self env db u t d l e Hp). now left.
Qed.

Lemma foreign_pipeline_fitted (x : string) : fitted_at foreign_pipeline x.
Proof.
  constructor.
  - discriminate.
  - reflexivity.
  - reflexivity.
  - repeat constructor; discriminate.
  - intros i j Hi Hj. simpl in Hi, Hj.
    assert (i = 0%nat) as -> by lia. assert (j = 0%nat) as -> by lia.
    split; intros _; apply Qle_refl.
Qed.

(** C2, as stated, fails: a pipeline that predicts a label outside the
    configured categories leaves [category_id] NULL in the stored row,
    although a category ['Other'] is configured. *)
Lemma stored_category_never_null_fails :
  fst (submit_complaint (service_with foreign_pipeline) 7 "Loud music"
         "Loud music at night" None (at_time 100) seeded_db) =
    Ok {| sub_complaint_id := Some 1%Z; sub_category := "Noise";
          sub_priority := "Low"; sub_confidence := 1; sub_status := "Submitted" |} /\
  option_map category_id
    (find_complaint
       (snd (submit_complaint (service_with foreign_pipeline) 7 "Loud music"
               "Loud music at night" None (at_time 100) seeded_db)) 1) = Some None /\
  other_category_id seeded_db = Some 5%Z /\
  ~ stored_category_never_null.
Proof.
  split; [reflexivity |]. split; [reflexivity |]. split; [reflexivity |].
  intros H.
  eassert (E : submit_complaint (service_with foreign_pipeline) 7 "Loud music"
                 "Loud music at night" None (at_time 100) seeded_db = (Ok _, _))
    by (vm_compute; reflexivity).
  destruct (H _ _ _ _ _ _ _ _ _ E) as (id & row & Hid & Hfind & Hcat & _).
  injection Hid as <-. vm_compute in Hfind. injection Hfind as <-.
  now apply Hcat.
Qed.

(** C2, amended.  A submission that completes has appended exactly one
    row carrying the submitted fields, one priority among High, Medium and
    Low, the state ['Submitted'], and as category the identifier under
    which the predicted name is configured, or NULL when it is not
    configured (no assignment is made then).  With a fitted pipeline and a
    working storage every submission completes, whether or not the
    category is configured. *)
Theorem submit_complaint_records_complaint
  (self : ComplaintService) (env : Env) (db : Database)
  (u : Z) (t d : string) (l : option string) :
  (forall sub db',
     submit_complaint self u t d l env db = (Ok sub, db') ->
     exists row,
       tbl_complaints db' = (tbl_complaints db ++ [row])%list /\
       sub_complaint_id sub = Some (complaint_id row) /\
       user_id row = u /\ title row = t /\ description row = d /\ location row = l /\
       priority row = Some (sub_priority sub) /\
       In (sub_priority sub) priority_levels /\
       status row = Some "Submitted" /\
       category_id row = resolved_category db (sub_category sub) /\
       (resolved_category db (sub_category sub) = None ->
        tbl_assignments db' = tbl_assignments db)) /\
  (forall pl,
     pipeline (classifier self) = Some pl ->
     fitted_at pl (preprocess_text d) ->
     fault env = None ->
     exists sub db', submit_complaint self u t d l env db = (Ok sub, db')).
Proof.
  split.
  - intros sub db' H.
    destruct (predict (classifier self) d) as [[c q]|e] eqn:Hp.
    + destruct (fault env) as [e|] eqn:Hf.
      * destruct (submit_complaint_fault self env db u t d l e Hf) as [e' He'].
        rewrite He' in H. discriminate.
      * destruct (submit_complaint_stores self env db u t d l c q Hf Hp)
          as (db1 & id & Hs & _ & _ & Hc & Ha).
        rewrite Hs in H. injection H as <- <-.
        eexists. split; [exact Hc |]. cbn.
        repeat split; try assumption. apply (predict_priority_level d c).
    + rewrite (submit_complaint_no_prediction self env db u t d l e Hp) in H.
      discriminate.
  - intros pl Hpl Hfit Hf.
    destruct (ClassifierFacts.predict_fitted _ pl d Hpl Hfit) as (i & q & Hp & _).
    destruct (submit_complaint_stores self env db u t d l _ q Hf Hp)
      as (db1 & id & Hs & _).
    eauto.
Qed.

Lemma submit_complaint_records_complaint_witness :
  exists sub db',
    submit_complaint (service_with foreign_pipeline) 7 "Loud music"
      "Loud music at night" None (at_time 100) seeded_db = (Ok sub, db').
Proof.
  apply (proj2 (submit_complaint_records_complaint
                  (service_with foreign_pipeline) (at_time 100) seeded_db
                  7 "Loud music" "Loud music at night" None)
           foreign_pipeline eq_refl (foreign_pipeline_fitted _) eq_refl).
Defined.

(** What [update_complaint_status] does in full: with the storage
    failing it returns [False] and leaves the database alone; otherwise it
    returns [True] and rewrites status and last-update time of the rows
    with the given identifier. *)
Lemma update_complaint_status_eq (self : ComplaintService) (env : Env) (db : Database)
  (id : Z) (s : string) :
  update_complaint_status self id s env db =
  match fault env with
  | Some _ => (Ok false, db)
  | None =>
      (Ok true,
       {| tbl_categories := tbl_categories db;
          tbl_departments := tbl_departments db;
          tbl_complaints :=
            map (fun r => if (complaint_id r =? id)%Z then set_status env s r else r)
              (tbl_complaints db);
          tbl_assignments := tbl_assignments db;
          seq_complaints := seq_complaints db;
          seq_assignments := seq_assignments db |})
  end.
Proof.
  unfold update_complaint_status, try_except, bind, update, ret, execute_update.
  destruct (fault env); reflexivity.
Qed.

Lemma map_unmatched (env : Env) (id : Z) (s : string) (rows : list ComplaintRow) :
  find (fun r => (complaint_id r =? id)%Z) rows = None ->
  map (fun r => if (complaint_id r =? id)%Z then set_status env s r else r) rows = rows.
Proof.
  induction rows as [|r rows IH]; simpl; [reflexivity |].
  destruct (complaint_id r =? id)%Z; [discriminate |].
  intros H. now rewrite IH.
Qed.

(** C3, as stated, fails: any string is accepted as the new status. *)
Lemma status_always_in_lifecycle_fails :
  map status
    (tbl_complaints
       (run_calls (service_with balanced_pipeline)
          [ (at_time 1, Submit 7 "Pothole" "Large pothole on main road" None);
            (at_time 2, SetStatus 1 "Escalated") ]
          seeded_db)) = [Some "Escalated"] /\
  ~ In "Escalated" lifecycle_states /\
  ~ status_always_in_lifecycle.
Proof.
  assert (Hout : ~ In "Escalated" lifecycle_states).
  { simpl. intros [H | [H | [H | [H | []]]]]; discriminate. }
  split; [reflexivity |]. split; [assumption |].
  intros H.
  specialize (H (service_with balanced_pipeline)
                [ (at_time 1, Submit 7 "Pothole" "Large pothole on main road" None);
                  (at_time 2, SetStatus 1 "Escalated") ]).
  unfold statuses_closed in H. rewrite Forall_forall in H.
  destruct (H {| complaint_id := 1; user_id := 7; title := "Pothole";
                 description := "Large pothole on main road"; location := None;
                 category_id := Some 3%Z; priority := Some "Low";
                 status := Some "Escalated"; created_at := 1; updated_at := 2 |})
    as (s & Hs & Hin).
  - vm_compute. now left.
  - injection Hs as <-. now apply Hout.
Qed.

Lemma run_call_statuses_closed (self : ComplaintService) (env : Env) (c : Call)
  (db : Database) :
  statuses_closed db ->
  match c with
  | SetStatus _ s => In s lifecycle_states
  | Submit _ _ _ _ => True
  end ->
  statuses_closed (run_call self env c db).
Proof.
  unfold statuses_closed. intros Hdb Hc. destruct c as [u t d l | id s]; cbn [run_call].
  - destruct (submit_complaint_complaints self env db u t d l) as [-> | (row & -> & Hrow)].
    + assumption.
    + apply Forall_app. split; [assumption |].
      constructor; [| constructor].
      exists "Submitted". split; [assumption | simpl; tauto].
  - rewrite update_complaint_status_eq.
    destruct (fault env); cbn [snd tbl_complaints]; [assumption |].
    apply Forall_map. eapply Forall_impl; [| exact Hdb].
    intros r (s0 & Hs0 & Hin). cbn beta.
    destruct (complaint_id r =? id)%Z.
    + exists s. split; [reflexivity | assumption].
    + exists s0. split; assumption.
Qed.

(** C3, amended.  A submission stores the state ['Submitted'], and
    [update_complaint_status] stores the string it is given, whatever it
    is; so the states of all complaints stay within the four lifecycle
    states as long as every status update is given one of them. *)
Theorem statuses_closed_preserved (self : ComplaintService)
  (calls : list (Env * Call)) (db : Database) :
  statuses_closed db ->
  sets_lifecycle_states calls ->
  statuses_closed (run_calls self calls db).
Proof.
  revert db. induction calls as [|[env c] calls IH]; intros db Hdb Hcalls.
  - assumption.
  - inversion Hcalls as [|? ? Hc Hrest]; subst. cbn [run_calls].
    apply IH; [| assumption].
    now apply run_call_statuses_closed.
Qed.

Lemma statuses_closed_preserved_witness :
  statuses_closed
    (run_calls (service_with balanced_pipeline)
       [ (at_time 1, Submit 7 "Pothole" "Large pothole on main road" None);
         (at_time 2, SetStatus 1 "In Progress");
         (at_time 3, SetStatus 1 "Resolved") ]
       seeded_db).
Proof.
  apply statuses_closed_preserved.
  - constructor.
  - repeat constructor; simpl; tauto.
Defined.

(** C9.  [update_complaint_status] never raises, leaves the categories,
    departments and assignments alone, and changes the complaints row by
    row: identifier, user, title, description, location, category,
    priority and creation time of every row are kept, a row with another
    identifier is kept whole, and a row with the given identifier gets the
    new status and the current time as last update when the call reports
    success. *)
Theorem update_complaint_status_frame (self : ComplaintService) (env : Env)
  (db : Database) (id : Z) (s : string) :
  exists ok : bool,
    fst (update_complaint_status self id s env db) = Ok ok /\
    tbl_categories (snd (update_complaint_status self id s env db)) = tbl_categories db /\
    tbl_departments (snd (update_complaint_status self id s env db)) = tbl_departments db /\
    tbl_assignments (snd (update_complaint_status self id s env db)) = tbl_assignments db /\
    Forall2
      (fun r r' =>
         same_but_status r r' /\
         (complaint_id r <> id -> r' = r) /\
         (ok = true -> complaint_id r = id ->
          status r' = Some s /\ updated_at r' = now env))
      (tbl_complaints db)
      (tbl_complaints (snd (update_complaint_status self id s env db))).
Proof.
  rewrite update_complaint_status_eq.
  destruct (fault env) as [e|]; cbn [fst snd tbl_categories tbl_departments
                                      tbl_assignments tbl_complaints].
  - exists false. repeat split.
    induction (tbl_complaints db) as [|r rows IH]; constructor; [| assumption].
    unfold same_but_status. repeat split; discriminate.
  - exists true. repeat split.
    induction (tbl_complaints db) as [|r rows IH]; cbn [map]; constructor; [| assumption].
    unfold same_but_status.
    destruct (Z.eqb_spec (complaint_id r) id) as [Heq | Hne].
    + repeat split. intros Hne. now elim Hne.
    + repeat split; intros; try reflexivity; contradiction.
Qed.

(** C10.  Whenever the storage update does not raise,
    [update_complaint_status] returns [True] and leaves the database the
    update produced; when no complaint has the given identifier, that
    database is the one before the call. *)
Theorem update_complaint_status_reports_success (self : ComplaintService) (env : Env)
  (db db' : Database) (id : Z) (s : string) (lastrowid : option Z) :
  execute_update env db (UpdateComplaintStatus s id) = Ok (db', lastrowid) ->
  update_complaint_status self id s env db = (Ok true, db') /\
  (find_complaint db id = None -> db' = db).
Proof.
  intros H. rewrite update_complaint_status_eq.
  unfold execute_update in H.
  destruct (fault env); [discriminate |].
  injection H as <- _. split; [reflexivity |].
  unfold find_complaint. intros Hnone.
  rewrite (map_unmatched env id s _ Hnone). now destruct db.
Qed.

Lemma update_complaint_status_reports_success_witness :
  update_complaint_status (service_with balanced_pipeline) 42 "Resolved"
    (at_time 5) seeded_db = (Ok true, seeded_db) /\
  (find_complaint seeded_db 42 = None -> seeded_db = seeded_db).
Proof.
  apply (update_complaint_status_reports_success
           (service_with balanced_pipeline) (at_time 5) seeded_db seeded_db
           42 "Resolved" None).
  reflexivity.
Defined.

End ServiceFacts.

(** ** Further properties of the normaliser and of the priority estimator *)

Module TextFacts.
Import Sklearn.
Import PyStr PyStrFacts Classifier Spec NormalizerFacts PriorityFacts.

Lemma length_append (a b : string) :
  String.length (a ++ b) = (String.length a + String.length b)%nat.
Proof. induction a as [|c a IH]; simpl; [reflexivity | now rewrite IH]. Qed.

Lemma lower_append (a b : string) : lower (a ++ b) = lower a ++ lower b.
Proof.
  unfold lower. induction a as [|c a IH]; simpl; [reflexivity | now rewrite IH].
Qed.

Lemma lower_idem (s : string) : lower (lower s) = lower s.
Proof.
  unfold lower. induction s as [|c s IH]; simpl; [reflexivity |].
  now rewrite lower_char_idem, IH.
Qed.

Lemma length_lower (s : string) : String.length (lower s) = String.length s.
Proof.
  unfold lower. induction s as [|c s IH]; simpl; [reflexivity | now rewrite IH].
Qed.

Lemma length_filter_str (p : ascii -> bool) (s : string) :
  (String.length (filter_str p s) <= String.length s)%nat.
Proof.
  induction s as [|c s IH]; simpl; [lia |].
  destruct (p c); simpl; lia.
Qed.

Lemma length_join_split_from (s cur : string) :
  (String.length (join " " (split_from cur s)) <= String.length cur + String.length s)%nat.
Proof.
  revert cur. induction s as [|c s IH]; intros cur; cbn [split_from].
  - destruct (is_empty cur); simpl; lia.
  - destruct (isspace c).
    + destruct (is_empty cur) eqn:E.
      * specialize (IH ""). simpl in *. lia.
      * rewrite join_cons. specialize (IH "").
        destruct (split_from "" s) eqn:Es.
        -- simpl. lia.
        -- rewrite !length_append. simpl in *. lia.
    + specialize (IH (cur ++ String c "")). rewrite length_append in IH. simpl in *. lia.
Qed.

(** The output of [preprocess_text] is never longer than its input. *)
Theorem preprocess_text_length (text : string) :
  (String.length (preprocess_text text) <= String.length text)%nat.
Proof.
  unfold preprocess_text, split.
  pose proof (length_join_split_from (remove_special (lower text)) "") as H1.
  pose proof (length_filter_str keep_char (lower text)) as H2.
  rewrite length_lower in H2. unfold remove_special in *. simpl in H1. lia.
Qed.

Lemma settled_word_char (c : ascii) :
  settled c = true -> isspace c = false -> in_range 97 122 c = true.
Proof. by_cases_on_char c. Qed.

Lemma forallb_str_impl (p q : ascii -> bool) (s : string) :
  (forall c, p c = true -> q c = true) ->
  forallb_str p s = true -> forallb_str q s = true.
Proof.
  intros Hpq. induction s as [|c s IH]; simpl; [reflexivity |].
  intros H. apply andb_true_iff in H as [Hc Hs]. now rewrite (Hpq c Hc), IH.
Qed.

Lemma lstrip_word (w rest : string) :
  is_empty w = false ->
  forallb_str (fun c => negb (isspace c)) w = true ->
  lstrip (w ++ rest) = w ++ rest.
Proof.
  destruct w as [|c w]; [discriminate |]. intros _ H. simpl in *.
  apply andb_true_iff in H as [Hc _]. apply negb_true_iff in Hc. now rewrite Hc.
Qed.

Lemma rstrip_word (a w : string) :
  is_empty w = false ->
  forallb_str (fun c => negb (isspace c)) w = true ->
  rstrip (a ++ w) = a ++ w.
Proof.
  intros Hne Hw. induction a as [|c a IH].
  - simpl. clear Hne. induction w as [|c w IH]; [reflexivity |].
    simpl in *. apply andb_true_iff in Hw as [Hc Hw]. apply negb_true_iff in Hc.
    now rewrite Hc, (IH Hw).
  - cbn [append rstrip]. rewrite IH, is_empty_app, Hne, andb_false_r, andb_false_r.
    reflexivity.
Qed.

(** The words of a list joined by single spaces: a last word with what
    precedes it. *)
Lemma join_last (xs : list string) :
  xs <> [] ->
  exists a w, join " " xs = a ++ w /\ In w xs.
Proof.
  induction xs as [|x xs IH]; [congruence |]. intros _.
  rewrite join_cons. destruct xs as [|y ys].
  - exists "", x. split; [reflexivity | now left].
  - destruct IH as (a & w & Ha & Hin); [discriminate |].
    exists (x ++ " " ++ a), w. split.
    + rewrite Ha. now rewrite !append_assoc.
    + now right.
Qed.

Lemma contains_cons (k : string) (c : ascii) (s : string) :
  contains k (String c s) = startswith k (String c s) || contains k s.
Proof. reflexivity. Qed.

Lemma startswith_double_space (c : ascii) (s : string) :
  startswith "  " (String c s) = Ascii.eqb " " c && startswith " " s.
Proof. destruct s; simpl; now rewrite ?andb_true_r. Qed.

Lemma contains_double_space_word (w rest : string) :
  forallb_str (fun c => negb (isspace c)) w = true ->
  contains "  " rest = false ->
  startswith " " rest = false ->
  contains "  " (w ++ " " ++ rest) = false.
Proof.
  intros Hw Hrest Hstart. induction w as [|c w IH].
  - change ("" ++ " " ++ rest) with (String " " rest).
    now rewrite contains_cons, startswith_double_space, Hstart, Hrest, andb_false_r.
  - simpl in Hw. apply andb_true_iff in Hw as [Hc Hw].
    change (String c w ++ " " ++ rest) with (String c (w ++ " " ++ rest)).
    rewrite contains_cons, (IH Hw), orb_false_r, startswith_double_space.
    destruct (Ascii.eqb_spec " "%char c) as [<- | Hne]; [discriminate | reflexivity].
Qed.

Lemma contains_double_space_plain (w : string) :
  forallb_str (fun c => negb (isspace c)) w = true ->
  contains "  " w = false.
Proof.
  induction w as [|c w IH]; [reflexivity |]. intros H. simpl in H.
  apply andb_true_iff in H as [Hc Hw].
  rewrite contains_cons, (IH Hw), orb_false_r, startswith_double_space.
  destruct (Ascii.eqb_spec " "%char c) as [<- | Hne]; [discriminate | reflexivity].
Qed.

Lemma startswith_space_word (w rest : string) :
  is_empty w = false ->
  forallb_str (fun c => negb (isspace c)) w = true ->
  startswith " " (w ++ rest) = false.
Proof.
  destruct w as [|c w]; [discriminate |]. intros _ H.
  cbn [forallb_str] in H. apply andb_true_iff in H as [Hc _].
  change (String c w ++ rest) with (String c (w ++ rest)).
  cbn [startswith]. rewrite andb_true_r.
  destruct (Ascii.eqb_spec " "%char c) as [<- | Hn]; [discriminate | reflexivity].
Qed.

Lemma join_no_double_space (xs : list string) :
  Forall (fun w => is_empty w = false) xs ->
  Forall (fun w => forallb_str (fun c => negb (isspace c)) w = true) xs ->
  contains "  " (join " " xs) = false /\ startswith " " (join " " xs) = false.
Proof.
  intros Hne Hns. induction xs as [|x xs IH]; [split; reflexivity |].
  inversion Hne as [|? ? Hx Hxs]; subst. inversion Hns as [|? ? Hx' Hxs']; subst.
  destruct (IH Hxs Hxs') as [IH1 IH2].
  rewrite join_cons. destruct xs as [|y ys].
  - split; [now apply contains_double_space_plain |].
    rewrite <- (append_empty_r x). now apply startswith_space_word.
  - split; [now apply contains_double_space_word | now apply startswith_space_word].
Qed.

(** The shape of normalised text: lowercase ASCII letters and single
    spaces only, no space at either end, no two spaces in a row. *)
Theorem preprocess_text_shape (text : string) :
  forallb_str (fun c => in_range 97 122 c || Ascii.eqb c " ") (preprocess_text text) = true /\
  strip (preprocess_text text) = preprocess_text text /\
  ~ Substring "  " (preprocess_text text).
Proof.
  unfold preprocess_text.
  set (u := remove_special (lower text)).
  assert (Hu : forallb_str settled u = true) by apply remove_special_settled.
  assert (Hne : Forall (fun w => is_empty w = false) (split u))
    by apply split_from_nonempty.
  assert (Hns : Forall (fun w => forallb_str (fun c => negb (isspace c)) w = true) (split u))
    by now apply split_from_no_space.
  assert (Hst : Forall (fun w => forallb_str settled w = true) (split u))
    by now apply split_from_forallb.
  split; [| split].
  - apply join_forallb; [reflexivity |].
    rewrite Forall_forall in *. intros w Hw.
    specialize (Hns w Hw). specialize (Hst w Hw). clear Hw.
    induction w as [|c w IH]; [reflexivity |]. simpl in *.
    apply andb_true_iff in Hns as [Hc Hns]. apply andb_true_iff in Hst as [Hc' Hst].
    apply negb_true_iff in Hc.
    now rewrite (settled_word_char c Hc' Hc), (IH Hns Hst).
  - unfold strip. destruct (split u) as [|x xs] eqn:E; [reflexivity |].
    assert (Hl : lstrip (join " " (x :: xs)) = join " " (x :: xs)).
    { inversion Hne; subst. inversion Hns; subst.
      rewrite join_cons. destruct xs; [| now apply lstrip_word].
      rewrite <- (append_empty_r x). now apply lstrip_word. }
    rewrite Hl.
    destruct (join_last (x :: xs)) as (a & w & -> & Hin); [discriminate |].
    rewrite Forall_forall in Hne, Hns. now apply rstrip_word; auto.
  - apply contains_false. now apply join_no_double_space.
Qed.

Lemma remove_special_lower_settled (text : string) :
  remove_special (lower (remove_special (lower text))) = remove_special (lower text).
Proof.
  pose proof (remove_special_settled text) as H.
  now rewrite (lower_settled _ H), (remove_special_settled_id _ H).
Qed.

(** Normalisation does not see the case of the text, nor, once the text
    is lowercased, the characters it deletes: lowercasing first, or
    lowercasing and deleting first, changes nothing. *)
Theorem preprocess_text_insensitive (text : string) :
  preprocess_text (lower text) = preprocess_text text /\
  preprocess_text (remove_special (lower text)) = preprocess_text text.
Proof.
  unfold preprocess_text. split.
  - now rewrite lower_idem.
  - now rewrite remove_special_lower_settled.
Qed.

Lemma preprocess_text_fixed (x : string) :
  preprocess_text (preprocess_text x) = preprocess_text x.
Proof.
  unfold preprocess_text at 2.
  set (u := remove_special (lower x)).
  assert (Hu : forallb_str settled u = true) by apply remove_special_settled.
  assert (Hy : forallb_str settled (join " " (split u)) = true).
  { apply join_forallb; [reflexivity |]. now apply split_from_forallb. }
  unfold preprocess_text.
  rewrite (lower_settled _ Hy), (remove_special_settled_id _ Hy).
  rewrite split_join; [reflexivity | apply split_from_nonempty |].
  now apply split_from_no_space.
Qed.

(** [predict] sees a text only through its normal form: the prediction
    for a text, for its lowercase and for its normal form are the same,
    whatever the state of the classifier. *)
Theorem predict_on_normal_form (self : ComplaintClassifier) (text : string) :
  predict self (preprocess_text text) = predict self text /\
  predict self (lower text) = predict self text.
Proof.
  unfold predict. destruct (pipeline self) as [pl|]; [| split; reflexivity].
  assert (H : preprocess_text (lower text) = preprocess_text text)
    by (unfold preprocess_text; now rewrite lower_idem).
  rewrite preprocess_text_fixed, H. split; reflexivity.
Qed.

(** The priority does not depend on the case of the text. *)
Theorem predict_priority_case_insensitive (text category : string) :
  predict_priority (lower text) category = predict_priority text category.
Proof. unfold predict_priority. now rewrite lower_idem. Qed.

Lemma substring_extend (k s pre post : string) :
  Substring k s -> Substring k (pre ++ s ++ post).
Proof.
  intros (a & b & ->). exists (pre ++ a), (b ++ post).
  now rewrite !append_assoc.
Qed.

Lemma mentions_extend (keywords : list string) (t pre post : string) :
  mentions keywords (lower t) -> mentions keywords (lower (pre ++ t ++ post)).
Proof.
  intros (k & Hin & Hs). exists k. split; [assumption |].
  rewrite !lower_append. now apply substring_extend.
Qed.

Lemma mentions_dec (keywords : list string) (text : string) :
  mentions keywords text \/ ~ mentions keywords text.
Proof.
  rewrite mentions_existsb. destruct (existsb _ keywords); [now left | right; discriminate].
Qed.

(** Text added before or after a complaint never lowers its priority: a
    High complaint stays High, a Medium one does not become Low. *)
Theorem predict_priority_extension (pre text post category : string) :
  (predict_priority text category = "High" ->
   predict_priority (pre ++ text ++ post) category = "High") /\
  (predict_priority text category = "Medium" ->
   predict_priority (pre ++ text ++ post) category <> "Low").
Proof.
  unfold predict_priority.
  destruct (mentions_dec high_priority_keywords (lower text)) as [Hh | Hh].
  - pose proof (mentions_extend _ _ pre post Hh) as Hh'.
    rewrite (scan_keywords_hit _ _ _ _ Hh'). split; [reflexivity | discriminate].
  - rewrite (scan_keywords_miss _ _ _ _ Hh).
    destruct (mentions_dec medium_priority_keywords (lower text)) as [Hm | Hm].
    + rewrite (scan_keywords_hit _ _ _ _ Hm). split; [discriminate |]. intros _.
      pose proof (mentions_extend _ _ pre post Hm) as Hm'.
      destruct (mentions_dec high_priority_keywords (lower (pre ++ text ++ post)))
        as [Hh' | Hh'].
      * rewrite (scan_keywords_hit _ _ _ _ Hh'). discriminate.
      * rewrite (scan_keywords_miss _ _ _ _ Hh'), (scan_keywords_hit _ _ _ _ Hm').
        discriminate.
    + rewrite (scan_keywords_miss _ _ _ _ Hm). split; discriminate.
Qed.

Lemma predict_priority_extension_witness :
  predict_priority ("Reported twice. " ++ "Water pipe burst" ++ " near the park") "Water Supply"
    = "High" /\
  predict_priority ("Again: " ++ "poor lighting" ++ " at night") "Electricity" <> "Low".
Proof.
  split.
  - apply (proj1 (predict_priority_extension _ _ _ _)). reflexivity.
  - apply (proj2 (predict_priority_extension _ _ _ _)). reflexivity.
Defined.

End TextFacts.

(** ** Model files *)

Module PersistenceFacts.
Import Sklearn.
Import PyStr Classifier Service Persistence NormalizerFacts.

Lemma usable_path_some (mp : option string) (path : string) :
  usable_path mp = Some path <-> mp = Some path /\ path <> "".
Proof.
  unfold usable_path. destruct mp as [q|].
  - destruct q as [|c q]; simpl; split.
    + discriminate.
    + intros [H Hne]. injection H as <-. now elim Hne.
    + intros H. injection H as <-. split; [reflexivity | discriminate].
    + intros [H _]. exact H.
  - split; [discriminate | intros [H _]; discriminate].
Qed.


Lemma file_write_file (fs : FileSystem) (path : string) (c : Content) :
  file (write_file fs path c) path = Some c.
Proof. unfold write_file. simpl. now rewrite String.eqb_refl. Qed.

Lemma file_write_file_other (fs : FileSystem) (path q : string) (c : Content) :
  q <> path -> file (write_file fs path c) q = file fs q.
Proof. intros Hq. simpl. apply String.eqb_neq in Hq. now rewrite Hq. Qed.



(** Save and load round trip: a pipeline that [train] has saved is the
    pipeline a new classifier on the same path loads. *)
Theorem train_then_load_model (self : ComplaintClassifier) (fitted : Pipeline)
  (fs : FileSystem) (path : string) :
  model_path self = Some path ->
  path <> "" ->
  dir_exists fs path = true ->
  exists fs',
    train self fitted true fs = (Ok tt, with_pipeline self fitted, fs') /\
    load_model (init (Some path)) fs' = Ok (with_pipeline (init (Some path)) fitted) /\
    (forall q, q <> path -> file fs' q = file fs q).
Proof.
  intros Hmp Hne Hdir.
  assert (Hu : usable_path (Some path) = Some path) by now apply usable_path_some.
  exists (write_file fs path (Pickled (Some fitted))). unfold train, load_model.
  rewrite Hmp, Hu, Hdir. cbn [model_path init]. rewrite Hu, file_write_file.
  repeat split.
  intros q Hq. now apply file_write_file_other.
Qed.

Lemma train_then_load_model_witness :
  exists fs',
    train (init (Some "model.pkl")) Claims.balanced_pipeline true blank_fs =
      (Ok tt, with_pipeline (init (Some "model.pkl")) Claims.balanced_pipeline, fs') /\
    load_model (init (Some "model.pkl")) fs' =
      Ok (with_pipeline (init (Some "model.pkl")) Claims.balanced_pipeline) /\
    (forall q, q <> "model.pkl" -> file fs' q = None).
Proof.
  apply (train_then_load_model (init (Some "model.pkl")) Claims.balanced_pipeline
           blank_fs "model.pkl").
  - reflexivity.
  - discriminate.
  - reflexivity.
Defined.

(** [train] always leaves the fitted pipeline in the classifier, also
    when saving raises, and opens no file unless asked to save to a
    non-empty path.  When it raises, no other path is touched, and the
    model path holds what it held (the file could not be opened) or a file
    that no longer unpickles (it was emptied before the dump failed). *)
Theorem train_keeps_pipeline (self : ComplaintClassifier) (fitted : Pipeline)
  (save_model : bool) (fs : FileSystem) :
  pipeline (snd (fst (train self fitted save_model fs))) = Some fitted /\
  (save_model = false \/ model_path self = None \/ model_path self = Some "" ->
   train self fitted save_model fs = (Ok tt, with_pipeline self fitted, fs)) /\
  (forall e, fst (fst (train self fitted save_model fs)) = Raise e ->
     exists path,
       model_path self = Some path /\
       (forall q, q <> path ->
          file (snd (train self fitted save_model fs)) q = file fs q) /\
       (file (snd (train self fitted save_model fs)) path = file fs path \/
        file (snd (train self fitted save_model fs)) path = Some Empty \/
        exists msg, file (snd (train self fitted save_model fs)) path = Some (Junk msg))).
Proof.
  unfold train. split; [| split].
  - destruct (if save_model then usable_path (model_path self) else None) as [path|];
      [destruct (dir_exists fs path); [| destruct (save_failure fs path)] |]; reflexivity.
  - intros [-> | [H | H]]; [reflexivity | |]; rewrite H; destruct save_model; reflexivity.
  - intros e.
    destruct save_model; [| discriminate].
    destruct (usable_path (model_path self)) as [path|] eqn:E; [| discriminate].
    apply usable_path_some in E as [Hmp Hne].
    destruct (dir_exists fs path); [discriminate |].
    destruct (save_failure fs path) as [e' | e' partly]; cbn [fst snd]; intros _;
      exists path; split; try assumption.
    + split; [reflexivity | now left].
    + split; [intros q Hq; now apply file_write_file_other |].
      rewrite file_write_file. right. destruct partly; simpl; [right; now eexists | now left].
Qed.

Lemma train_keeps_pipeline_witness :
  exists path,
    model_path (init (Some "model.pkl")) = Some path /\
    (forall q, q <> path ->
       file (snd (train (init (Some "model.pkl")) Claims.balanced_pipeline true
                    (full_disk_fs "model.pkl" (Pickled (Some Claims.foreign_pipeline)))))
         q =
       file (full_disk_fs "model.pkl" (Pickled (Some Claims.foreign_pipeline))) q) /\
    (file (snd (train (init (Some "model.pkl")) Claims.balanced_pipeline true
                  (full_disk_fs "model.pkl" (Pickled (Some Claims.foreign_pipeline)))))
       path =
     file (full_disk_fs "model.pkl" (Pickled (Some Claims.foreign_pipeline))) path \/
     file (snd (train (init (Some "model.pkl")) Claims.balanced_pipeline true
                  (full_disk_fs "model.pkl" (Pickled (Some Claims.foreign_pipeline)))))
       path = Some Empty \/
     exists msg,
       file (snd (train (init (Some "model.pkl")) Claims.balanced_pipeline true
                    (full_disk_fs "model.pkl" (Pickled (Some Claims.foreign_pipeline)))))
         path = Some (Junk msg)).
Proof.
  apply (proj2 (proj2 (train_keeps_pipeline (init (Some "model.pkl"))
                         Claims.balanced_pipeline true
                         (full_disk_fs "model.pkl"
                            (Pickled (Some Claims.foreign_pipeline)))))
           (OSError "No space left on device")).
  reflexivity.
Defined.

(** What the constructor of the service leaves behind. *)
Lemma service_init_cases (mp : string) (fitted : Pipeline) (fs : FileSystem) :
  (exists obj, mp <> "" /\ file fs mp = Some (Pickled obj) /\
     service_init mp fitted fs =
       (Ok {| classifier := set_pipeline (init (Some mp)) obj |}, fs)) \/
  (path_exists fs mp = false /\ (mp = "" \/ dir_exists fs mp = true) /\
   service_init mp fitted fs =
     (Ok {| classifier := with_pipeline (init (Some mp)) fitted |},
      if is_empty mp then fs else write_file fs mp (Pickled (Some fitted)))) \/
  (exists e fs', service_init mp fitted fs = (Raise e, fs')).
Proof.
  unfold service_init, path_exists, load_model, train.
  cbn [model_path init usable_path].
  destruct mp as [|c mp]; cbn [is_empty negb andb].
  - right. left. repeat split. now left.
  - destruct (file fs (String c mp)) as [[obj | | | msg]|] eqn:Ef.
    + left. exists obj. repeat split. discriminate.
    + right. right. eexists. eexists. reflexivity.
    + right. right. eexists. eexists. reflexivity.
    + right. right. eexists. eexists. reflexivity.
    + right. destruct (dir_exists fs (String c mp)) eqn:Ed.
      * left. repeat split. now right.
      * right. destruct (save_failure fs (String c mp)); eexists; eexists; reflexivity.
Qed.

(** A service whose constructor returned holds the newly fitted pipeline
    when no model file existed, and whatever the model file pickled when
    one did.  So when the file was absent or held a pipeline, [predict]
    never reports a missing model; a model file that pickles [None] leaves
    the service without a model. *)
Theorem service_init_has_model (mp : string) (fitted : Pipeline) (fs fs' : FileSystem)
  (svc : ComplaintService) :
  service_init mp fitted fs = (Ok svc, fs') ->
  (path_exists fs mp = false -> pipeline (classifier svc) = Some fitted) /\
  (forall obj, mp <> "" -> file fs mp = Some (Pickled obj) ->
               pipeline (classifier svc) = obj) /\
  (path_exists fs mp = false \/ (exists p, file fs mp = Some (Pickled (Some p))) ->
   forall text,
     predict (classifier svc) text <> Raise (ValueError "Model not trained or loaded")) /\
  (mp <> "" -> file fs mp = Some (Pickled None) ->
   forall text,
     predict (classifier svc) text = Raise (ValueError "Model not trained or loaded")).
Proof.
  intros H.
  assert (Habsent : path_exists fs mp = false -> pipeline (classifier svc) = Some fitted).
  { intros Hn.
    destruct (service_init_cases mp fitted fs)
      as [(obj & Hne & Hf & E) | [(_ & _ & E) | (e & g & E)]];
      rewrite E in H; [| | discriminate]; injection H as <- _; [| reflexivity].
    unfold path_exists in Hn. rewrite Hf in Hn.
    destruct mp; [now elim Hne | discriminate]. }
  assert (Hfile : forall obj, mp <> "" -> file fs mp = Some (Pickled obj) ->
                              pipeline (classifier svc) = obj).
  { intros obj Hne Hf.
    destruct (service_init_cases mp fitted fs)
      as [(obj' & _ & Hf' & E) | [(Hn & _ & E) | (e & g & E)]];
      rewrite E in H; [| | discriminate]; injection H as <- _.
    - rewrite Hf in Hf'. now injection Hf' as <-.
    - unfold path_exists in Hn. rewrite Hf in Hn.
      destruct mp; [now elim Hne | discriminate]. }
  assert (Hpred : forall p text, pipeline (classifier svc) = Some p ->
            predict (classifier svc) text <> Raise (ValueError "Model not trained or loaded")).
  { intros p text Hp. unfold predict. rewrite Hp. unfold py_max.
    destruct (Sklearn.predict_proba p (preprocess_text text)); discriminate. }
  split; [assumption |]. split; [assumption |]. split.
  - intros [Hn | [p Hf]] text.
    + apply (Hpred fitted). now apply Habsent.
    + destruct (String.eqb_spec mp "") as [-> | Hne].
      * apply (Hpred fitted). now apply Habsent.
      * apply (Hpred p). now apply Hfile.
  - intros Hne Hf text. unfold predict. now rewrite (Hfile None Hne Hf).
Qed.

Lemma service_init_has_model_witness :
  predict (classifier {| classifier :=
                           set_pipeline (init (Some "model.pkl"))
                             (Some Claims.balanced_pipeline) |}) "No water supply"
    <> Raise (ValueError "Model not trained or loaded") /\
  predict (classifier {| classifier := set_pipeline (init (Some "model.pkl")) None |})
    "No water supply" = Raise (ValueError "Model not trained or loaded").
Proof.
  split.
  - apply (proj1 (proj2 (proj2 (service_init_has_model "model.pkl" Claims.foreign_pipeline
                    (full_disk_fs "model.pkl" (Pickled (Some Claims.balanced_pipeline)))
                    (full_disk_fs "model.pkl" (Pickled (Some Claims.balanced_pipeline)))
                    {| classifier :=
                         set_pipeline (init (Some "model.pkl"))
                           (Some Claims.balanced_pipeline) |}
                    eq_refl)))).
    right. now exists Claims.balanced_pipeline.
  - apply (proj2 (proj2 (proj2 (service_init_has_model "model.pkl" Claims.foreign_pipeline
                    (full_disk_fs "model.pkl" (Pickled None))
                    (full_disk_fs "model.pkl" (Pickled None))
                    {| classifier := set_pipeline (init (Some "model.pkl")) None |}
                    eq_refl)))).
    + discriminate.
    + reflexivity.
Defined.

(** The model is trained once and reused: after a first construction on a
    non-empty path, a second construction loads the pipeline the first one
    held, whatever a new fit would give, and writes nothing. *)
Theorem service_init_reuses_model (mp : string) (fitted fitted' : Pipeline)
  (fs fs' : FileSystem) (svc : ComplaintService) :
  mp <> "" ->
  service_init mp fitted fs = (Ok svc, fs') ->
  service_init mp fitted' fs' = (Ok svc, fs').
Proof.
  intros Hne H.
  assert (Hload : forall obj g, file g mp = Some (Pickled obj) ->
            service_init mp fitted' g =
              (Ok {| classifier := set_pipeline (init (Some mp)) obj |}, g)).
  { intros obj g Hf. unfold service_init, path_exists, load_model.
    cbn [model_path init usable_path].
    destruct mp as [|c m]; [now elim Hne |].
    cbn [is_empty negb andb]. now rewrite Hf. }
  destruct (service_init_cases mp fitted fs)
    as [(obj & _ & Hf & E) | [(Hn & _ & E) | (e & g & E)]];
    rewrite E in H; [| | discriminate]; injection H as <- <-.
  - now apply Hload.
  - destruct mp as [|c mp]; [now elim Hne |]. cbn [is_empty].
    apply (Hload (Some fitted)). apply file_write_file.
Qed.

Lemma service_init_reuses_model_witness :
  service_init "model.pkl" Claims.foreign_pipeline
    (write_file blank_fs "model.pkl" (Pickled (Some Claims.balanced_pipeline))) =
  (Ok {| classifier := with_pipeline (init (Some "model.pkl")) Claims.balanced_pipeline |},
   write_file blank_fs "model.pkl" (Pickled (Some Claims.balanced_pipeline))).
Proof.
  apply (service_init_reuses_model "model.pkl" Claims.balanced_pipeline
           Claims.foreign_pipeline blank_fs).
  - discriminate.
  - reflexivity.
Defined.

End PersistenceFacts.

(** ** Registration *)

Module AccountsFacts.
Import Storage Service Accounts.

Lemma max_id_ge {R : Type} (key : R -> Z) (rows : list R) :
  (0 <= max_id key rows)%Z /\ Forall (fun r => (key r <= max_id key rows)%Z) rows.
Proof.
  unfold max_id. induction rows as [|r rows [IH0 IH]]; simpl.
  - split; [lia | constructor].
  - split; [lia |]. constructor; [lia |].
    eapply Forall_impl; [| exact IH]. cbn beta. intros a Ha. lia.
Qed.

Lemma NoDup_app_fresh {A : Type} (xs : list A) (x : A) :
  NoDup xs -> ~ In x xs -> NoDup (xs ++ [x]).
Proof.
  intros Hnd Hx. induction Hnd as [|y ys Hy Hnd IH]; simpl.
  - constructor; [intros [] | constructor].
  - constructor.
    + rewrite in_app_iff. intros [H | [H | []]]; [now apply Hy |].
      subst. apply Hx. now left.
    + apply IH. intros H. apply Hx. now right.
Qed.

Lemma registered_in (st : Store) (email : string) :
  registered st email = true <-> In email (map usr_email (tbl_users st)).
Proof.
  unfold registered. rewrite existsb_exists, in_map_iff. split.
  - intros (r & Hin & He). apply String.eqb_eq in He. now exists r.
  - intros (r & He & Hin). exists r. split; [assumption | now apply String.eqb_eq].
Qed.

Lemma register_user_cases (sha256 : string -> string) (env : Env) (st : Store)
  (name email password role : string) :
  ((fault env <> None \/ registered st email = true) /\
   register_user sha256 env st name email password role = ((-1)%Z, st)) \/
  (fault env = None /\ registered st email = false /\
   exists id,
     (1 <= id)%Z /\
     Forall (fun r => (usr_user_id r < id)%Z) (tbl_users st) /\
     register_user sha256 env st name email password role =
       (id,
        {| core := core st;
           tbl_users :=
             (tbl_users st ++
              [ {| usr_user_id := id; usr_name := name; usr_email := email;
                   usr_password_hash := sha256 password; usr_role := Some role;
                   usr_created_at := now env |} ])%list;
           seq_users := id |})).
Proof.
  unfold register_user, insert_user, registered.
  destruct (fault env) as [e|] eqn:Hf.
  { left. split; [left; discriminate | reflexivity]. }
  destruct (existsb _ (tbl_users st)) eqn:Hr.
  { left. split; [now right | reflexivity]. }
  right. repeat split.
  destruct (max_id_ge usr_user_id (tbl_users st)) as [H0 Hall].
  exists (Z.max (seq_users st) (max_id usr_user_id (tbl_users st)) + 1)%Z.
  split; [lia |]. split; [| reflexivity].
  eapply Forall_impl; [| exact Hall]. cbn beta. intros r Hr'. lia.
Qed.

(** [register_user] returns -1 exactly when it has stored nothing: the
    storage failed or the e-mail address is already registered.  Otherwise
    it returns a positive identifier greater than every earlier one and has
    appended one user with the given name, address and role and the digest
    of the password. *)
Theorem register_user_outcome (sha256 : string -> string) (env : Env) (st : Store)
  (name email password role : string) :
  (fault env <> None \/ registered st email = true ->
   register_user sha256 env st name email password role = ((-1)%Z, st)) /\
  (fault env = None -> registered st email = false ->
   exists id,
     (1 <= id)%Z /\
     Forall (fun r => (usr_user_id r < id)%Z) (tbl_users st) /\
     register_user sha256 env st name email password role =
       (id,
        {| core := core st;
           tbl_users :=
             (tbl_users st ++
              [ {| usr_user_id := id; usr_name := name; usr_email := email;
                   usr_password_hash := sha256 password; usr_role := Some role;
                   usr_created_at := now env |} ])%list;
           seq_users := id |})).
Proof.
  destruct (register_user_cases sha256 env st name email password role)
    as [[Hc E] | (Hf & Hr & H)]; split.
  - intros _. exact E.
  - intros Hf Hr. destruct Hc; congruence.
  - intros [Hf' | Hr']; congruence.
  - intros _ _. exact H.
Qed.

Lemma register_user_outcome_witness :
  register_user (fun p => p) (Claims.at_time 9)
    {| core := seeded_db;
       tbl_users :=
         [ {| usr_user_id := 1; usr_name := "John Doe"; usr_email := "john@example.com";
              usr_password_hash := "x"; usr_role := Some "citizen"; usr_created_at := 1 |} ];
       seq_users := 1 |}
    "Johnny" "john@example.com" "secret" default_role =
  ((-1)%Z,
   {| core := seeded_db;
      tbl_users :=
        [ {| usr_user_id := 1; usr_name := "John Doe"; usr_email := "john@example.com";
             usr_password_hash := "x"; usr_role := Some "citizen"; usr_created_at := 1 |} ];
      seq_users := 1 |}).
Proof.
  apply (proj1 (register_user_outcome _ _ _ _ _ _ _)).
  right. reflexivity.
Defined.

(** Registrations keep user identifiers and e-mail addresses pairwise
    distinct, and never touch the complaint tables. *)
Theorem register_user_keeps_users_distinct (sha256 : string -> string) (env : Env)
  (st : Store) (name email password role : string) :
  NoDup (map usr_user_id (tbl_users st)) ->
  NoDup (map usr_email (tbl_users st)) ->
  NoDup (map usr_user_id
           (tbl_users (snd (register_user sha256 env st name email password role)))) /\
  NoDup (map usr_email
           (tbl_users (snd (register_user sha256 env st name email password role)))) /\
  core (snd (register_user sha256 env st name email password role)) = core st.
Proof.
  intros Hid Hem.
  destruct (register_user_cases sha256 env st name email password role)
    as [[_ ->] | (Hf & Hr & id & _ & Hlt & ->)].
  { auto. }
  cbn [snd tbl_users core]. rewrite !map_app. cbn [map].
  split; [| split; [| reflexivity]].
  - apply NoDup_app_fresh; [assumption |].
    rewrite in_map_iff. intros (r & Hr' & Hin).
    rewrite Forall_forall in Hlt. specialize (Hlt r Hin). simpl in Hr'. lia.
  - apply NoDup_app_fresh; [assumption |].
    intros Hin. cbn [usr_email] in Hin. apply registered_in in Hin. congruence.
Qed.

Lemma two_users_distinct :
  NoDup (map usr_user_id (tbl_users two_users)) /\
  NoDup (map usr_email (tbl_users two_users)).
Proof.
  split; simpl; repeat constructor; simpl; intuition discriminate.
Qed.

Lemma register_user_keeps_users_distinct_witness :
  map usr_email
    (tbl_users (snd (register_user (fun p => p) (Claims.at_time 9) two_users
                       "Jim Roe" "jim@example.com" "secret" default_role))) =
    ["john@example.com"; "jane@example.com"; "jim@example.com"] /\
  NoDup (map usr_email
           (tbl_users (snd (register_user (fun p => p) (Claims.at_time 9) two_users
                              "Jim Roe" "jim@example.com" "secret" default_role)))) /\
  map usr_email
    (tbl_users (snd (register_user (fun p => p) (Claims.at_time 9) two_users
                       "Jane Again" "jane@example.com" "secret" default_role))) =
    ["john@example.com"; "jane@example.com"] /\
  NoDup (map usr_user_id
           (tbl_users (snd (register_user (fun p => p) (Claims.at_time 9) two_users
                              "Jane Again" "jane@example.com" "secret" default_role)))).
Proof.
  destruct (register_user_keeps_users_distinct (fun p => p) (Claims.at_time 9) two_users
              "Jim Roe" "jim@example.com" "secret" default_role
              (proj1 two_users_distinct) (proj2 two_users_distinct)) as (_ & H2 & _).
  destruct (register_user_keeps_users_distinct (fun p => p) (Claims.at_time 9) two_users
              "Jane Again" "jane@example.com" "secret" default_role
              (proj1 two_users_distinct) (proj2 two_users_distinct)) as (H1 & _ & _).
  split; [reflexivity |]. split; [exact H2 |]. split; [reflexivity | exact H1].
Defined.

End AccountsFacts.

(** ** Identifiers, routing and status updates *)

Module RoutingFacts.
Import Sklearn.
Import PyStr Classifier Storage Service Spec Claims Accounts Reports Routing.
Import ServiceFacts AccountsFacts.

(** The whole effect of a submission that has a prediction and a working
    storage. *)
Lemma submit_complaint_effect (self : ComplaintService) (env : Env) (db : Database)
  (u : Z) (t d : string) (l : option string) (c : string) (q : Q) :
  fault env = None ->
  predict (classifier self) d = Ok (c, q) ->
  submit_complaint self u t d l env db =
    (Ok {| sub_complaint_id := Some (next_complaint_id db); sub_category := c;
           sub_priority := predict_priority d c; sub_confidence := q;
           sub_status := "Submitted" |},
     {| tbl_categories := tbl_categories db;
        tbl_departments := tbl_departments db;
        tbl_complaints :=
          (tbl_complaints db ++
           [ {| complaint_id := next_complaint_id db; user_id := u; title := t;
                description := d; location := l;
                category_id := resolved_category db c;
                priority := Some (predict_priority d c); status := Some "Submitted";
                created_at := now env; updated_at := now env |} ])%list;
        tbl_assignments :=
          (tbl_assignments db ++
           match routed_department db c with
           | Some did =>
               [ {| asg_assignment_id := next_assignment_id db;
                    asg_complaint_id := next_complaint_id db;
                    asg_department_id := did; asg_assigned_at := now env |} ]
           | None => []
           end)%list;
        seq_complaints := next_complaint_id db;
        seq_assignments :=
          match routed_department db c with
          | Some _ => next_assignment_id db
          | None => seq_assignments db
          end |}).
Proof.
  intros Hf Hp.
  unfold submit_complaint, bind, lift, query, update, ret, execute_query, execute_update.
  rewrite Hp, Hf. cbn [fst snd].
  unfold routed_department, resolved_category, next_complaint_id, next_assignment_id.
  destruct (map cat_category_id
              (filter (fun r => String.eqb (cat_name r) c) (tbl_categories db)))
    as [|cid cids]; cbn [hd_error truthy].
  - now rewrite app_nil_r.
  - destruct (cid =? 0)%Z; cbn [negb].
    + now rewrite app_nil_r.
    + cbn [tbl_departments].
      destruct (map dept_department_id
                  (filter (fun r => option_Z_eqb (dept_category_id r) cid)
                     (tbl_departments db))) as [|did dids];
        repeat (cbn beta iota; rewrite ?Hf); cbn [hd_error].
      * now rewrite app_nil_r.
      * reflexivity.
Qed.

(** A submission that completes had a prediction and a working storage. *)
Lemma submit_complaint_completes (self : ComplaintService) (env : Env) (db db' : Database)
  (u : Z) (t d : string) (l : option string) (sub : Submission) :
  submit_complaint self u t d l env db = (Ok sub, db') ->
  fault env = None /\
  predict (classifier self) d = Ok (sub_category sub, sub_confidence sub).
Proof.
  intros H.
  destruct (predict (classifier self) d) as [[c q]|e] eqn:Hp.
  - destruct (fault env) as [e|] eqn:Hf.
    + destruct (submit_complaint_fault self env db u t d l e Hf) as [e' He'].
      rewrite He' in H. discriminate.
    + rewrite (submit_complaint_effect self env db u t d l c q Hf Hp) in H.
      injection H as <- _. auto.
  - rewrite (submit_complaint_no_prediction self env db u t d l e Hp) in H. discriminate.
Qed.

Lemma max_id_app {R : Type} (key : R -> Z) (xs ys : list R) :
  max_id key (xs ++ ys) = Z.max (max_id key xs) (max_id key ys).
Proof.
  unfold max_id. induction xs as [|x xs IH]; simpl.
  - destruct (max_id_ge key ys) as [H _]. unfold max_id in H. lia.
  - rewrite IH. lia.
Qed.

Lemma next_complaint_id_fresh (db : Database) :
  (1 <= next_complaint_id db)%Z /\
  Forall (fun r => (complaint_id r < next_complaint_id db)%Z) (tbl_complaints db).
Proof.
  unfold next_complaint_id.
  destruct (max_id_ge complaint_id (tbl_complaints db)) as [H0 Hall].
  split; [lia |]. eapply Forall_impl; [| exact Hall]. cbn beta. intros r Hr. lia.
Qed.

(** Identifiers are fresh and consecutive: a completed submission returns
    an identifier that is positive and greater than that of every stored
    complaint, and the next completed submission returns the one after
    it. *)
Theorem submit_complaint_identifiers (self : ComplaintService) (env env2 : Env)
  (db db1 db2 : Database) (u u2 : Z) (t d t2 d2 : string) (l l2 : option string)
  (sub sub2 : Submission) :
  submit_complaint self u t d l env db = (Ok sub, db1) ->
  submit_complaint self u2 t2 d2 l2 env2 db1 = (Ok sub2, db2) ->
  exists id,
    sub_complaint_id sub = Some id /\
    (1 <= id)%Z /\
    Forall (fun r => (complaint_id r < id)%Z) (tbl_complaints db) /\
    sub_complaint_id sub2 = Some (id + 1)%Z.
Proof.
  intros H H2. destruct (submit_complaint_completes _ _ _ _ _ _ _ _ _ H) as [Hf Hp].
  rewrite (submit_complaint_effect self env db u t d l _ _ Hf Hp) in H.
  injection H as <- <-.
  destruct (next_complaint_id_fresh db) as [H1 Hlt].
  exists (next_complaint_id db). repeat split; try assumption.
  destruct (submit_complaint_completes _ _ _ _ _ _ _ _ _ H2) as [Hf2 Hp2].
  rewrite (submit_complaint_effect self env2 _ u2 t2 d2 l2 _ _ Hf2 Hp2) in H2.
  injection H2 as <- _. cbn [sub_complaint_id]. f_equal.
  unfold next_complaint_id at 1. cbn [seq_complaints tbl_complaints].
  rewrite max_id_app. unfold max_id at 2. cbn [fold_right complaint_id].
  destruct (max_id_ge complaint_id (tbl_complaints db)) as [H0 _].
  unfold next_complaint_id in *. lia.
Qed.

Lemma submit_complaint_identifiers_witness :
  exists id,
    Some 1%Z = Some id /\
    (1 <= id)%Z /\
    Forall (fun r => (complaint_id r < id)%Z) (tbl_complaints seeded_db) /\
    Some 2%Z = Some (id + 1)%Z.
Proof.
  eassert (E1 : submit_complaint (service_with foreign_pipeline) 7 "Loud music"
                  "Loud music at night" None (at_time 100) seeded_db = (Ok _, _))
    by (vm_compute; reflexivity).
  match type of E1 with
  | _ = (_, ?db1) =>
      eassert (E2 : submit_complaint (service_with foreign_pipeline) 8 "Dog"
                      "Barking dog" None (at_time 101) db1 = (Ok _, _))
        by (vm_compute; reflexivity)
  end.
  exact (submit_complaint_identifiers _ _ _ _ _ _ _ _ _ _ _ _ _ _ _ _ E1 E2).
Defined.

Lemma submit_complaint_ids (self : ComplaintService) (env : Env) (db : Database)
  (u : Z) (t d : string) (l : option string) :
  complaint_ids (snd (submit_complaint self u t d l env db)) = complaint_ids db \/
  complaint_ids (snd (submit_complaint self u t d l env db)) =
    (complaint_ids db ++ [next_complaint_id db])%list.
Proof.
  destruct (predict (classifier self) d) as [[c q]|e] eqn:Hp.
  - destruct (fault env) as [e|] eqn:Hf.
    + destruct (submit_complaint_fault self env db u t d l e Hf) as [e' ->]. now left.
    + rewrite (submit_complaint_effect self env db u t d l c q Hf Hp).
      right. unfold complaint_ids. cbn [snd tbl_complaints]. now rewrite map_app.
  - rewrite (submit_complaint_no_prediction self env db u t d l e Hp). now left.
Qed.

Lemma update_complaint_status_ids (self : ComplaintService) (env : Env) (db : Database)
  (id : Z) (s : string) :
  complaint_ids (snd (update_complaint_status self id s env db)) = complaint_ids db.
Proof.
  rewrite update_complaint_status_eq. unfold complaint_ids.
  destruct (fault env); cbn [snd tbl_complaints]; [reflexivity |].
  rewrite map_map. apply map_ext. intros r.
  now destruct (complaint_id r =? id)%Z.
Qed.

(** Complaint identifiers stay pairwise distinct under every sequence of
    submissions and status updates. *)
Theorem complaint_ids_stay_distinct (self : ComplaintService)
  (calls : list (Env * Call)) (db : Database) :
  NoDup (complaint_ids db) ->
  NoDup (complaint_ids (run_calls self calls db)).
Proof.
  revert db. induction calls as [|[env c] calls IH]; intros db Hdb; [assumption |].
  cbn [run_calls]. apply IH. destruct c as [u t d l | id s]; cbn [run_call].
  - destruct (submit_complaint_ids self env db u t d l) as [-> | ->]; [assumption |].
    apply NoDup_app_fresh; [assumption |].
    unfold complaint_ids. rewrite in_map_iff. intros (r & Hr & Hin).
    destruct (next_complaint_id_fresh db) as [_ Hlt].
    rewrite Forall_forall in Hlt. specialize (Hlt r Hin). lia.
  - now rewrite update_complaint_status_ids.
Qed.

Lemma complaint_ids_stay_distinct_witness :
  NoDup (complaint_ids
           (run_calls (service_with balanced_pipeline)
              [ (at_time 1, Submit 7 "Pothole" "Large pothole on main road" None);
                (at_time 2, SetStatus 1 "In Progress");
                (at_time 3, Submit 7 "Lights" "Street lights not working" None) ]
              seeded_db)).
Proof.
  apply complaint_ids_stay_distinct. constructor.
Defined.

Lemma hd_error_filter_in {R : Type} (key : R -> Z) (p : R -> bool) (rows : list R) (k : Z) :
  hd_error (map key (filter p rows)) = Some k ->
  exists r, In r rows /\ p r = true /\ key r = k.
Proof.
  destruct (filter p rows) as [|r rs] eqn:E; [discriminate |].
  cbn [map hd_error]. intros H. injection H as <-.
  assert (Hin : In r (filter p rows)) by (rewrite E; now left).
  apply filter_In in Hin as [Hin Hp]. now exists r.
Qed.

(** A completed submission appends exactly one complaint and at most one
    assignment.  The assignment links the new complaint to a department
    that exists and whose category is the complaint's; there is none
    exactly when the predicted name is routed to no department. *)
Theorem submit_complaint_assignment (self : ComplaintService) (env : Env)
  (db db' : Database) (u : Z) (t d : string) (l : option string) (sub : Submission) :
  submit_complaint self u t d l env db = (Ok sub, db') ->
  exists row,
    tbl_complaints db' = (tbl_complaints db ++ [row])%list /\
    tbl_categories db' = tbl_categories db /\
    tbl_departments db' = tbl_departments db /\
    (routed_department db (sub_category sub) = None ->
     tbl_assignments db' = tbl_assignments db) /\
    (routed_department db (sub_category sub) <> None ->
     exists a dept,
       tbl_assignments db' = (tbl_assignments db ++ [a])%list /\
       asg_complaint_id a = complaint_id row /\
       Forall (fun a' => (asg_assignment_id a' < asg_assignment_id a)%Z)
         (tbl_assignments db) /\
       In dept (tbl_departments db) /\
       asg_department_id a = dept_department_id dept /\
       category_id row <> None /\
       dept_category_id dept = category_id row).
Proof.
  intros H. destruct (submit_complaint_completes _ _ _ _ _ _ _ _ _ H) as [Hf Hp].
  rewrite (submit_complaint_effect self env db u t d l _ _ Hf Hp) in H.
  injection H as <- <-. cbn [sub_category tbl_complaints tbl_categories tbl_departments
                               tbl_assignments].
  eexists. split; [reflexivity |]. split; [reflexivity |]. split; [reflexivity |].
  set (c := sub_category sub).
  split.
  - intros ->. apply app_nil_r.
  - intros Hr. destruct (routed_department db c) as [did|] eqn:E; [| now elim Hr].
    unfold routed_department in E.
    destruct (resolved_category db c) as [cid|] eqn:Ec; [| discriminate].
    destruct (cid =? 0)%Z; [discriminate |].
    apply hd_error_filter_in in E as (dept & Hin & Hcat & Hid).
    eexists. exists dept. split; [reflexivity |]. cbn.
    repeat split; try assumption; try congruence.
    + destruct (max_id_ge asg_assignment_id (tbl_assignments db)) as [_ Hall].
      eapply Forall_impl; [| exact Hall]. cbn beta. unfold next_assignment_id.
      intros a Ha. lia.
    + unfold option_Z_eqb in Hcat. destruct (dept_category_id dept) as [k|]; [| discriminate].
      apply Z.eqb_eq in Hcat. now subst.
Qed.

Lemma submit_complaint_assignment_witness :
  exists row,
    tbl_complaints
      (snd (submit_complaint (service_with foreign_pipeline) 7 "Loud music"
              "Loud music at night" None (at_time 100) seeded_db)) =
      (tbl_complaints seeded_db ++ [row])%list.
Proof.
  eassert (E1 : submit_complaint (service_with foreign_pipeline) 7 "Loud music"
                  "Loud music at night" None (at_time 100) seeded_db = (Ok _, _))
    by (vm_compute; reflexivity).
  destruct (submit_complaint_assignment _ _ _ _ _ _ _ _ _ E1) as (row & Hrow & _).
  exists row. rewrite E1. exact Hrow.
Defined.

(** On the seeded categories and departments, a submission whose
    predicted name is one of the classifier's five categories stores a
    non-null category and is assigned to the department with the same
    number. *)
Theorem submit_complaint_on_seeded_tables (self : ComplaintService) (env : Env)
  (db db' : Database) (u : Z) (t d : string) (l : option string) (sub : Submission) :
  tbl_categories db = tbl_categories seeded_db ->
  tbl_departments db = tbl_departments seeded_db ->
  In (sub_category sub) (categories (init None)) ->
  submit_complaint self u t d l env db = (Ok sub, db') ->
  exists row a k,
    tbl_complaints db' = (tbl_complaints db ++ [row])%list /\
    category_id row = Some k /\
    (1 <= k <= 5)%Z /\
    tbl_assignments db' = (tbl_assignments db ++ [a])%list /\
    asg_complaint_id a = complaint_id row /\
    asg_department_id a = k.
Proof.
  intros Hcat Hdept Hin H.
  destruct (submit_complaint_completes _ _ _ _ _ _ _ _ _ H) as [Hf Hp].
  rewrite (submit_complaint_effect self env db u t d l _ _ Hf Hp) in H.
  injection H as <- <-. cbn [sub_category tbl_complaints tbl_assignments] in *.
  unfold routed_department, resolved_category. rewrite Hcat, Hdept.
  cbn [categories init] in Hin.
  destruct Hin as [<- | [<- | [<- | [<- | [<- | []]]]]];
    (eexists; eexists; eexists;
     split; [reflexivity |]; split; [reflexivity |];
     split; [| split; [reflexivity | split; reflexivity]]; cbn; lia).
Qed.

Lemma submit_complaint_on_seeded_tables_witness :
  exists row a k,
    tbl_complaints
      (snd (submit_complaint (service_with balanced_pipeline) 7 "Pothole"
              "Large pothole on main road" None (at_time 1) seeded_db)) =
      (tbl_complaints seeded_db ++ [row])%list /\
    category_id row = Some k /\
    (1 <= k <= 5)%Z /\
    tbl_assignments
      (snd (submit_complaint (service_with balanced_pipeline) 7 "Pothole"
              "Large pothole on main road" None (at_time 1) seeded_db)) =
      (tbl_assignments seeded_db ++ [a])%list /\
    asg_complaint_id a = complaint_id row /\
    asg_department_id a = k.
Proof.
  eassert (E1 : submit_complaint (service_with balanced_pipeline) 7 "Pothole"
                  "Large pothole on main road" None (at_time 1) seeded_db = (Ok _, _))
    by (vm_compute; reflexivity).
  rewrite E1.
  refine (submit_complaint_on_seeded_tables _ _ _ _ _ _ _ _ _ eq_refl eq_refl _ E1).
  simpl. tauto.
Defined.

Lemma set_status_twice (env env2 : Env) (s s2 : string) (r : ComplaintRow) :
  set_status env2 s2 (set_status env s r) = set_status env2 s2 r.
Proof. reflexivity. Qed.

(** Status updates compose as overwrites: of two updates of the same
    complaint only the second shows, so repeating an update changes
    nothing; updates of different complaints can be made in either
    order. *)
Theorem update_complaint_status_compose (self : ComplaintService) (env env2 : Env)
  (db : Database) (id id2 : Z) (s s2 : string) :
  fault env2 = None ->
  (snd (update_complaint_status self id s2 env2
          (snd (update_complaint_status self id s env db))) =
   snd (update_complaint_status self id s2 env2 db)) /\
  (id <> id2 ->
   snd (update_complaint_status self id2 s2 env2
          (snd (update_complaint_status self id s env db))) =
   snd (update_complaint_status self id s env
          (snd (update_complaint_status self id2 s2 env2 db)))).
Proof.
  intros Hf2. rewrite !update_complaint_status_eq. rewrite !Hf2.
  destruct (fault env) as [e|]; cbn [snd]; rewrite ?update_complaint_status_eq, ?Hf2;
    cbn [snd tbl_categories tbl_departments tbl_complaints tbl_assignments
         seq_complaints seq_assignments].
  - split; reflexivity.
  - split.
    + f_equal. rewrite map_map. apply map_ext. intros r.
      destruct (complaint_id r =? id)%Z eqn:E; cbn [complaint_id set_status];
        rewrite E; reflexivity.
    + intros Hne. f_equal. rewrite !map_map. apply map_ext. intros r.
      destruct (Z.eqb_spec (complaint_id r) id) as [E | E];
        destruct (Z.eqb_spec (complaint_id r) id2) as [E2 | E2];
        cbn [complaint_id set_status];
        try (exfalso; congruence);
        rewrite ?(proj2 (Z.eqb_eq _ _) E), ?(proj2 (Z.eqb_eq _ _) E2),
                ?(proj2 (Z.eqb_neq _ _) E), ?(proj2 (Z.eqb_neq _ _) E2);
        reflexivity.
Qed.

Lemma update_complaint_status_compose_witness :
  map status
    (tbl_complaints
       (snd (update_complaint_status (service_with balanced_pipeline) 1 "In Progress"
               (at_time 3) two_complaints))) = [Some "In Progress"; Some "Submitted"] /\
  map status
    (tbl_complaints
       (snd (update_complaint_status (service_with balanced_pipeline) 1 "Resolved"
               (at_time 4)
               (snd (update_complaint_status (service_with balanced_pipeline) 1
                       "In Progress" (at_time 3) two_complaints))))) =
    [Some "Resolved"; Some "Submitted"] /\
  snd (update_complaint_status (service_with balanced_pipeline) 1 "Resolved" (at_time 4)
         (snd (update_complaint_status (service_with balanced_pipeline) 1 "In Progress"
                 (at_time 3) two_complaints))) =
  snd (update_complaint_status (service_with balanced_pipeline) 1 "Resolved" (at_time 4)
         two_complaints) /\
  snd (update_complaint_status (service_with balanced_pipeline) 2 "Rejected" (at_time 4)
         (snd (update_complaint_status (service_with balanced_pipeline) 1 "In Progress"
                 (at_time 3) two_complaints))) =
  snd (update_complaint_status (service_with balanced_pipeline) 1 "In Progress" (at_time 3)
         (snd (update_complaint_status (service_with balanced_pipeline) 2 "Rejected"
                 (at_time 4) two_complaints))).
Proof.
  split; [reflexivity |]. split; [reflexivity |]. split.
  - apply (proj1 (update_complaint_status_compose (service_with balanced_pipeline)
                    (at_time 3) (at_time 4) two_complaints 1 1 "In Progress" "Resolved"
                    eq_refl)).
  - apply (proj2 (update_complaint_status_compose (service_with balanced_pipeline)
                    (at_time 3) (at_time 4) two_complaints 1 2 "In Progress" "Rejected"
                    eq_refl)).
    discriminate.
Defined.

(** A category configured under the identifier 0 counts as no category
    for routing: the complaint stores the identifier, but no assignment
    is made, whatever departments the category has. *)
Theorem zero_category_id_not_routed (self : ComplaintService) (env : Env)
  (db db' : Database) (u : Z) (t d : string) (l : option string) (sub : Submission) :
  resolved_category db (sub_category sub) = Some 0%Z ->
  submit_complaint self u t d l env db = (Ok sub, db') ->
  tbl_assignments db' = tbl_assignments db /\
  exists row,
    tbl_complaints db' = (tbl_complaints db ++ [row])%list /\
    category_id row = Some 0%Z.
Proof.
  intros Hr H. destruct (submit_complaint_completes _ _ _ _ _ _ _ _ _ H) as [Hf Hp].
  rewrite (submit_complaint_effect self env db u t d l _ _ Hf Hp) in H.
  injection H as <- <-. cbn [sub_category tbl_complaints tbl_assignments] in *.
  unfold routed_department. rewrite Hr. cbn [Z.eqb].
  split; [apply app_nil_r |]. eexists. split; reflexivity.
Qed.

Lemma zero_category_id_not_routed_witness :
  tbl_assignments
    (snd (submit_complaint (service_with foreign_pipeline) 7 "Loud music"
            "Loud music at night" None (at_time 100)
            {| tbl_categories :=
                 [ {| cat_category_id := 0; cat_name := "Noise"; cat_description := None |} ];
               tbl_departments :=
                 [ {| dept_department_id := 1; dept_name := "Noise Control";
                      dept_category_id := Some 0%Z; dept_email := None |} ];
               tbl_complaints := []; tbl_assignments := [];
               seq_complaints := 0; seq_assignments := 0 |})) = [].
Proof.
  eassert (E1 : submit_complaint (service_with foreign_pipeline) 7 "Loud music"
                  "Loud music at night" None (at_time 100)
                  {| tbl_categories :=
                       [ {| cat_category_id := 0; cat_name := "Noise";
                            cat_description := None |} ];
                     tbl_departments :=
                       [ {| dept_department_id := 1; dept_name := "Noise Control";
                            dept_category_id := Some 0%Z; dept_email := None |} ];
                     tbl_complaints := []; tbl_assignments := [];
                     seq_complaints := 0; seq_assignments := 0 |} = (Ok _, _))
    by (vm_compute; reflexivity).
  rewrite E1.
  refine (proj1 (zero_category_id_not_routed _ _ _ _ _ _ _ _ _ _ E1)).
  reflexivity.
Defined.

End RoutingFacts.

(** ** Reading complaints back *)

Module ReportsFacts.
Import Sklearn.
Import PyStr Classifier Storage Service Spec Claims Accounts Reports Routing.
Import ServiceFacts AccountsFacts RoutingFacts.

Lemma hd_error_filter {A : Type} (p : A -> bool) (xs : list A) :
  hd_error (filter p xs) = find p xs.
Proof.
  induction xs as [|x xs IH]; simpl; [reflexivity |].
  destruct (p x); [reflexivity | assumption].
Qed.

Lemma left_join_app {A B : Type} (on : A -> B -> bool) (xs ys : list A) (r : list B) :
  left_join on (xs ++ ys) r = (left_join on xs r ++ left_join on ys r)%list.
Proof. unfold left_join. apply flat_map_app. Qed.

Lemma left_join_filter {A B : Type} (on : A -> B -> bool) (p : A -> bool)
  (xs : list A) (r : list B) :
  filter (fun j => p (fst j)) (left_join on xs r) = left_join on (filter p xs) r.
Proof.
  unfold left_join. induction xs as [|x xs IH]; [reflexivity |].
  cbn [flat_map filter]. rewrite filter_app, IH.
  destruct (p x) eqn:E.
  - cbn [flat_map]. f_equal.
    destruct (filter (on x) r) as [|b bs]; cbn [filter fst map]; rewrite ?E; [reflexivity |].
    f_equal. induction bs as [|b' bs IHb]; [reflexivity |].
    cbn [map filter fst]. rewrite E. now f_equal.
  - replace (filter (fun j => p (fst j))
               match filter (on x) r with
               | [] => [(x, None)]
               | b :: bs => map (fun b' => (x, Some b')) (b :: bs)
               end) with (@nil (A * option B)); [reflexivity |].
    destruct (filter (on x) r) as [|b bs]; cbn [filter fst map]; rewrite ?E; [reflexivity |].
    induction bs as [|b' bs IHb]; [reflexivity |].
    cbn [map filter fst]. now rewrite E.
Qed.

Lemma hd_error_left_join {A B : Type} (on : A -> B -> bool) (xs : list A) (r : list B) :
  hd_error (left_join on xs r) =
  option_map (fun a => (a, find (on a) r)) (hd_error xs).
Proof.
  destruct xs as [|x xs]; [reflexivity |].
  unfold left_join. cbn [flat_map hd_error option_map].
  rewrite <- hd_error_filter.
  destruct (filter (on x) r) as [|b bs]; reflexivity.
Qed.

Lemma hd_error_map {A B : Type} (f : A -> B) (xs : list A) :
  hd_error (map f xs) = option_map f (hd_error xs).
Proof. destruct xs; reflexivity. Qed.

(** [get_complaint_details] in one piece: the first complaint with the
    identifier, with the first category and the first user it matches. *)
Lemma get_complaint_details_eq (env : Env) (st : Store) (id : Z) :
  fault env = None ->
  get_complaint_details env st id =
  Ok (option_map
        (fun c =>
           details_of (c, find (on_category c) (tbl_categories (core st)),
                       find_user st (user_id c)))
        (find_complaint (core st) id)).
Proof.
  intros Hf. unfold get_complaint_details, complaints_joined, find_complaint, find_user.
  rewrite Hf. f_equal.
  set (p := fun c : ComplaintRow => (complaint_id c =? id)%Z).
  rewrite (filter_ext (fun j : ComplaintRow * option CategoryRow * option UserRow =>
                         (complaint_id (fst (fst j)) =? id)%Z)
                      (fun j => (fun j' => p (fst j')) (fst j)))
    by reflexivity.
  rewrite (left_join_filter on_user (fun j' => p (fst j'))), (left_join_filter on_category p).
  rewrite hd_error_map, !hd_error_left_join, hd_error_filter.
  destruct (find p (tbl_complaints (core st))); reflexivity.
Qed.

Lemma find_app {A : Type} (p : A -> bool) (xs ys : list A) :
  find p (xs ++ ys) = match find p xs with Some x => Some x | None => find p ys end.
Proof.
  induction xs as [|x xs IH]; simpl; [reflexivity |].
  destruct (p x); [reflexivity | assumption].
Qed.

Lemma find_none_below (id : Z) (rows : list ComplaintRow) :
  Forall (fun r => (complaint_id r < id)%Z) rows ->
  find (fun r => (complaint_id r =? id)%Z) rows = None.
Proof.
  induction 1 as [|r rows Hr _ IH]; simpl; [reflexivity |].
  destruct (Z.eqb_spec (complaint_id r) id); [lia | assumption].
Qed.

Lemma NoDup_map_inj {A : Type} (key : A -> Z) (xs : list A) (a b : A) :
  NoDup (map key xs) -> In a xs -> In b xs -> key a = key b -> a = b.
Proof.
  induction xs as [|x xs IH]; simpl; [intros _ [] |].
  intros Hnd Ha Hb Hk. inversion Hnd as [|? ? Hx Hnd']; subst.
  destruct Ha as [-> | Ha]; destruct Hb as [-> | Hb]; auto.
  - elim Hx. rewrite Hk. now apply in_map.
  - elim Hx. rewrite <- Hk. now apply in_map.
Qed.

(** With distinct category identifiers, the category joined to a
    complaint that stores the identifier configured for a name is the
    category of that name. *)
Lemma find_resolved_category (db : Database) (name : string) (c : ComplaintRow) :
  NoDup (map cat_category_id (tbl_categories db)) ->
  category_id c = resolved_category db name ->
  option_map cat_name (find (on_category c) (tbl_categories db)) =
  match resolved_category db name with
  | Some _ => Some name
  | None => None
  end.
Proof.
  intros Hnd Hc. unfold on_category. rewrite Hc.
  destruct (resolved_category db name) as [k|] eqn:E.
  - unfold resolved_category in E.
    apply hd_error_filter_in in E as (r0 & Hin0 & Hname & Hid).
    apply String.eqb_eq in Hname.
    destruct (find (fun cat => option_Z_eqb (Some k) (cat_category_id cat))
                (tbl_categories db)) as [r1|] eqn:Ef.
    + apply find_some in Ef as [Hin1 Hk]. simpl in Hk. apply Z.eqb_eq in Hk.
      assert (r1 = r0) as -> by (apply (NoDup_map_inj cat_category_id _ _ _ Hnd); congruence).
      simpl. now rewrite Hname.
    + exfalso. apply (find_none _ _ Ef) in Hin0. simpl in Hin0.
      rewrite Hid, Z.eqb_refl in Hin0. discriminate.
  - clear Hnd. induction (tbl_categories db) as [|x xs IH]; simpl; [reflexivity | assumption].
Qed.

(** Submission and reading round trip: once a submission has completed,
    [get_complaint_details] on the returned identifier gives back the
    submitted title, description and location, the priority and category
    that were reported (the category only when it is configured), the
    state ['Submitted'] and the submitting user.  Category identifiers are
    assumed distinct, as the primary key makes them. *)
Theorem get_complaint_details_after_submit (self : ComplaintService) (env env' : Env)
  (st : Store) (db' : Database) (u : Z) (t d : string) (l : option string)
  (sub : Submission) :
  NoDup (map cat_category_id (tbl_categories (core st))) ->
  fault env' = None ->
  submit_complaint self u t d l env (core st) = (Ok sub, db') ->
  exists id,
    sub_complaint_id sub = Some id /\
    get_complaint_details env' (with_core st db') id =
    Ok (Some {| det_complaint_id := id;
                det_title := t;
                det_description := d;
                det_location := l;
                det_category :=
                  match resolved_category (core st) (sub_category sub) with
                  | Some _ => Some (sub_category sub)
                  | None => None
                  end;
                det_priority := Some (sub_priority sub);
                det_status := Some (sub_status sub);
                det_created_at := now env;
                det_updated_at := now env;
                det_user_name := option_map usr_name (find_user st u);
                det_user_email := option_map usr_email (find_user st u) |}).
Proof.
  intros Hnd Hf' H.
  destruct (submit_complaint_completes _ _ _ _ _ _ _ _ _ H) as [Hf Hp].
  rewrite (submit_complaint_effect self env _ u t d l _ _ Hf Hp) in H.
  injection H as <- <-. cbn [sub_complaint_id sub_category sub_priority sub_status].
  exists (next_complaint_id (core st)). split; [reflexivity |].
  rewrite (get_complaint_details_eq _ _ _ Hf').
  unfold find_complaint, with_core. cbn [core tbl_complaints tbl_categories].
  rewrite find_app, (find_none_below _ _ (proj2 (next_complaint_id_fresh (core st)))).
  cbn [find complaint_id]. rewrite Z.eqb_refl. cbn [option_map].
  unfold details_of. cbn [fst snd complaint_id title description location priority status
                          created_at updated_at user_id].
  rewrite (find_resolved_category (core st) (sub_category sub)) by (assumption || reflexivity).
  reflexivity.
Qed.

Lemma get_complaint_details_after_submit_witness :
  exists id,
    Some 1%Z = Some id /\
    get_complaint_details (at_time 200)
      (with_core {| core := seeded_db; tbl_users := []; seq_users := 0 |}
         (snd (submit_complaint (service_with balanced_pipeline) 7 "Pothole"
                 "Large pothole on main road" None (at_time 1) seeded_db))) id =
    Ok (Some {| det_complaint_id := id;
                det_title := "Pothole";
                det_description := "Large pothole on main road";
                det_location := None;
                det_category := Some "Electricity";
                det_priority := Some "Low";
                det_status := Some "Submitted";
                det_created_at := 1;
                det_updated_at := 1;
                det_user_name := None;
                det_user_email := None |}).
Proof.
  eassert (E1 : submit_complaint (service_with balanced_pipeline) 7 "Pothole"
                  "Large pothole on main road" None (at_time 1) seeded_db = (Ok _, _))
    by (vm_compute; reflexivity).
  rewrite E1.
  refine (get_complaint_details_after_submit (service_with balanced_pipeline)
            (at_time 1) (at_time 200)
            {| core := seeded_db; tbl_users := []; seq_users := 0 |}
            _ 7 "Pothole" "Large pothole on main road" None _ _ eq_refl E1).
  vm_compute. repeat constructor; simpl; intuition discriminate.
Defined.

Lemma find_map_status (env : Env) (id j : Z) (s : string) (rows : list ComplaintRow) :
  find (fun r => (complaint_id r =? j)%Z)
    (map (fun r => if (complaint_id r =? id)%Z then set_status env s r else r) rows) =
  option_map (fun r => if (complaint_id r =? id)%Z then set_status env s r else r)
    (find (fun r => (complaint_id r =? j)%Z) rows).
Proof.
  induction rows as [|r rows IH]; [reflexivity |]. cbn [map find].
  assert (E : complaint_id (if (complaint_id r =? id)%Z then set_status env s r else r)
              = complaint_id r) by now destruct (complaint_id r =? id)%Z.
  rewrite E. destruct (complaint_id r =? j)%Z; [reflexivity | assumption].
Qed.

(** Status update and reading: after an update that the storage accepts,
    [get_complaint_details] on the updated complaint shows the new status
    and update time and nothing else changed; it still finds nothing when
    there was no such complaint, and the details of every other complaint
    are as before. *)
Theorem get_complaint_details_after_update (self : ComplaintService) (env env' : Env)
  (st : Store) (id j : Z) (s : string) :
  fault env = None ->
  fault env' = None ->
  get_complaint_details env'
    (with_core st (snd (update_complaint_status self id s env (core st)))) id =
    match get_complaint_details env' st id with
    | Ok (Some det) => Ok (Some (restatus env s det))
    | other => other
    end /\
  (j <> id ->
   get_complaint_details env'
     (with_core st (snd (update_complaint_status self id s env (core st)))) j =
   get_complaint_details env' st j).
Proof.
  intros Hf Hf'. rewrite !(get_complaint_details_eq _ _ _ Hf').
  rewrite update_complaint_status_eq, Hf.
  unfold find_complaint, with_core, find_user.
  cbn [snd core tbl_complaints tbl_categories tbl_users].
  rewrite !find_map_status. split.
  - destruct (find (fun r => (complaint_id r =? id)%Z) (tbl_complaints (core st)))
      as [c|] eqn:E; [| reflexivity].
    apply find_some in E as [_ E]. cbn [option_map]. now rewrite E.
  - intros Hne.
    destruct (find (fun r => (complaint_id r =? j)%Z) (tbl_complaints (core st)))
      as [c|] eqn:E; [| reflexivity].
    apply find_some in E as [_ E]. apply Z.eqb_eq in E. cbn [option_map].
    destruct (Z.eqb_spec (complaint_id c) id); [congruence | reflexivity].
Qed.

Lemma get_complaint_details_after_update_witness :
  get_complaint_details (at_time 9)
    (with_core two_users
       (snd (update_complaint_status (service_with balanced_pipeline) 1 "Resolved"
               (at_time 5) two_complaints))) 1 =
    Ok (Some {| det_complaint_id := 1;
                det_title := "Pothole";
                det_description := "Large pothole on main road";
                det_location := None;
                det_category := Some "Electricity";
                det_priority := Some "Low";
                det_status := Some "Resolved";
                det_created_at := 1;
                det_updated_at := 5;
                det_user_name := Some "John Doe";
                det_user_email := Some "john@example.com" |}) /\
  get_complaint_details (at_time 9)
    (with_core two_users
       (snd (update_complaint_status (service_with balanced_pipeline) 1 "Resolved"
               (at_time 5) two_complaints))) 2 =
    Ok (Some {| det_complaint_id := 2;
                det_title := "Wire";
                det_description := "Exposed wire, urgent";
                det_location := Some "Block A";
                det_category := Some "Electricity";
                det_priority := Some "High";
                det_status := Some "Submitted";
                det_created_at := 2;
                det_updated_at := 2;
                det_user_name := Some "Jane Smith";
                det_user_email := Some "jane@example.com" |}).
Proof.
  split.
  - refine (eq_trans
              (proj1 (get_complaint_details_after_update (service_with balanced_pipeline)
                        (at_time 5) (at_time 9) (with_core two_users two_complaints)
                        1 1 "Resolved" eq_refl eq_refl)) _).
    reflexivity.
  - refine (eq_trans
              (proj2 (get_complaint_details_after_update (service_with balanced_pipeline)
                        (at_time 5) (at_time 9) (with_core two_users two_complaints)
                        1 2 "Resolved" eq_refl eq_refl) _) _).
    + discriminate.
    + reflexivity.
Defined.

(** The workflow of the system test: submit a complaint, set its status,
    read it back.  The details read back carry the submitted fields, the
    category and priority fixed at submission, the creation time of the
    submission, and the status and time of the update. *)
Theorem complaint_workflow (self : ComplaintService) (env env2 env3 : Env)
  (st : Store) (db1 : Database) (u : Z) (t d : string) (l : option string)
  (sub : Submission) (s : string) :
  NoDup (map cat_category_id (tbl_categories (core st))) ->
  fault env2 = None ->
  fault env3 = None ->
  submit_complaint self u t d l env (core st) = (Ok sub, db1) ->
  exists id,
    sub_complaint_id sub = Some id /\
    fst (update_complaint_status self id s env2 db1) = Ok true /\
    get_complaint_details env3
      (with_core st (snd (update_complaint_status self id s env2 db1))) id =
    Ok (Some {| det_complaint_id := id;
                det_title := t;
                det_description := d;
                det_location := l;
                det_category :=
                  match resolved_category (core st) (sub_category sub) with
                  | Some _ => Some (sub_category sub)
                  | None => None
                  end;
                det_priority := Some (sub_priority sub);
                det_status := Some s;
                det_created_at := now env;
                det_updated_at := now env2;
                det_user_name := option_map usr_name (find_user st u);
                det_user_email := option_map usr_email (find_user st u) |}).
Proof.
  intros Hnd Hf2 Hf3 H.
  destruct (submit_complaint_completes _ _ _ _ _ _ _ _ _ H) as [Hf Hp].
  rewrite (submit_complaint_effect self env _ u t d l _ _ Hf Hp) in H.
  injection H as <- <-. cbn [sub_complaint_id sub_category sub_priority].
  exists (next_complaint_id (core st)). split; [reflexivity |].
  rewrite update_complaint_status_eq, Hf2. split; [reflexivity |].
  rewrite (get_complaint_details_eq _ _ _ Hf3).
  unfold find_complaint, with_core. cbn [snd core tbl_complaints tbl_categories].
  rewrite find_map_status, find_app,
    (find_none_below _ _ (proj2 (next_complaint_id_fresh (core st)))).
  cbn [find complaint_id]. rewrite Z.eqb_refl. cbn [option_map complaint_id].
  rewrite Z.eqb_refl.
  unfold details_of, set_status.
  cbn [fst snd complaint_id title description location priority status
       created_at updated_at user_id category_id].
  rewrite (find_resolved_category (core st) (sub_category sub)) by (assumption || reflexivity).
  reflexivity.
Qed.

Lemma complaint_workflow_witness :
  exists id,
    Some 1%Z = Some id /\
    fst (update_complaint_status (service_with balanced_pipeline) id "In Progress"
           (at_time 2)
           (snd (submit_complaint (service_with balanced_pipeline) 7
                   "Urgent: Water Pipeline Burst"
                   "Major water pipeline burst near the market causing flooding and water wastage"
                   (Some "Market Street, Sector 15") (at_time 1) seeded_db))) = Ok true /\
    get_complaint_details (at_time 3)
      (with_core {| core := seeded_db; tbl_users := []; seq_users := 0 |}
         (snd (update_complaint_status (service_with balanced_pipeline) id "In Progress"
                 (at_time 2)
                 (snd (submit_complaint (service_with balanced_pipeline) 7
                         "Urgent: Water Pipeline Burst"
                         "Major water pipeline burst near the market causing flooding and water wastage"
                         (Some "Market Street, Sector 15") (at_time 1) seeded_db))))) id =
    Ok (Some {| det_complaint_id := id;
                det_title := "Urgent: Water Pipeline Burst";
                det_description :=
                  "Major water pipeline burst near the market causing flooding and water wastage";
                det_location := Some "Market Street, Sector 15";
                det_category := Some "Electricity";
                det_priority := Some "High";
                det_status := Some "In Progress";
                det_created_at := 1;
                det_updated_at := 2;
                det_user_name := None;
                det_user_email := None |}).
Proof.
  eassert (E1 : submit_complaint (service_with balanced_pipeline) 7
                  "Urgent: Water Pipeline Burst"
                  "Major water pipeline burst near the market causing flooding and water wastage"
                  (Some "Market Street, Sector 15") (at_time 1) seeded_db = (Ok _, _))
    by (vm_compute; reflexivity).
  rewrite E1.
  refine (complaint_workflow (service_with balanced_pipeline)
            (at_time 1) (at_time 2) (at_time 3)
            {| core := seeded_db; tbl_users := []; seq_users := 0 |}
            _ 7 _ _ _ _ "In Progress" _ eq_refl eq_refl E1).
  vm_compute. repeat constructor; simpl; intuition discriminate.
Defined.

End ReportsFacts.

(** ** The department queue and the statistics *)

Module QueueFacts.
Import Sklearn.
Import PyStr Classifier Storage Service Spec Claims Accounts Reports Routing.
Import ServiceFacts AccountsFacts RoutingFacts ReportsFacts.

Lemma in_insert_by {A : Type} (leb : A -> A -> bool) (x y : A) (xs : list A) :
  In y (insert_by leb x xs) <-> y = x \/ In y xs.
Proof.
  induction xs as [|z zs IH]; simpl.
  - intuition.
  - destruct (leb x z); simpl; [intuition | rewrite IH; intuition].
Qed.

Lemma in_order_by {A : Type} (leb : A -> A -> bool) (y : A) (xs : list A) :
  In y (order_by leb xs) <-> In y xs.
Proof.
  unfold order_by. induction xs as [|x xs IH]; simpl; [reflexivity |].
  rewrite in_insert_by, IH. intuition.
Qed.

Section Ordering.
Context {A : Type} (leb : A -> A -> bool).
Hypothesis leb_total : forall a b, leb a b = true \/ leb b a = true.
Hypothesis leb_trans : forall a b c, leb a b = true -> leb b c = true -> leb a c = true.

Lemma insert_by_sorted (x : A) (xs : list A) :
  StronglySorted (fun a b => leb a b = true) xs ->
  StronglySorted (fun a b => leb a b = true) (insert_by leb x xs).
Proof.
  induction 1 as [|z zs Hs IH Hz]; simpl.
  - repeat constructor.
  - destruct (leb x z) eqn:E.
    + constructor; [now constructor |].
      constructor; [assumption |].
      rewrite Forall_forall in *. intros w Hw. eauto.
    + constructor; [assumption |].
      rewrite Forall_forall in *. intros w Hw. apply in_insert_by in Hw as [-> | Hw].
      * destruct (leb_total x z); congruence.
      * auto.
Qed.

Lemma order_by_sorted (xs : list A) :
  StronglySorted (fun a b => leb a b = true) (order_by leb xs).
Proof.
  unfold order_by. induction xs as [|x xs IH]; simpl; [constructor |].
  now apply insert_by_sorted.
Qed.

End Ordering.

Lemma StronglySorted_map {A B : Type} (R : A -> A -> Prop) (S : B -> B -> Prop)
  (f : A -> B) (xs : list A) :
  (forall a b, R a b -> S (f a) (f b)) ->
  StronglySorted R xs -> StronglySorted S (map f xs).
Proof.
  intros HRS. induction 1 as [|x xs Hs IH Hx]; simpl; constructor; [assumption |].
  rewrite Forall_forall in *. intros y Hy. apply in_map_iff in Hy as (a & <- & Ha). auto.
Qed.

Lemma rank_eqb_eq (a b : option Z) : rank_eqb a b = true <-> a = b.
Proof.
  destruct a as [x|], b as [y|]; simpl; split; try congruence.
  - intros H. apply Z.eqb_eq in H. now subst.
  - intros H. injection H as ->. apply Z.eqb_refl.
Qed.

Lemma queue_leb_total (c1 c2 : ComplaintRow) :
  queue_leb c1 c2 = true \/ queue_leb c2 c1 = true.
Proof.
  unfold queue_leb.
  destruct (priority_rank (priority c1)) as [x|], (priority_rank (priority c2)) as [y|];
    simpl; auto.
  - destruct (Z.ltb_spec x y), (Z.ltb_spec y x), (Z.eqb_spec x y), (Z.eqb_spec y x),
      (Z.leb_spec (created_at c2) (created_at c1)),
      (Z.leb_spec (created_at c1) (created_at c2)); simpl; auto; lia.
  - destruct (Z.leb_spec (created_at c2) (created_at c1)),
      (Z.leb_spec (created_at c1) (created_at c2)); simpl; auto; lia.
Qed.

Lemma queue_leb_trans (c1 c2 c3 : ComplaintRow) :
  queue_leb c1 c2 = true -> queue_leb c2 c3 = true -> queue_leb c1 c3 = true.
Proof.
  unfold queue_leb.
  destruct (priority_rank (priority c1)) as [x|], (priority_rank (priority c2)) as [y|],
    (priority_rank (priority c3)) as [z|]; simpl; auto; try discriminate.
  - destruct (Z.ltb_spec x y), (Z.ltb_spec y z), (Z.ltb_spec x z),
      (Z.eqb_spec x y), (Z.eqb_spec y z), (Z.eqb_spec x z),
      (Z.leb_spec (created_at c2) (created_at c1)),
      (Z.leb_spec (created_at c3) (created_at c2)),
      (Z.leb_spec (created_at c3) (created_at c1)); simpl; auto; try discriminate; lia.
  - destruct (Z.leb_spec (created_at c2) (created_at c1)),
      (Z.leb_spec (created_at c3) (created_at c2)),
      (Z.leb_spec (created_at c3) (created_at c1)); simpl; auto; try discriminate; lia.
Qed.

(** The department queue is ordered: of two rows, the earlier one has the
    smaller rank (High before Medium before Low, and any other priority
    before all three), or the same rank and a creation time that is not
    earlier. *)
Theorem get_complaints_by_department_ordered (env : Env) (st : Store)
  (department_id : Z) (result : list QueueRow) :
  get_complaints_by_department env st department_id = Ok result ->
  StronglySorted
    (fun d1 d2 =>
       rank_ltb (priority_rank (q_priority d1)) (priority_rank (q_priority d2)) = true \/
       (priority_rank (q_priority d1) = priority_rank (q_priority d2) /\
        (q_created_at d2 <= q_created_at d1)%Z))
    result.
Proof.
  unfold get_complaints_by_department. destruct (fault env); [discriminate |].
  intros H. injection H as <-.
  eapply StronglySorted_map; [| apply order_by_sorted].
  - intros ja1 ja2 Hle. cbn beta in Hle. unfold queue_leb in Hle.
    unfold queue_row_of. cbn [q_priority q_created_at].
    apply orb_true_iff in Hle as [Hlt | Heq]; [now left |].
    apply andb_true_iff in Heq as [Heq Ht]. right.
    split; [now apply rank_eqb_eq | now apply Z.leb_le].
  - intros a b. apply queue_leb_total.
  - intros a b c. apply queue_leb_trans.
Qed.

Lemma get_complaints_by_department_ordered_witness :
  exists result,
    get_complaints_by_department (at_time 9)
      (with_core {| core := seeded_db; tbl_users := []; seq_users := 0 |}
         (run_calls (service_with balanced_pipeline)
            [ (at_time 1, Submit 7 "Pothole" "Large pothole on main road" None);
              (at_time 2, Submit 7 "Wire" "Exposed wire, urgent" None) ]
            seeded_db)) 3 = Ok result /\
    map q_priority result = [Some "High"; Some "Low"] /\
    StronglySorted
      (fun d1 d2 =>
         rank_ltb (priority_rank (q_priority d1)) (priority_rank (q_priority d2)) = true \/
         (priority_rank (q_priority d1) = priority_rank (q_priority d2) /\
          (q_created_at d2 <= q_created_at d1)%Z))
      result.
Proof.
  eassert (E : get_complaints_by_department (at_time 9)
                 (with_core {| core := seeded_db; tbl_users := []; seq_users := 0 |}
                    (run_calls (service_with balanced_pipeline)
                       [ (at_time 1, Submit 7 "Pothole" "Large pothole on main road" None);
                         (at_time 2, Submit 7 "Wire" "Exposed wire, urgent" None) ]
                       seeded_db)) 3 = Ok _)
    by (vm_compute; reflexivity).
  eexists. split; [exact E |]. split; [reflexivity |].
  exact (get_complaints_by_department_ordered _ _ _ _ E).
Defined.

Lemma in_left_join_some {A B : Type} (on : A -> B -> bool) (xs : list A) (r : list B)
  (a : A) (b : B) :
  In (a, Some b) (left_join on xs r) <-> In a xs /\ In b r /\ on a b = true.
Proof.
  unfold left_join. rewrite in_flat_map. split.
  - intros (x & Hx & Hin).
    destruct (filter (on x) r) as [|b0 bs] eqn:E.
    + destruct Hin as [Hin | []]. discriminate.
    + apply in_map_iff in Hin as (b' & Heq & Hb'). injection Heq as -> ->.
      rewrite <- E in Hb'. apply filter_In in Hb' as [Hb' Hon]. auto.
  - intros (Ha & Hb & Hon). exists a. split; [assumption |].
    assert (Hin : In b (filter (on a) r)) by (apply filter_In; auto).
    destruct (filter (on a) r) as [|b0 bs]; [destruct Hin |].
    apply in_map_iff. now exists b.
Qed.

Lemma left_join_total {A B : Type} (on : A -> B -> bool) (xs : list A) (r : list B) (a : A) :
  In a xs -> exists ob, In (a, ob) (left_join on xs r).
Proof.
  intros Ha. unfold left_join.
  destruct (filter (on a) r) as [|b0 bs] eqn:E.
  - exists None. apply in_flat_map. exists a. split; [assumption |]. rewrite E. now left.
  - exists (Some b0). apply in_flat_map. exists a. split; [assumption |]. rewrite E. now left.
Qed.

Lemma in_left_join_left {A B : Type} (on : A -> B -> bool) (xs : list A) (r : list B)
  (a : A) (ob : option B) :
  In (a, ob) (left_join on xs r) -> In a xs.
Proof.
  unfold left_join. rewrite in_flat_map. intros (x & Hx & Hin).
  destruct (filter (on x) r) as [|b0 bs].
  - destruct Hin as [Hin | []]. now injection Hin as <- _.
  - apply in_map_iff in Hin as (b' & Heq & _). now injection Heq as <- _.
Qed.

(** The rows of a department queue. *)
Lemma in_department_queue (env : Env) (st : Store) (dept : Z) (det : QueueRow) :
  fault env = None ->
  exists result,
    get_complaints_by_department env st dept = Ok result /\
    (In det result <->
     exists j a,
       In j (complaints_joined st) /\
       In a (tbl_assignments (core st)) /\
       complaint_id (fst (fst j)) = asg_complaint_id a /\
       asg_department_id a = dept /\
       det = queue_row_of j).
Proof.
  intros Hf. unfold get_complaints_by_department. rewrite Hf.
  eexists. split; [reflexivity |].
  rewrite in_map_iff. split.
  - intros ([j oa] & <- & Hin). apply in_order_by in Hin. apply filter_In in Hin as [Hin Hd].
    destruct oa as [a|]; [| discriminate]. cbn [snd fst] in *.
    apply in_left_join_some in Hin as (Hj & Ha & Hon).
    exists j, a. unfold on_assignment in Hon.
    repeat split; try assumption; now apply Z.eqb_eq.
  - intros (j & a & Hj & Ha & Hc & Hd & ->).
    exists (j, Some a). split; [reflexivity |].
    apply in_order_by. apply filter_In. split.
    + apply in_left_join_some. repeat split; try assumption.
      unfold on_assignment. now apply Z.eqb_eq.
    + cbn [snd]. now apply Z.eqb_eq.
Qed.

(** Routing reaches the queue: a completed submission that is routed to a
    department is listed in that department's queue with its title,
    description and priority; and whatever a queue lists is a stored
    complaint assigned to that department. *)
Theorem submitted_complaint_in_queue (self : ComplaintService) (env env' : Env)
  (st : Store) (db' : Database) (u : Z) (t d : string) (l : option string)
  (sub : Submission) (dept : Z) :
  fault env' = None ->
  submit_complaint self u t d l env (core st) = (Ok sub, db') ->
  exists result,
    get_complaints_by_department env' (with_core st db') dept = Ok result /\
    (routed_department (core st) (sub_category sub) = Some dept ->
     exists det,
       In det result /\
       Some (q_complaint_id det) = sub_complaint_id sub /\
       q_title det = t /\ q_description det = d /\
       q_priority det = Some (sub_priority sub)) /\
    (forall det, In det result ->
       exists c a,
         In c (tbl_complaints db') /\ In a (tbl_assignments db') /\
         complaint_id c = q_complaint_id det /\
         asg_complaint_id a = q_complaint_id det /\
         asg_department_id a = dept).
Proof.
  intros Hf' H.
  destruct (in_department_queue env' (with_core st db') dept
              {| q_complaint_id := 0; q_title := ""; q_description := "";
                 q_location := None; q_category := None; q_priority := None;
                 q_status := None; q_created_at := 0;
                 q_user_name := None; q_user_email := None |} Hf')
    as (result & Hres & _).
  exists result. split; [assumption |].
  assert (Hq : forall det,
             In det result <->
             exists j a,
               In j (complaints_joined (with_core st db')) /\
               In a (tbl_assignments db') /\
               complaint_id (fst (fst j)) = asg_complaint_id a /\
               asg_department_id a = dept /\
               det = queue_row_of j).
  { intros det. destruct (in_department_queue env' (with_core st db') dept det Hf')
      as (result' & Hres' & Hiff).
    rewrite Hres in Hres'. injection Hres' as <-. exact Hiff. }
  split.
  - intros Hr.
    destruct (submit_complaint_completes _ _ _ _ _ _ _ _ _ H) as [Hf Hp].
    rewrite (submit_complaint_effect self env _ u t d l _ _ Hf Hp) in H.
    injection H as <- <-. cbn [sub_category sub_complaint_id sub_priority] in *.
    rewrite Hr in *.
    set (row := {| complaint_id := next_complaint_id (core st); user_id := u; title := t;
                   description := d; location := l;
                   category_id := resolved_category (core st) (sub_category sub);
                   priority := Some (predict_priority d (sub_category sub));
                   status := Some "Submitted";
                   created_at := now env; updated_at := now env |}) in *.
    set (db1 := {| tbl_categories := _ |}) in *.
    assert (Hrow : In row (tbl_complaints db1)).
    { cbn. apply in_or_app. right. now left. }
    destruct (left_join_total on_category _ (tbl_categories db1) row Hrow) as [oc Hoc].
    destruct (left_join_total on_user _ (tbl_users st) (row, oc) Hoc) as [ou Hou].
    exists (queue_row_of ((row, oc), ou)). split; [| repeat split].
    apply Hq. eexists. eexists. split; [exact Hou |].
    split; [cbn; apply in_or_app; right; now left |]. repeat split.
  - intros det Hin. apply Hq in Hin as (j & a & Hj & Ha & Hc & Hd & ->).
    destruct j as [[c oc] ou]. unfold complaints_joined in Hj.
    apply in_left_join_left in Hj. apply in_left_join_left in Hj.
    exists c, a. cbn [fst with_core core] in *. repeat split; auto.
Qed.

Lemma submitted_complaint_in_queue_witness :
  exists result,
    get_complaints_by_department (at_time 9)
      (with_core {| core := seeded_db; tbl_users := []; seq_users := 0 |}
         (snd (submit_complaint (service_with balanced_pipeline) 7 "Pothole"
                 "Large pothole on main road" None (at_time 1) seeded_db))) 3 = Ok result /\
    exists det,
      In det result /\ Some (q_complaint_id det) = Some 1%Z /\
      q_title det = "Pothole" /\ q_description det = "Large pothole on main road" /\
      q_priority det = Some "Low".
Proof.
  eassert (E1 : submit_complaint (service_with balanced_pipeline) 7 "Pothole"
                  "Large pothole on main road" None (at_time 1) seeded_db = (Ok _, _))
    by (vm_compute; reflexivity).
  rewrite E1.
  destruct (submitted_complaint_in_queue (service_with balanced_pipeline)
              (at_time 1) (at_time 9)
              {| core := seeded_db; tbl_users := []; seq_users := 0 |}
              _ 7 "Pothole" "Large pothole on main road" None _ 3 eq_refl E1)
    as (result & Hres & Hin & _).
  exists result. split; [exact Hres |]. apply Hin. reflexivity.
Defined.

Lemma sum_counts_tally {K : Type} (eqb : K -> K -> bool) (k : K) (groups : list (K * Z)) :
  sum_counts (tally eqb k groups) = (sum_counts groups + 1)%Z.
Proof.
  unfold sum_counts. induction groups as [|[k' n] groups IH]; simpl; [reflexivity |].
  destruct (eqb k' k); simpl; [lia | rewrite IH; lia].
Qed.

Lemma sum_counts_group_count {K : Type} (eqb : K -> K -> bool) (keys : list K) :
  sum_counts (group_count eqb keys) = Z.of_nat (length keys).
Proof.
  unfold group_count.
  assert (H : forall groups,
             sum_counts (fold_left (fun g k => tally eqb k g) keys groups) =
             (sum_counts groups + Z.of_nat (length keys))%Z).
  { induction keys as [|k keys IH]; intros groups; cbn [fold_left length].
    - simpl. lia.
    - rewrite IH, sum_counts_tally. lia. }
  rewrite H. reflexivity.
Qed.

Lemma filter_unique_key {R : Type} (key : R -> Z) (k : Z) (rows : list R) :
  NoDup (map key rows) ->
  (length (filter (fun r => (k =? key r)%Z) rows) <= 1)%nat.
Proof.
  induction rows as [|r rows IH]; simpl; [lia |].
  intros Hnd. inversion Hnd as [|? ? Hr Hnd']; subst.
  destruct (Z.eqb_spec k (key r)) as [-> | Hne]; [| auto].
  simpl. assert (filter (fun r0 => (key r =? key r0)%Z) rows = []) as ->; [| simpl; lia].
  clear IH Hnd Hnd'. induction rows as [|x xs IHx]; simpl; [reflexivity |].
  destruct (Z.eqb_spec (key r) (key x)) as [E | E].
  - elim Hr. rewrite E. now left.
  - apply IHx. intros Hin. apply Hr. now right.
Qed.

Lemma length_left_join_category (cs : list ComplaintRow) (cats : list CategoryRow) :
  NoDup (map cat_category_id cats) ->
  length (left_join on_category cs cats) = length cs.
Proof.
  intros Hnd. unfold left_join. induction cs as [|c cs IH]; [reflexivity |].
  cbn [flat_map]. rewrite length_app, IH. cbn [length]. f_equal.
  unfold on_category, option_Z_eqb. destruct (category_id c) as [k|].
  - pose proof (filter_unique_key cat_category_id k cats Hnd) as Hle.
    destruct (filter (fun r => (k =? cat_category_id r)%Z) cats) as [|b [|b' bs]];
      simpl in *; [reflexivity | reflexivity | lia].
  - assert (filter (fun _ : CategoryRow => false) cats = []) as ->; [| reflexivity].
    clear. induction cats; simpl; auto.
Qed.

(** The statistics add up: the counts by status and the counts by
    priority each sum to the total number of complaints, and so do the
    counts by category when category identifiers are distinct. *)
Theorem get_statistics_totals (env : Env) (st : Store) (stats : Statistics) :
  get_statistics env st = Ok stats ->
  total_complaints stats = Z.of_nat (length (tbl_complaints (core st))) /\
  sum_counts (by_status stats) = total_complaints stats /\
  sum_counts (by_priority stats) = total_complaints stats /\
  (NoDup (map cat_category_id (tbl_categories (core st))) ->
   sum_counts (by_category stats) = total_complaints stats).
Proof.
  unfold get_statistics. destruct (fault env); [discriminate |].
  intros H. injection H as <-.
  cbn [total_complaints by_status by_priority by_category].
  rewrite !sum_counts_group_count, !length_map.
  repeat split. intros Hnd. now rewrite length_left_join_category.
Qed.

Lemma get_statistics_totals_witness :
  exists stats,
    get_statistics (at_time 9)
      (with_core {| core := seeded_db; tbl_users := []; seq_users := 0 |}
         (run_calls (service_with balanced_pipeline)
            [ (at_time 1, Submit 7 "Pothole" "Large pothole on main road" None);
              (at_time 2, Submit 7 "Wire" "Exposed wire, urgent" None);
              (at_time 3, SetStatus 1 "Resolved") ]
            seeded_db)) = Ok stats /\
    by_status stats = [(Some "Resolved", 1%Z); (Some "Submitted", 1%Z)] /\
    sum_counts (by_status stats) = total_complaints stats.
Proof.
  eassert (E : get_statistics (at_time 9)
                 (with_core {| core := seeded_db; tbl_users := []; seq_users := 0 |}
                    (run_calls (service_with balanced_pipeline)
                       [ (at_time 1, Submit 7 "Pothole" "Large pothole on main road" None);
                         (at_time 2, Submit 7 "Wire" "Exposed wire, urgent" None);
                         (at_time 3, SetStatus 1 "Resolved") ]
                       seeded_db)) = Ok _)
    by (vm_compute; reflexivity).
  eexists. split; [exact E |]. split; [reflexivity |].
  exact (proj1 (proj2 (get_statistics_totals _ _ _ E))).
Defined.

End QueueFacts.

(** ** Seeding *)

Module SeedingFacts.
Import PyStr Classifier Storage Service Spec Claims Seeding.
Import AccountsFacts.

Lemma try_insert_category_has (s : Schema) (cat : string * string) (n : string) :
  has_category (sch_db (try_insert_category s cat)) n =
  has_category (sch_db s) n || String.eqb (fst cat) n.
Proof.
  unfold try_insert_category, insert_category, has_category.
  destruct (existsb (fun r => String.eqb (cat_name r) (fst cat))
              (tbl_categories (sch_db s))) eqn:E.
  - destruct (String.eqb_spec (fst cat) n) as [<- | Hne].
    + now rewrite E.
    + now rewrite orb_false_r.
  - cbn [sch_db tbl_categories]. rewrite existsb_app. cbn [existsb cat_name].
    now rewrite orb_false_r.
Qed.

Lemma fold_try_insert_category_has (cats : list (string * string)) (s : Schema) (n : string) :
  has_category (sch_db (fold_left try_insert_category cats s)) n =
  has_category (sch_db s) n || existsb (fun c => String.eqb (fst c) n) cats.
Proof.
  revert s. induction cats as [|c cats IH]; intros s; cbn [fold_left existsb].
  - now rewrite orb_false_r.
  - now rewrite IH, try_insert_category_has, orb_assoc.
Qed.

Lemma try_insert_category_frame (s : Schema) (cat : string * string) :
  tbl_departments (sch_db (try_insert_category s cat)) = tbl_departments (sch_db s) /\
  tbl_complaints (sch_db (try_insert_category s cat)) = tbl_complaints (sch_db s) /\
  tbl_assignments (sch_db (try_insert_category s cat)) = tbl_assignments (sch_db s).
Proof.
  unfold try_insert_category, insert_category.
  destruct (existsb _ (tbl_categories (sch_db s))); auto.
Qed.

Lemma try_insert_category_distinct (s : Schema) (cat : string * string) :
  NoDup (map cat_name (tbl_categories (sch_db s))) ->
  NoDup (map cat_category_id (tbl_categories (sch_db s))) ->
  NoDup (map cat_name (tbl_categories (sch_db (try_insert_category s cat)))) /\
  NoDup (map cat_category_id (tbl_categories (sch_db (try_insert_category s cat)))).
Proof.
  intros Hn Hi. unfold try_insert_category, insert_category.
  destruct (existsb (fun r => String.eqb (cat_name r) (fst cat))
              (tbl_categories (sch_db s))) eqn:E; [auto |].
  cbn [sch_db tbl_categories]. rewrite !map_app. cbn [map cat_name cat_category_id].
  split; apply NoDup_app_fresh; try assumption.
  - intros Hin. apply in_map_iff in Hin as (r & Hr & Hin).
    assert (existsb (fun r => String.eqb (cat_name r) (fst cat))
              (tbl_categories (sch_db s)) = true); [| congruence].
    apply existsb_exists. exists r. split; [assumption | now apply String.eqb_eq].
  - intros Hin. apply in_map_iff in Hin as (r & Hr & Hin).
    destruct (max_id_ge cat_category_id (tbl_categories (sch_db s))) as [_ Hall].
    rewrite Forall_forall in Hall. specialize (Hall r Hin). lia.
Qed.

Lemma fold_try_insert_category_distinct (cats : list (string * string)) (s : Schema) :
  NoDup (map cat_name (tbl_categories (sch_db s))) ->
  NoDup (map cat_category_id (tbl_categories (sch_db s))) ->
  NoDup (map cat_name (tbl_categories (sch_db (fold_left try_insert_category cats s)))) /\
  NoDup (map cat_category_id
           (tbl_categories (sch_db (fold_left try_insert_category cats s)))).
Proof.
  revert s. induction cats as [|c cats IH]; intros s Hn Hi; cbn [fold_left]; [auto |].
  destruct (try_insert_category_distinct s c Hn Hi) as [Hn' Hi']. now apply IH.
Qed.

Lemma fold_try_insert_category_frame (cats : list (string * string)) (s : Schema) :
  tbl_complaints (sch_db (fold_left try_insert_category cats s)) = tbl_complaints (sch_db s) /\
  tbl_assignments (sch_db (fold_left try_insert_category cats s)) =
    tbl_assignments (sch_db s).
Proof.
  revert s. induction cats as [|c cats IH]; intros s; cbn [fold_left]; [auto |].
  destruct (IH (try_insert_category s c)) as [-> ->].
  destruct (try_insert_category_frame s c) as (_ & -> & ->). auto.
Qed.

Lemma fold_insert_department (ds : list (string * Z * string)) (s : Schema) :
  tbl_categories (sch_db (fold_left insert_department ds s)) = tbl_categories (sch_db s) /\
  tbl_complaints (sch_db (fold_left insert_department ds s)) = tbl_complaints (sch_db s) /\
  tbl_assignments (sch_db (fold_left insert_department ds s)) = tbl_assignments (sch_db s) /\
  seq_categories (fold_left insert_department ds s) = seq_categories s /\
  exists added,
    tbl_departments (sch_db (fold_left insert_department ds s)) =
      (tbl_departments (sch_db s) ++ added)%list /\
    map department_columns added =
      map (fun d => (fst (fst d), Some (snd (fst d)), Some (snd d))) ds.
Proof.
  revert s. induction ds as [|d ds IH]; intros s; cbn [fold_left].
  - repeat split. exists []. split; [now rewrite app_nil_r | reflexivity].
  - destruct (IH (insert_department s d)) as (H1 & H2 & H3 & H4 & added & H5 & H6).
    rewrite H1, H2, H3, H4. repeat split.
    eexists (_ :: added). rewrite H5. cbn [insert_department sch_db tbl_departments].
    rewrite <- app_assoc. split; [reflexivity |].
    cbn [map]. now rewrite H6.
Qed.

Lemma has_category_resolved (db : Database) (name : string) :
  has_category db name = true <-> resolved_category db name <> None.
Proof.
  unfold has_category, resolved_category.
  induction (tbl_categories db) as [|r rows IH]; simpl.
  - split; [discriminate | intros H; now elim H].
  - destruct (String.eqb (cat_name r) name); simpl; [split; [discriminate | reflexivity] |].
    exact IH.
Qed.

(** After [seed_data], on whatever database it ran, each of the five
    categories the classifier can predict is configured; the categories
    that were there are kept, category names and identifiers stay pairwise
    distinct, and complaints and assignments are untouched. *)
Theorem seed_data_configures_categories (env : Env) (s s' : Schema) :
  seed_data env s = Ok s' ->
  (forall c, In c (categories (init None)) -> resolved_category (sch_db s') c <> None) /\
  (forall c, resolved_category (sch_db s) c <> None ->
             resolved_category (sch_db s') c <> None) /\
  (NoDup (map cat_name (tbl_categories (sch_db s))) ->
   NoDup (map cat_category_id (tbl_categories (sch_db s))) ->
   NoDup (map cat_name (tbl_categories (sch_db s'))) /\
   NoDup (map cat_category_id (tbl_categories (sch_db s')))) /\
  tbl_complaints (sch_db s') = tbl_complaints (sch_db s) /\
  tbl_assignments (sch_db s') = tbl_assignments (sch_db s).
Proof.
  unfold seed_data. destruct (fault env); [discriminate |].
  intros H.
  assert (E : s' = fold_left insert_department seed_departments
                     (fold_left try_insert_category seed_categories s)) by congruence.
  subst s'. clear H.
  destruct (fold_insert_department seed_departments
              (fold_left try_insert_category seed_categories s))
    as (Hc & Hco & Ha & _ & _).
  assert (Hhas : forall n,
             has_category (sch_db (fold_left insert_department seed_departments
                                     (fold_left try_insert_category seed_categories s))) n =
             has_category (sch_db s) n ||
             existsb (fun c => String.eqb (fst c) n) seed_categories).
  { intros n. unfold has_category at 1. rewrite Hc.
    apply fold_try_insert_category_has. }
  split; [| split; [| split; [| split]]].
  - intros c Hin. apply has_category_resolved. rewrite Hhas.
    cbn [categories init] in Hin.
    destruct Hin as [<- | [<- | [<- | [<- | [<- | []]]]]]; apply orb_true_r.
  - intros c Hin. apply has_category_resolved. rewrite Hhas.
    apply has_category_resolved in Hin. now rewrite Hin.
  - rewrite Hc. apply fold_try_insert_category_distinct.
  - rewrite Hco. apply fold_try_insert_category_frame.
  - rewrite Ha. apply fold_try_insert_category_frame.
Qed.

Lemma seed_data_configures_categories_witness :
  resolved_category seeded_db "Other" <> None.
Proof.
  eassert (E : seed_data (at_time 0) initial_schema = Ok _) by (vm_compute; reflexivity).
  refine (proj1 (seed_data_configures_categories _ _ _ E) "Other" _).
  simpl. tauto.
Defined.

Lemma try_insert_category_present (s : Schema) (cat : string * string) :
  has_category (sch_db s) (fst cat) = true -> try_insert_category s cat = s.
Proof.
  unfold try_insert_category, insert_category, has_category. now intros ->.
Qed.

(** Seeding again: a second [seed_data] adds no category, every insertion
    being refused by the UNIQUE name, but adds the five departments once
    more, after the ones already there. *)
Theorem seed_data_again (env env2 : Env) (s s1 s2 : Schema) :
  seed_data env s = Ok s1 ->
  seed_data env2 s1 = Ok s2 ->
  tbl_categories (sch_db s2) = tbl_categories (sch_db s1) /\
  exists added,
    tbl_departments (sch_db s2) = (tbl_departments (sch_db s1) ++ added)%list /\
    map department_columns added =
      map (fun d => (fst (fst d), Some (snd (fst d)), Some (snd d))) seed_departments.
Proof.
  intros H1 H2.
  assert (Hall : forall c, In c seed_categories -> has_category (sch_db s1) (fst c) = true).
  { intros c Hc. apply has_category_resolved.
    unfold seed_data in H1. destruct (fault env); [discriminate |].
    assert (E : s1 = fold_left insert_department seed_departments
                       (fold_left try_insert_category seed_categories s)) by congruence.
    subst s1. clear H1.
    destruct (fold_insert_department seed_departments
                (fold_left try_insert_category seed_categories s)) as (Hc' & _).
    apply has_category_resolved. unfold has_category. rewrite Hc'.
    fold (has_category (sch_db (fold_left try_insert_category seed_categories s)) (fst c)).
    rewrite fold_try_insert_category_has.
    assert (existsb (fun c0 => String.eqb (fst c0) (fst c)) seed_categories = true) as ->;
      [| apply orb_true_r].
    apply existsb_exists. exists c. split; [assumption | apply String.eqb_refl]. }
  assert (Hfix : fold_left try_insert_category seed_categories s1 = s1).
  { revert Hall. generalize seed_categories. intros cats.
    induction cats as [|c cats IH]; intros Hall; cbn [fold_left]; [reflexivity |].
    rewrite try_insert_category_present by (apply Hall; now left).
    apply IH. intros c' Hc'. apply Hall. now right. }
  unfold seed_data in H2. destruct (fault env2); [discriminate |].
  assert (E : s2 = fold_left insert_department seed_departments
                     (fold_left try_insert_category seed_categories s1)) by congruence.
  subst s2. clear H2. rewrite Hfix.
  destruct (fold_insert_department seed_departments s1) as (Hc & _ & _ & _ & added & Hd & Hm).
  split; [assumption |]. now exists added.
Qed.

Lemma seed_data_again_witness :
  exists s1 s2,
    seed_data (at_time 0) initial_schema = Ok s1 /\
    seed_data (at_time 1) s1 = Ok s2 /\
    sch_db s1 = seeded_db /\
    tbl_categories (sch_db s2) = tbl_categories (sch_db s1) /\
    length (tbl_departments (sch_db s2)) = 10%nat.
Proof.
  eassert (E1 : seed_data (at_time 0) initial_schema = Ok _) by (vm_compute; reflexivity).
  match type of E1 with
  | _ = Ok ?s1 =>
      eassert (E2 : seed_data (at_time 1) s1 = Ok _) by (vm_compute; reflexivity)
  end.
  eexists. eexists. split; [exact E1 |]. split; [exact E2 |].
  split; [reflexivity |].
  split; [exact (proj1 (seed_data_again _ _ _ _ _ E1 E2)) | reflexivity].
Defined.

End SeedingFacts.
